(** * A shallow embedding of the maxroll crawler and its merge utilities

    Sources embedded here:
    - [scraper/spiders/maxroll.py]: the spider (URL normalisation, scope
      filter, frontier bookkeeping, per-page hard stops, final write);
    - [dedupe.py]: the offline URL + content-hash deduplication;
    - [dedupe_simple.py], [dedupe_compact.py]: the URL-only merges.

    Python [str] values are modelled by [string]; a character is an
    8-bit [ascii], read as the code point of the same number, so the
    model covers text whose code points are below 256.  Python [int]s
    are [Z].  Python [set]s of URLs are [gset string]; the insertion
    ordered [dict] of URL groups is an association list. *)

From Stdlib Require Import String Ascii List ZArith Lia Bool DecimalString.
From Stdlib Require Import Sorted Permutation.
From stdpp Require Import gmap strings.

Local Open Scope Z_scope.

(** ** Python string primitives *)

Module Py.

(** [c in s] for a single character [c]. *)
Fixpoint has_char (c : ascii) (s : string) : bool :=
  match s with
  | EmptyString => false
  | String a s' => if Ascii.eqb a c then true else has_char c s'
  end.

(** The longest prefix free of characters satisfying [p], and what is
    left (which starts at the first such character, when there is one). *)
Fixpoint break (p : ascii -> bool) (s : string) : string * string :=
  match s with
  | EmptyString => (EmptyString, EmptyString)
  | String a s' =>
      if p a then (EmptyString, s)
      else let '(h, t) := break p s' in (String a h, t)
  end.

(** [s.split(c, 1)] under the guard [c in s]: the text before the first
    [c] and the text after it; [(s, "")] when [c] does not occur, as every
    call site in [urllib.parse] then leaves the second component empty. *)
Definition split1 (c : ascii) (s : string) : string * string :=
  match break (Ascii.eqb c) s with
  | (h, String _ t) => (h, t)
  | (h, EmptyString) => (h, EmptyString)
  end.

(** [s.lstrip(chars)] with [chars] given as a predicate. *)
Fixpoint lstrip (p : ascii -> bool) (s : string) : string :=
  match s with
  | EmptyString => EmptyString
  | String a s' => if p a then lstrip p s' else s
  end.

(** Deletes every character satisfying [p] ([s.replace(b, "")] for each
    one-character [b] of a list). *)
Fixpoint remove_chars (p : ascii -> bool) (s : string) : string :=
  match s with
  | EmptyString => EmptyString
  | String a s' =>
      if p a then remove_chars p s' else String a (remove_chars p s')
  end.

Fixpoint all_chars (p : ascii -> bool) (s : string) : bool :=
  match s with
  | EmptyString => true
  | String a s' => p a && all_chars p s'
  end.

Fixpoint map_chars (f : ascii -> ascii) (s : string) : string :=
  match s with
  | EmptyString => EmptyString
  | String a s' => String (f a) (map_chars f s')
  end.

Definition code (a : ascii) : N := N_of_ascii a.

Definition is_upper (a : ascii) : bool := (65 <=? code a)%N && (code a <=? 90)%N.
Definition is_lower (a : ascii) : bool := (97 <=? code a)%N && (code a <=? 122)%N.
Definition is_digit (a : ascii) : bool := (48 <=? code a)%N && (code a <=? 57)%N.

(** [c.isascii() and c.isalpha()] *)
Definition is_ascii_alpha (a : ascii) : bool := is_upper a || is_lower a.

(** [c.lower()] on an ASCII character. *)
Definition lower_char (a : ascii) : ascii :=
  if is_upper a then ascii_of_N (code a + 32) else a.

Definition lower (s : string) : string := map_chars lower_char s.

(** [s.startswith(t)] *)
Definition startswith (s t : string) : bool := String.prefix t s.

(** [t in s] for strings: [t] occurs in [s] as a substring. *)
Fixpoint contains (s t : string) : bool :=
  match s with
  | EmptyString => String.eqb t EmptyString
  | String _ s' => String.prefix t s || contains s' t
  end.

(** [s[:n]] *)
Fixpoint take (n : nat) (s : string) : string :=
  match n, s with
  | O, _ => EmptyString
  | S _, EmptyString => EmptyString
  | S n', String a s' => String a (take n' s')
  end.

(** [s.split(c)]: the pieces between the occurrences of [c]; never empty. *)
Fixpoint split (c : ascii) (s : string) : list string :=
  match s with
  | EmptyString => [EmptyString]
  | String a s' =>
      if Ascii.eqb a c then EmptyString :: split c s'
      else match split c s' with
           | p :: ps => String a p :: ps
           | [] => [String a EmptyString]
           end
  end.

(** [sep.join(parts)] *)
Definition join (sep : string) (parts : list string) : string :=
  String.concat sep parts.

(** Truthiness of a string: [bool(s)]. *)
Definition truthy (s : string) : bool :=
  match s with EmptyString => false | String _ _ => true end.

(** [str(n)] for a non-negative integer. *)
Definition str_of_nat (n : nat) : string :=
  NilZero.string_of_uint (Nat.to_uint n).

End Py.

(** ** [urllib.parse] (CPython 3.11)

    [urlparse], [urlunparse] and their helpers, transcribed from the
    standard library.  The two [ValueError] checks of [urlsplit] (square
    brackets in the network location, NFKC expansion of a non-ASCII
    network location) are outside the model: it gives the result CPython
    returns whenever CPython returns one. *)

Module UrlLib.

Record ParseResult := mkParseResult {
  scheme : string;
  netloc : string;
  path : string;
  params : string;
  query : string;
  fragment : string
}.

Definition uses_params : list string :=
  [""; "ftp"; "hdl"; "prospero"; "http"; "imap"; "https"; "shttp"; "rtsp";
   "rtspu"; "sip"; "sips"; "mms"; "sftp"; "tel"].

Definition uses_netloc : list string :=
  [""; "ftp"; "http"; "gopher"; "nntp"; "telnet"; "imap"; "wais"; "file";
   "mms"; "https"; "shttp"; "snews"; "prospero"; "rtsp"; "rtspu"; "rsync";
   "svn"; "svn+ssh"; "sftp"; "nfs"; "git"; "git+ssh"; "ws"; "wss"].

Definition mem (s : string) (l : list string) : bool :=
  existsb (String.eqb s) l.

(** [c in scheme_chars] *)
Definition scheme_char (a : ascii) : bool :=
  Py.is_lower a || Py.is_upper a || Py.is_digit a
  || Ascii.eqb a "+" || Ascii.eqb a "-" || Ascii.eqb a ".".

(** [_WHATWG_C0_CONTROL_OR_SPACE] *)
Definition c0_control_or_space (a : ascii) : bool := (Py.code a <=? 32)%N.

(** [_UNSAFE_URL_BYTES_TO_REMOVE] *)
Definition unsafe_url_byte (a : ascii) : bool :=
  Ascii.eqb a "009" || Ascii.eqb a "013" || Ascii.eqb a "010".

Definition netloc_delim (a : ascii) : bool :=
  Ascii.eqb a "/" || Ascii.eqb a "?" || Ascii.eqb a "#".

(** The scheme step of [urlsplit]: [i = url.find(':')], and when [i > 0],
    [url[0]] is an ASCII letter and [url[:i]] consists of scheme
    characters, the scheme is [url[:i].lower()] and the URL goes on after
    the colon. *)
Definition split_scheme (url : string) : string * string :=
  match Py.break (Ascii.eqb ":") url with
  | (String a0 h, String _ rest) =>
      if Py.is_ascii_alpha a0 && Py.all_chars scheme_char (String a0 h)
      then (Py.lower (String a0 h), rest)
      else (EmptyString, url)
  | _ => (EmptyString, url)
  end.

(** [if url[:2] == '//': netloc, url = _splitnetloc(url, 2)] *)
Definition split_netloc (url : string) : string * string :=
  match url with
  | String "/" (String "/" rest) => Py.break netloc_delim rest
  | _ => (EmptyString, url)
  end.

Definition urlsplit (url : string) : ParseResult :=
  let url := Py.lstrip c0_control_or_space url in
  let url := Py.remove_chars unsafe_url_byte url in
  let '(scheme, url) := split_scheme url in
  let '(netloc, url) := split_netloc url in
  let '(url, fragment) := Py.split1 "#" url in
  let '(url, query) := Py.split1 "?" url in
  mkParseResult scheme netloc url EmptyString query fragment.

(** [(url[:k], url[k:])] for [k = url.rfind('/')]; [("", url)] when the
    URL has no slash. *)
Fixpoint rsplit_slash (url : string) : string * string :=
  match url with
  | EmptyString => (EmptyString, EmptyString)
  | String a s' =>
      if Py.has_char "/" s'
      then let '(h, t) := rsplit_slash s' in (String a h, t)
      else (EmptyString, url)
  end.

(** [_splitparams(url)], called only when [';' in url]. *)
Definition _splitparams (url : string) : string * string :=
  let '(h, t) := rsplit_slash url in
  match Py.break (Ascii.eqb ";") t with
  | (b, String _ a) => (h +:+ b, a)
  | (_, EmptyString) => (url, EmptyString)
  end.

Definition urlparse (url : string) : ParseResult :=
  let r := urlsplit url in
  let '(url', params) :=
    if mem (scheme r) uses_params && Py.has_char ";" (path r)
    then _splitparams (path r)
    else (path r, EmptyString) in
  mkParseResult (scheme r) (netloc r) url' params (query r) (fragment r).

Definition urlunsplit (scheme netloc url query fragment : string) : string :=
  let url :=
    if Py.truthy netloc
       || (Py.truthy scheme && mem scheme uses_netloc
           && negb (String.eqb (Py.take 2 url) "//"))
    then
      let url :=
        if Py.truthy url && negb (String.eqb (Py.take 1 url) "/")
        then "/" +:+ url else url in
      "//" +:+ netloc +:+ url
    else url in
  let url := if Py.truthy scheme then scheme +:+ ":" +:+ url else url in
  let url := if Py.truthy query then url +:+ "?" +:+ query else url in
  let url := if Py.truthy fragment then url +:+ "#" +:+ fragment else url in
  url.

Definition urlunparse (scheme netloc url params query fragment : string)
  : string :=
  let url := if Py.truthy params then url +:+ ";" +:+ params else url in
  urlunsplit scheme netloc url query fragment.

End UrlLib.

(** ** [hashlib.md5(s.encode('utf-8')).hexdigest()]

    RFC 1321 over 32-bit words held in [N] with the wrap-around written
    out. *)

Module Md5.

Local Open Scope N_scope.

Definition mask32 (x : N) : N := N.land x 0xFFFFFFFF.

Definition add32 (x y : N) : N := mask32 (x + y).

Definition not32 (x : N) : N := N.lxor (mask32 x) 0xFFFFFFFF.

Definition rotl32 (x c : N) : N :=
  mask32 (N.lor (N.shiftl x c) (N.shiftr x (32 - c))).

Definition K : list N :=
  [0xd76aa478; 0xe8c7b756; 0x242070db; 0xc1bdceee;
   0xf57c0faf; 0x4787c62a; 0xa8304613; 0xfd469501;
   0x698098d8; 0x8b44f7af; 0xffff5bb1; 0x895cd7be;
   0x6b901122; 0xfd987193; 0xa679438e; 0x49b40821;
   0xf61e2562; 0xc040b340; 0x265e5a51; 0xe9b6c7aa;
   0xd62f105d; 0x02441453; 0xd8a1e681; 0xe7d3fbc8;
   0x21e1cde6; 0xc33707d6; 0xf4d50d87; 0x455a14ed;
   0xa9e3e905; 0xfcefa3f8; 0x676f02d9; 0x8d2a4c8a;
   0xfffa3942; 0x8771f681; 0x6d9d6122; 0xfde5380c;
   0xa4beea44; 0x4bdecfa9; 0xf6bb4b60; 0xbebfbc70;
   0x289b7ec6; 0xeaa127fa; 0xd4ef3085; 0x04881d05;
   0xd9d4d039; 0xe6db99e5; 0x1fa27cf8; 0xc4ac5665;
   0xf4292244; 0x432aff97; 0xab9423a7; 0xfc93a039;
   0x655b59c3; 0x8f0ccc92; 0xffeff47d; 0x85845dd1;
   0x6fa87e4f; 0xfe2ce6e0; 0xa3014314; 0x4e0811a1;
   0xf7537e82; 0xbd3af235; 0x2ad7d2bb; 0xeb86d391].

Definition shifts : list N :=
  [7; 12; 17; 22; 7; 12; 17; 22; 7; 12; 17; 22; 7; 12; 17; 22;
   5; 9; 14; 20; 5; 9; 14; 20; 5; 9; 14; 20; 5; 9; 14; 20;
   4; 11; 16; 23; 4; 11; 16; 23; 4; 11; 16; 23; 4; 11; 16; 23;
   6; 10; 15; 21; 6; 10; 15; 21; 6; 10; 15; 21; 6; 10; 15; 21].

(** The UTF-8 bytes of a string of code points below 256. *)
Definition utf8 (s : string) : list N :=
  flat_map
    (fun a => let c := N_of_ascii a in
              if c <? 128 then [c] else [192 + c / 64; 128 + c mod 64])
    (list_ascii_of_string s).

(** [n] little-endian bytes of [x]. *)
Fixpoint le_bytes (n : nat) (x : N) : list N :=
  match n with
  | O => []
  | S n' => x mod 256 :: le_bytes n' (x / 256)
  end.

Definition pad (msg : list N) : list N :=
  let len := length msg in
  let zeros := ((119 - len mod 64) mod 64)%nat in
  msg ++ [128] ++ repeat 0 zeros ++ le_bytes 8 (8 * N.of_nat len).

Definition word_of_bytes (bs : list N) : N :=
  fold_right (fun b acc => b + 256 * acc) 0 bs.

(** Cuts a list into consecutive pieces of [n] elements; [fuel] bounds the
    number of pieces. *)
Fixpoint chunks {A} (n : nat) (fuel : nat) (l : list A) : list (list A) :=
  match fuel with
  | O => []
  | S fuel' =>
      match l with
      | [] => []
      | _ => firstn n l :: chunks n fuel' (skipn n l)
      end
  end.

Definition words_of_block (block : list N) : list N :=
  map word_of_bytes (chunks 4 16 block).

Definition state : Type := N * N * N * N.

Definition round (M : list N) (st : state) (i : nat) : state :=
  let '(a, b, c, d) := st in
  let '(f, g) :=
    if (i <? 16)%nat then
      (N.lor (N.land b c) (N.land (not32 b) d), i)
    else if (i <? 32)%nat then
      (N.lor (N.land d b) (N.land (not32 d) c), ((5 * i + 1) mod 16)%nat)
    else if (i <? 48)%nat then
      (N.lxor b (N.lxor c d), ((3 * i + 5) mod 16)%nat)
    else
      (N.lxor c (N.lor b (not32 d)), ((7 * i) mod 16)%nat) in
  let f := add32 (add32 (add32 f a) (nth i K 0)) (nth g M 0) in
  (d, add32 b (rotl32 f (nth i shifts 0)), b, c).

Definition process_block (st : state) (block : list N) : state :=
  let M := words_of_block block in
  let '(a0, b0, c0, d0) := st in
  let '(a, b, c, d) := fold_left (round M) (seq 0 64) st in
  (add32 a0 a, add32 b0 b, add32 c0 c, add32 d0 d).

Definition init : state := (0x67452301, 0xefcdab89, 0x98badcfe, 0x10325476).

Definition hex_digit (n : N) : ascii :=
  if n <? 10 then ascii_of_N (48 + n) else ascii_of_N (87 + n).

Definition hex_of_byte (b : N) : string :=
  String (hex_digit (b / 16)) (String (hex_digit (b mod 16)) EmptyString).

Definition digest (msg : list N) : list N :=
  let padded := pad msg in
  let '(a, b, c, d) :=
    fold_left process_block (chunks 64 (length padded) padded) init in
  le_bytes 4 a ++ le_bytes 4 b ++ le_bytes 4 c ++ le_bytes 4 d.

Definition hexdigest (s : string) : string :=
  String.concat EmptyString (map hex_of_byte (digest (utf8 s))).

End Md5.

(** ** Page records

    A record is the JSON object the spider writes: [url], [title], the
    [content] object and [metadata].  The merge utilities read records back
    from JSON and test keys for presence, so a key that may be missing is an
    [option].  [content_title] is a ['title'] key inside the [content]
    object; the spider stores the title beside [content], never inside it. *)

Record Heading := mkHeading { level : Z; text : string }.
Record Link := mkLink { link_url : string; link_text : string }.
Record Image := mkImage { src : string; alt : string }.

Record Content := mkContent {
  headings : option (list Heading);
  paragraphs : option (list string);
  lists : option (list (list string));
  links : option (list Link);
  images : option (list Image);
  structured_data : option (list string);
  tables : option (list (list (list string)));
  code_blocks : option (list string);
  content_title : option string
}.

Record Item := mkItem {
  url : option string;
  title : option string;
  content : option Content;
  metadata : list (string * string)
}.

(** The empty dict [{}]. *)
Definition empty_content : Content :=
  mkContent None None None None None None None None None.

(** [content.get(key, [])] followed by [len]. *)
Definition len_or_empty {A} (field : option (list A)) : Z :=
  match field with
  | Some l => Z.of_nat (length l)
  | None => 0
  end.

Definition newline : string := String "010" EmptyString.

(** [str(n)] for an integer. *)
Definition str_of_int (n : Z) : string :=
  NilZero.string_of_int (Z.to_int n).

(** ** [dedupe.py] *)

Module Dedupe.

(** [f"{parsed.scheme}://{parsed.netloc}{parsed.path}"] *)
Definition normalize_url (u : string) : string :=
  let parsed := UrlLib.urlparse u in
  UrlLib.scheme parsed +:+ "://" +:+ UrlLib.netloc parsed
    +:+ UrlLib.path parsed.

(** The text [get_content_hash] builds before hashing it. *)
Definition content_str (c : Content) : string :=
  let content_str := EmptyString in
  let content_str :=
    match headings c with
    | Some hs =>
        fold_left
          (fun acc heading =>
             acc +:+ ("h" +:+ str_of_int (level heading) +:+ ":"
                          +:+ text heading +:+ newline))
          hs content_str
    | None => content_str
    end in
  let content_str :=
    match paragraphs c with
    | Some ps =>
        fold_left (fun acc para => acc +:+ (Py.take 100 para +:+ newline))
          ps content_str
    | None => content_str
    end in
  let content_str :=
    match content_title c with
    | Some t => content_str +:+ ("title:" +:+ t +:+ newline)
    | None => content_str
    end in
  content_str.

Definition get_content_hash (c : Content) : string :=
  Md5.hexdigest (content_str c).

(** [item.get('content', {})] *)
Definition item_content (item : Item) : Content :=
  match content item with
  | Some c => c
  | None => empty_content
  end.

Definition content_score (item : Item) : Z :=
  let content := item_content item in
  let score := 0 in
  let score := score + len_or_empty (headings content) * 2 in
  let score := score + len_or_empty (paragraphs content) * 3 in
  let score := score + len_or_empty (lists content) * 2 in
  let score := score + len_or_empty (links content) in
  let score := score + len_or_empty (images content) in
  let score := score + len_or_empty (tables content) * 5 in
  score.

(** [max(items, key=...)] scanning from a first candidate: a later item
    replaces the current best only when its key is strictly greater. *)
Fixpoint max_from {A} (key : A -> Z) (best : A) (rest : list A) : A :=
  match rest with
  | [] => best
  | x :: rest' =>
      if key best <? key x then max_from key x rest'
      else max_from key best rest'
  end.

(** [url_groups[normalized_url].append(item)] on an insertion-ordered
    dict: an existing key keeps its place, a new key goes last. *)
Fixpoint group_append (k : string) (item : Item)
  (groups : list (string * list Item)) : list (string * list Item) :=
  match groups with
  | [] => [(k, [item])]
  | (k', items) :: groups' =>
      if String.eqb k k' then (k', items ++ [item]) :: groups'
      else (k', items) :: group_append k item groups'
  end.

Definition url_groups (data : list Item) : list (string * list Item) :=
  fold_left
    (fun groups item =>
       match url item with
       | Some u => group_append (normalize_url u) item groups
       | None => groups
       end)
    data [].

(** The record a group is reduced to: the only one, or the best one. *)
Definition best_item (items : list Item) : option Item :=
  match items with
  | [] => None
  | [item] => Some item
  | first :: rest => Some (max_from content_score first rest)
  end.

(** One round of the loop over [url_groups.items()]; the state is
    [(seen_content_hashes, deduplicated)].  A group is never empty (it is
    created by its first [append]); the empty case is left unchanged. *)
Definition process_group (acc : gset string * list Item)
  (group : string * list Item) : gset string * list Item :=
  let '(seen_content_hashes, deduplicated) := acc in
  match best_item (snd group) with
  | Some item =>
      let content_hash := get_content_hash (item_content item) in
      if bool_decide (content_hash ∈ seen_content_hashes)
      then acc
      else (seen_content_hashes ∪ {[content_hash]}, deduplicated ++ [item])
  | None => acc
  end.

(** The list [deduplicated] once the loop over the groups is over. *)
Definition deduplicated (data : list Item) : list Item :=
  snd (fold_left process_group (url_groups data) (∅, [])).

(** [deduplicate_data(data, verbose=...)] with no output file.  The
    summary printed in verbose mode computes
    [(len(data) - len(deduplicated)) / len(data)], which raises
    [ZeroDivisionError] on an empty [data]: [None]. *)
Definition deduplicate_data (data : list Item) (verbose : bool)
  : option (list Item) :=
  let result := deduplicated data in
  if verbose && (length data =? 0)%nat then None else Some result.

End Dedupe.

(** ** [scraper/spiders/maxroll.py] *)

(** Where an exception leaves [parse] between the page counter (line 172)
    and [_collect_data] (line 297).  Nothing there is guarded:
    [response.css] raises [NotSupported] on a response whose body is not
    text (at line 125 on the first page, at line 185 on any other), and
    [urljoin] raises [ValueError] on a reference it cannot parse (line 128
    on the first page; lines 233 and 246).  The exception ends the call;
    the engine logs it and hands the next response to [parse]. *)
Inductive Raised :=
| InEstimate     (* line 175: inside [_estimate_total_pages], before it
                    stores its estimate *)
| InExtraction.  (* lines 185-295: after line 175 has returned *)

(** What [parse] reads from a response.  [css_title] and [css_h1] are the
    results of [response.css('title::text').get()] and
    [response.css('h1::text').get()]; [extracted] and [meta_tags] are the
    [content] and [metadata] objects that lines 197-294 build with the CSS
    selectors; [hrefs] lists the [href] attribute of every [a[href]]
    element in document order.  [raised] tells how lines 175-295 end on
    this response: [None] when they raise nothing, and the record is
    built. *)
Record Response := mkRawResponse {
  resp_url : string;
  meta_depth : option Z;
  css_title : option string;
  css_h1 : option string;
  extracted : Content;
  meta_tags : list (string * string);
  hrefs : list string;
  raised : option Raised
}.

(** A response on which lines 175-295 raise nothing. *)
Definition mkResponse (resp_url : string) (meta_depth : option Z)
  (css_title css_h1 : option string) (extracted : Content)
  (meta_tags : list (string * string)) (hrefs : list string) : Response :=
  mkRawResponse resp_url meta_depth css_title css_h1 extracted meta_tags
    hrefs None.

(** Whether lines 175-295 run through on the response. *)
Definition extracts (r : Response) : bool :=
  match raised r with
  | None => true
  | Some _ => false
  end.

(** A call [response.follow(full_url, self.parse, meta={'depth': d})], by
    its arguments: [req_url] is the string [full_url] the spider passes,
    the one it has normalized and recorded, and [req_depth] is [d].  The
    [Request] object Scrapy builds from the call carries that string
    resolved against the page URL and percent-escaped, so two calls with
    different [req_url] can end in requests for one URL; the URL Scrapy
    builds is not part of the model, which speaks of the calls. *)
Record Request := mkRequest { req_url : string; req_depth : Z }.

(** The attributes [__init__] fixes for the whole run. *)
Record Spider := mkSpider {
  start_urls : list string;
  filter_depth : Z;
  max_depth : option Z;
  max_pages : Z;
  path_filter : option string
}.

(** The attributes that change during a run. *)
Record State := mkState {
  pages_processed : Z;
  pages_filtered : Z;
  depth_exceeded : Z;
  estimated_total_pages : Z;
  current_page_url : string;
  urls_found : gset string;
  urls_scraped : gset string;
  duplicate_urls_skipped : Z;
  collected_data : list Item
}.

(** The per-page counters of the link loop. *)
Record LinkStats := mkLinkStats {
  links_followed : Z;
  links_filtered : Z;
  links_duplicate : Z;
  links_new_found : Z
}.

Module MaxrollSpider.

(** [l[:n]] for a Python integer [n] (a negative [n] counts from the end). *)
Definition slice_to {A} (n : Z) (l : list A) : list A :=
  if 0 <=? n then firstn (Z.to_nat n) l
  else firstn (length l - Z.to_nat (- n)) l.

(** [[part for part in parsed.path.split('/') if part]] *)
Definition path_parts (u : string) : list string :=
  List.filter Py.truthy (Py.split "/" (UrlLib.path (UrlLib.urlparse u))).

Definition _normalize_url (u : string) : string :=
  let parsed := UrlLib.urlparse u in
  UrlLib.urlunparse (UrlLib.scheme parsed) (UrlLib.netloc parsed)
    (UrlLib.path parsed) (UrlLib.params parsed) (UrlLib.query parsed)
    EmptyString.

Definition _get_path_filter (filter_depth : Z) (u : string) : option string :=
  let path_parts := path_parts u in
  if filter_depth =? 0 then None
  else if filter_depth =? 1 then
    match path_parts with
    | p :: _ => Some p
    | [] => None
    end
  else
    if filter_depth <=? Z.of_nat (length path_parts)
    then Some (Py.join "/" (slice_to filter_depth path_parts))
    else match path_parts with
         | _ :: _ => Some (Py.join "/" path_parts)
         | [] => None
         end.

Definition _matches_filter (sp : Spider) (u : string) : bool :=
  match path_filter sp with
  | Some pf =>
      if negb (Py.truthy pf) || (filter_depth sp =? 0) then true
      else
        let path_parts := path_parts u in
        if filter_depth sp =? 1 then
          match path_parts with
          | p :: _ => String.eqb p pf
          | [] => false
          end
        else
          if filter_depth sp <=? Z.of_nat (length path_parts) then
            let url_path :=
              Py.join "/" (slice_to (filter_depth sp) path_parts) in
            String.eqb url_path pf
          else
            let url_path := Py.join "/" path_parts in
            Py.startswith pf (url_path +:+ "/") || String.eqb url_path pf
  | None => true
  end.

Definition default_start_urls : list string :=
  ["https://maxroll.gg/d4/getting-started/first-steps-in-diablo-4"].

(** The configuration part of [__init__]; the arguments are the values
    after [int(...)], [None] standing for an argument that is [None]. *)
Definition init_spider (start_urls : option string)
  (filter_depth : option Z) (max_depth : option Z) (max_pages : option Z)
  : Spider :=
  let start_urls :=
    match start_urls with
    | Some s => if Py.truthy s then Py.split "," s else default_start_urls
    | None => default_start_urls
    end in
  let filter_depth := default 1 filter_depth in
  let max_pages := default 10000 max_pages in
  let path_filter :=
    match start_urls with
    | first :: _ =>
        if 0 <? filter_depth then _get_path_filter filter_depth first
        else None
    | [] => None
    end in
  mkSpider start_urls filter_depth max_depth max_pages path_filter.

(** The state [__init__] leaves: counters at zero, every start URL
    normalized and added to both sets. *)
Definition init_state (sp : Spider) : State :=
  let seeds := fold_left
    (fun (acc : gset string) start_url => acc ∪ {[_normalize_url start_url]})
    (start_urls sp) ∅ in
  mkState 0 0 0 0 EmptyString seeds seeds 0 [].

Definition skip_list : list string :=
  ["#"; "javascript:"; "mailto:"; ".pdf"; ".jpg"; ".png"; ".gif"; ".webp";
   ".svg"].

(** The test both link loops apply to a resolved URL:
    [full_url.startswith('https://maxroll.gg') and
     not any(skip in full_url for skip in [...])]. *)
Definition followable (full_url : string) : bool :=
  Py.startswith full_url "https://maxroll.gg"
  && negb (existsb (fun skip => Py.contains full_url skip) skip_list).

Section WithUrljoin.

(** [urllib.parse.urljoin], the library's resolution of a reference
    against a base URL. *)
Variable urljoin : string -> string -> string.

Definition count_link (sp : Spider) (base : string) (acc : Z * Z)
  (href : string) : Z * Z :=
  let '(potential_links, filtered_links) := acc in
  if Py.truthy href then
    let full_url := urljoin base href in
    if followable full_url then
      if _matches_filter sp full_url
      then (potential_links + 1, filtered_links)
      else (potential_links, filtered_links + 1)
    else acc
  else acc.

Definition _estimate_total_pages (sp : Spider) (r : Response) (st : State)
  : State :=
  if pages_processed st =? 1 then
    let '(potential_links, _) :=
      fold_left (count_link sp (resp_url r)) (hrefs r) (0, 0) in
    if 0 <? potential_links then
      let estimate := Z.max potential_links 5 in
      let estimate :=
        match max_depth sp with
        | Some d =>
            if 1 <? d then Z.min (estimate * d) 100
            else Z.min (estimate * 2) 50
        | None => Z.min (estimate * 2) 50
        end in
      mkState (pages_processed st) (pages_filtered st) (depth_exceeded st)
        estimate (current_page_url st) (urls_found st) (urls_scraped st)
        (duplicate_urls_skipped st) (collected_data st)
    else st
  else st.

(** The record lines 184-295 build. *)
Definition page_record (r : Response) : Item :=
  let title :=
    match css_title r with
    | Some t => if Py.truthy t then Some t else css_h1 r
    | None => css_h1 r
    end in
  mkItem (Some (resp_url r)) title (Some (extracted r)) (meta_tags r).

Definition _collect_data (content : Item) (st : State) : State :=
  mkState (pages_processed st) (pages_filtered st) (depth_exceeded st)
    (estimated_total_pages st) (current_page_url st) (urls_found st)
    (urls_scraped st) (duplicate_urls_skipped st)
    (collected_data st ++ [content]).

(** [response.meta.get('depth', 0)] *)
Definition current_depth (r : Response) : Z := default 0 (meta_depth r).

(** [self.max_depth is not None and current_depth > self.max_depth] *)
Definition depth_exceeds (sp : Spider) (r : Response) : bool :=
  match max_depth sp with
  | Some d => d <? current_depth r
  | None => false
  end.

(** Lines 155-297 of [parse]: the two hard stops, then the page URL and
    the page counter (lines 169 and 172), the estimate, the extraction and
    the record.  The page is counted before anything can raise; when lines
    175-295 raise, the call ends there, with the page counted and no record
    appended.  The boolean tells whether the link loop follows. *)
Definition parse_head (sp : Spider) (r : Response) (st : State)
  : State * bool :=
  if max_pages sp <=? pages_processed st then (st, false)
  else
    if depth_exceeds sp r then
      (mkState (pages_processed st) (pages_filtered st)
         (depth_exceeded st + 1) (estimated_total_pages st)
         (current_page_url st) (urls_found st) (urls_scraped st)
         (duplicate_urls_skipped st) (collected_data st), false)
    else
      let st :=
        mkState (pages_processed st + 1) (pages_filtered st)
          (depth_exceeded st) (estimated_total_pages st) (resp_url r)
          (urls_found st) (urls_scraped st) (duplicate_urls_skipped st)
          (collected_data st) in
      match raised r with
      | Some InEstimate => (st, false)
      | Some InExtraction => (_estimate_total_pages sp r st, false)
      | None =>
          let st := _estimate_total_pages sp r st in
          (_collect_data (page_record r) st, true)
      end.

(** One round of the link loop (lines 305-338) for the anchor [href] of
    the page [base] at depth [depth]: the state and the page counters
    afterwards, and the call of [response.follow] yielded, if any. *)
Definition follow_link (sp : Spider) (base : string) (depth : Z)
  (st : State) (ls : LinkStats) (href : string)
  : State * LinkStats * option Request :=
  if Py.truthy href then
    let full_url := urljoin base href in
    if followable full_url then
      let normalized_full_url := _normalize_url full_url in
      let '(found, new_found) :=
        if bool_decide (normalized_full_url ∈ urls_found st)
        then (urls_found st, links_new_found ls)
        else (urls_found st ∪ {[normalized_full_url]},
              links_new_found ls + 1) in
      if _matches_filter sp full_url then
        if bool_decide (normalized_full_url ∈ urls_scraped st) then
          (mkState (pages_processed st) (pages_filtered st)
             (depth_exceeded st) (estimated_total_pages st)
             (current_page_url st) found (urls_scraped st)
             (duplicate_urls_skipped st + 1) (collected_data st),
           mkLinkStats (links_followed ls) (links_filtered ls)
             (links_duplicate ls + 1) new_found,
           None)
        else
          (mkState (pages_processed st) (pages_filtered st)
             (depth_exceeded st) (estimated_total_pages st)
             (current_page_url st) found
             (urls_scraped st ∪ {[normalized_full_url]})
             (duplicate_urls_skipped st) (collected_data st),
           mkLinkStats (links_followed ls + 1) (links_filtered ls)
             (links_duplicate ls) new_found,
           Some (mkRequest full_url (depth + 1)))
      else
        (mkState (pages_processed st) (pages_filtered st + 1)
           (depth_exceeded st) (estimated_total_pages st)
           (current_page_url st) found (urls_scraped st)
           (duplicate_urls_skipped st) (collected_data st),
         mkLinkStats (links_followed ls) (links_filtered ls + 1)
           (links_duplicate ls) new_found,
         None)
    else (st, ls, None)
  else (st, ls, None).

(** The whole link loop, gathering the yielded calls in order. *)
Fixpoint follow_links (sp : Spider) (base : string) (depth : Z)
  (st : State) (ls : LinkStats) (hs : list string)
  : State * LinkStats * list Request :=
  match hs with
  | [] => (st, ls, [])
  | href :: hs' =>
      let '(st1, ls1, req) := follow_link sp base depth st ls href in
      let '(st2, ls2, reqs) := follow_links sp base depth st1 ls1 hs' in
      (st2, ls2, match req with Some q => q :: reqs | None => reqs end)
  end.

(** [parse(response)] run to exhaustion: the state afterwards and the
    calls of [response.follow] it yielded.  A call in which lines 175-295
    raise ends before the link loop. *)
Definition parse (sp : Spider) (r : Response) (st : State)
  : State * list Request :=
  match parse_head sp r st with
  | (st1, true) =>
      let '(st2, _, reqs) :=
        follow_links sp (resp_url r) (current_depth r) st1
          (mkLinkStats 0 0 0 0) (hrefs r) in
      (st2, reqs)
  | (st1, false) => (st1, [])
  end.

(** The engine hands responses to [parse] one after the other. *)
Fixpoint crawl (sp : Spider) (rs : list Response) (st : State)
  : State * list Request :=
  match rs with
  | [] => (st, [])
  | r :: rs' =>
      let '(st1, reqs1) := parse sp r st in
      let '(st2, reqs2) := crawl sp rs' st1 in
      (st2, reqs1 ++ reqs2)
  end.

(** A run seen link by link: [parse] is a generator, so the engine may
    interleave the link loops of several pages.  [run sp st reqs] holds
    when the state [st] is reached having yielded [reqs] (oldest
    first). *)
Inductive run (sp : Spider) : State -> list Request -> Prop :=
| run_init : run sp (init_state sp) []
| run_head r st reqs :
    run sp st reqs -> run sp (fst (parse_head sp r st)) reqs
| run_link base depth ls href st reqs :
    run sp st reqs ->
    run sp (fst (fst (follow_link sp base depth st ls href)))
      (reqs ++ match snd (follow_link sp base depth st ls href) with
               | Some q => [q]
               | None => []
               end).

End WithUrljoin.

(** [item.get('url', '')] *)
Definition item_url (item : Item) : string := default EmptyString (url item).

(** The first loop of [_write_sorted_deduplicated_output]:
    [(seen_urls, unique_data)] after one more item. *)
Definition keep_unseen (acc : gset string * list Item) (item : Item)
  : gset string * list Item :=
  let '(seen_urls, unique_data) := acc in
  let url := item_url item in
  if bool_decide (url ∈ seen_urls) then acc
  else (seen_urls ∪ {[url]}, unique_data ++ [item]).

Definition unique_data (collected : list Item) : list Item :=
  snd (fold_left keep_unseen collected (∅, [])).

(** [list.sort(key=...)] is stable: an item goes before the first item
    whose key is not smaller. *)
Fixpoint insert_by_url (item : Item) (sorted : list Item) : list Item :=
  match sorted with
  | [] => [item]
  | x :: sorted' =>
      if String.leb (item_url item) (item_url x) then item :: sorted
      else x :: insert_by_url item sorted'
  end.

Fixpoint sort_by_url (items : list Item) : list Item :=
  match items with
  | [] => []
  | item :: items' => insert_by_url item (sort_by_url items')
  end.

(** The records written to the output file, one per line, in order;
    [None] when nothing is written ("No data to write"). *)
Definition _write_sorted_deduplicated_output (st : State)
  : option (list Item) :=
  match collected_data st with
  | [] => None
  | _ => Some (sort_by_url (unique_data (collected_data st)))
  end.

(** [closed(reason)]: the only caller of the final write. *)
Definition closed (st : State) : option (list Item) :=
  _write_sorted_deduplicated_output st.

End MaxrollSpider.

(** ** [dedupe_simple.py] *)

Module DedupeSimple.

(** [f"{parsed.scheme}://{parsed.netloc}{parsed.path}"] *)
Definition normalize_url (u : string) : string :=
  let parsed := UrlLib.urlparse u in
  UrlLib.scheme parsed +:+ "://" +:+ UrlLib.netloc parsed
    +:+ UrlLib.path parsed.

(** One round of the loop of [deduplicate_by_url]; the state is
    [(seen_urls, deduplicated, duplicates_removed)]. *)
Definition keep_first (acc : gset string * list Item * Z) (item : Item)
  : gset string * list Item * Z :=
  let '(seen_urls, deduplicated, duplicates_removed) := acc in
  match url item with
  | Some u =>
      let normalized_url := normalize_url u in
      if bool_decide (normalized_url ∉ seen_urls)
      then (seen_urls ∪ {[normalized_url]}, deduplicated ++ [item],
            duplicates_removed)
      else (seen_urls, deduplicated, duplicates_removed + 1)
  | None => (seen_urls, deduplicated ++ [item], duplicates_removed)
  end.

(** The state once the loop over [data] is over. *)
Definition scan (data : list Item) : gset string * list Item * Z :=
  fold_left keep_first data (∅, [], 0).

(** [deduplicate_by_url(data, verbose=...)] with no output file.  The
    summary printed in verbose mode computes
    [duplicates_removed / len(data)], which raises [ZeroDivisionError] on
    an empty [data]: [None]. *)
Definition deduplicate_by_url (data : list Item) (verbose : bool)
  : option (list Item) :=
  let '(_, deduplicated, _) := scan data in
  if verbose && (length data =? 0)%nat then None else Some deduplicated.

End DedupeSimple.

(** ** [dedupe_compact.py] *)

Module DedupeCompact.

(** [f"{parsed.scheme}://{parsed.netloc}{parsed.path}"] *)
Definition normalize_url (u : string) : string :=
  let parsed := UrlLib.urlparse u in
  UrlLib.scheme parsed +:+ "://" +:+ UrlLib.netloc parsed
    +:+ UrlLib.path parsed.

(** The list comprehension over [parsed.path.split('/')] is the spider's,
    [MaxrollSpider.path_parts]. *)
Definition get_path_filter (input_url : string) : option string :=
  match MaxrollSpider.path_parts input_url with
  | p :: _ => Some p
  | [] => None
  end.

(** The truth value of [matches_filter(url, path_filter)] (the function
    returns the empty list for a URL without path segment). *)
Definition matches_filter (u : string) (path_filter : option string)
  : bool :=
  match path_filter with
  | Some pf =>
      if negb (Py.truthy pf) then true
      else
        match MaxrollSpider.path_parts u with
        | p :: _ => String.eqb p pf
        | [] => false
        end
  | None => true
  end.

(** One round of the loop of [deduplicate_by_url_compact]; the state is
    [(seen_urls, deduplicated, duplicates_removed, filtered_removed)]. *)
Definition keep_first (path_filter : option string)
  (acc : gset string * list Item * Z * Z) (item : Item)
  : gset string * list Item * Z * Z :=
  let '(seen_urls, deduplicated, duplicates_removed, filtered_removed) :=
    acc in
  match url item with
  | Some u =>
      if negb (matches_filter u path_filter)
      then (seen_urls, deduplicated, duplicates_removed,
            filtered_removed + 1)
      else
        let normalized_url := normalize_url u in
        if bool_decide (normalized_url ∉ seen_urls)
        then (seen_urls ∪ {[normalized_url]}, deduplicated ++ [item],
              duplicates_removed, filtered_removed)
        else (seen_urls, deduplicated, duplicates_removed + 1,
              filtered_removed)
  | None =>
      (seen_urls, deduplicated ++ [item], duplicates_removed,
       filtered_removed)
  end.

(** The state once the loop over [data] is over. *)
Definition scan (path_filter : option string) (data : list Item)
  : gset string * list Item * Z * Z :=
  fold_left (keep_first path_filter) data (∅, [], 0, 0).

(** [deduplicate_by_url_compact(data, input_url, verbose=...)] with no
    output file; the sort is the stable sort by [x.get('url', '')] of the
    spider's final write.  The summary printed in verbose mode divides by
    [len(data)] and raises [ZeroDivisionError] on an empty [data]:
    [None]. *)
Definition deduplicate_by_url_compact (data : list Item)
  (input_url : string) (verbose : bool) : option (list Item) :=
  let path_filter := get_path_filter input_url in
  let '(_, deduplicated, _, _) := scan path_filter data in
  let deduplicated := MaxrollSpider.sort_by_url deduplicated in
  if verbose && (length data =? 0)%nat then None else Some deduplicated.

End DedupeCompact.

(** ** Vocabulary for the properties *)

(** The key [deduplicate_data] files an item under: the normalized URL,
    for an item that has a URL. *)
Definition group_key (item : Item) : option string :=
  option_map Dedupe.normalize_url (url item).

Definition in_group (k : string) (item : Item) : bool :=
  match group_key item with
  | Some k' => String.eqb k' k
  | None => false
  end.

(** The content digest of a record. *)
Definition item_digest (item : Item) : string :=
  Dedupe.get_content_hash (Dedupe.item_content item).

(** A running filter over a set of keys already seen: an item whose key was
    seen is dropped, any other is kept and its key becomes seen.  Both
    merge loops ([seen_content_hashes] in [dedupe.py], [seen_urls] in the
    spider) have this shape. *)
Fixpoint first_by (key : Item -> string) (seen : gset string)
  (items : list Item) : list Item :=
  match items with
  | [] => []
  | item :: items' =>
      if bool_decide (key item ∈ seen) then first_by key seen items'
      else item :: first_by key (seen ∪ {[key item]}) items'
  end.

(** [groups] is the partition of [data] by key: the keys are pairwise
    different, the group of a key holds the items of [data] with that key,
    in the order of [data], and is not empty, and every key of [data] has
    its group. *)
Definition groups_of (groups : list (string * list Item))
  (data : list Item) : Prop :=
  NoDup (map fst groups)
  /\ (forall k items,
        (k, items) ∈ groups ->
        items <> [] /\ items = List.filter (in_group k) data)
  /\ (forall item k,
        item ∈ data -> group_key item = Some k -> k ∈ map fst groups).

(** The records the groups are reduced to, in group order. *)
Definition reduced (groups : list (string * list Item)) : list Item :=
  omap (fun g => Dedupe.best_item (snd g)) groups.

(** The order of the raw URLs, character by character. *)
Definition url_le (x y : Item) : Prop :=
  String.leb (MaxrollSpider.item_url x) (MaxrollSpider.item_url y) = true.

(** What [list.sort(key=url)] leaves: every record is below all the
    records after it. *)
Definition sorted_by_url (items : list Item) : Prop :=
  StronglySorted url_le items.

(** A URL written from its parts, [scheme://netloc/path?query#fragment],
    the query and the fragment left out when empty. *)
Definition url_of_parts (scheme netloc path query fragment : string)
  : string :=
  scheme +:+ "://" +:+ netloc +:+ path
    +:+ (if Py.truthy query then "?" +:+ query else EmptyString)
    +:+ (if Py.truthy fragment then "#" +:+ fragment else EmptyString).

(** Parts that [urlparse] reads back as they are: a lower-case scheme that
    starts with a letter; a non-empty ASCII network location without [/],
    [?], [#] or square brackets (so neither [ValueError] check of
    [urlsplit] can fire); a path that is empty or starts with [/] and holds
    no [?], [#] or [;]; a query without [#]; no tab, carriage return or
    line feed. *)
Definition wf_parts (scheme netloc path query : string) : bool :=
  match scheme with
  | String a _ => Py.is_lower a
  | EmptyString => false
  end
  && Py.all_chars
       (fun a => UrlLib.scheme_char a && negb (Py.is_upper a)) scheme
  && Py.truthy netloc
  && Py.all_chars
       (fun a => negb (UrlLib.netloc_delim a)
                 && negb (UrlLib.unsafe_url_byte a)
                 && negb (Ascii.eqb a "[") && negb (Ascii.eqb a "]")
                 && (Py.code a <? 128)%N) netloc
  && match path with
     | String a _ => Ascii.eqb a "/"
     | EmptyString => true
     end
  && Py.all_chars
       (fun a => negb (Ascii.eqb a "?") && negb (Ascii.eqb a "#")
                 && negb (Ascii.eqb a ";")
                 && negb (UrlLib.unsafe_url_byte a)) path
  && Py.all_chars
       (fun a => negb (Ascii.eqb a "#")
                 && negb (UrlLib.unsafe_url_byte a)) query.

(** Whether a record has a URL. *)
Definition has_url (item : Item) : bool :=
  match url item with
  | Some _ => true
  | None => false
  end.

(** The normalized URL of a record that has one. *)
Definition url_key (item : Item) : string :=
  Dedupe.normalize_url (MaxrollSpider.item_url item).

(** The first record of each group, in group order. *)
Definition group_heads (groups : list (string * list Item)) : list Item :=
  omap (fun g => head (snd g)) groups.

(** Whether the loop of [deduplicate_by_url_compact] lets a record through
    its filter; a record without URL is not tested. *)
Definition passes_filter (path_filter : option string) (item : Item)
  : bool :=
  match url item with
  | Some u => DedupeCompact.matches_filter u path_filter
  | None => true
  end.

(** * Properties *)

Arguments Md5.hexdigest : simpl never.
#[local] Arguments String.append !s1 s2 : simpl nomatch.

(** ** Strings *)

Lemma string_app_nil_r (s : string) : s +:+ "" = s.
Proof. induction s as [|a s IH]; simpl; [reflexivity | now rewrite IH]. Qed.

Lemma string_app_assoc (s t u : string) : (s +:+ t) +:+ u = s +:+ (t +:+ u).
Proof. induction s as [|a s IH]; simpl; [reflexivity | now rewrite IH]. Qed.

Lemma prefix_app (t b : string) : String.prefix t (t +:+ b) = true.
Proof.
  induction t as [|a t IH]; simpl.
  - now destruct b.
  - destruct (ascii_dec a a) as [_|Hne]; [exact IH | now elim Hne].
Qed.

Lemma prefix_inv (t s : string) :
  String.prefix t s = true -> exists b, s = t +:+ b.
Proof.
  revert s. induction t as [|a t IH]; intros s H.
  - now exists s.
  - destruct s as [|c s]; simpl in H; [discriminate|].
    destruct (ascii_dec a c) as [->|_]; [|discriminate].
    destruct (IH _ H) as [b ->]. now exists b.
Qed.

Lemma startswith_iff (s t : string) :
  Py.startswith s t = true <-> exists b, s = t +:+ b.
Proof.
  split; [apply prefix_inv | intros [b ->]; apply prefix_app].
Qed.

Lemma contains_cons (c : ascii) (s t : string) :
  Py.contains (String c s) t = String.prefix t (String c s) || Py.contains s t.
Proof. reflexivity. Qed.

(** [Py.contains s t] holds exactly when [t] occurs in [s]. *)
Lemma contains_iff (s t : string) :
  Py.contains s t = true <-> exists a b, s = a +:+ (t +:+ b).
Proof.
  induction s as [|c s IH].
  - simpl. rewrite String.eqb_eq. split.
    + intros ->. now exists ""%string, ""%string.
    + intros (a & b & H). destruct a; [|discriminate].
      destruct t; [reflexivity | discriminate].
  - rewrite contains_cons, orb_true_iff, IH. split.
    + intros [H|(a & b & ->)].
      * destruct (prefix_inv _ _ H) as [b Hb]. exists ""%string, b. exact Hb.
      * now exists (String c a), b.
    + intros (a & b & H). destruct a as [|c' a]; simpl in H.
      * left. rewrite H. apply prefix_app.
      * injection H as -> ->. right. now exists a, b.
Qed.

Lemma has_char_split (c : ascii) (s : string) :
  Py.has_char c s = true -> exists a b, s = a +:+ (String c "" +:+ b).
Proof.
  induction s as [|x s IH]; simpl; [discriminate|].
  destruct (Ascii.eqb_spec x c) as [->|_].
  - intros _. now exists ""%string, s.
  - intros H. destruct (IH H) as (a & b & ->). now exists (String x a), b.
Qed.

(** ** The frontier *)

Import MaxrollSpider.

Lemma followable_false_iff (full_url : string) :
  followable full_url = false <->
  Py.startswith full_url "https://maxroll.gg" = false
  \/ exists skip a b, In skip skip_list /\ full_url = a +:+ (skip +:+ b).
Proof.
  unfold followable. rewrite andb_false_iff, negb_false_iff, existsb_exists.
  split.
  - intros [H|(skip & Hin & Hc)]; [now left|right].
    apply contains_iff in Hc as (a & b & ->). now exists skip, a, b.
  - intros [H|(skip & a & b & Hin & ->)]; [now left|right].
    exists skip. split; [exact Hin|]. apply contains_iff. now exists a, b.
Qed.

(** C10.  An anchor whose resolved URL does not start with
    [https://maxroll.gg], or contains one of the nine skip-listed
    substrings anywhere (in particular a [#], so every URL carrying a
    fragment), leaves the spider untouched: the link loop changes neither
    the discovered set nor the scraped set nor any counter, yields no
    request, and the page estimate does not count the link.  The URL is
    dropped before [_normalize_url] is reached. *)
Theorem unfollowable_link_is_dropped
  (urljoin : string -> string -> string) (sp : Spider) (base : string)
  (depth : Z) (st : State) (ls : LinkStats) (href : string) (acc : Z * Z) :
  Py.startswith (urljoin base href) "https://maxroll.gg" = false
  \/ (exists skip a b,
        In skip skip_list /\ urljoin base href = a +:+ (skip +:+ b))
  \/ Py.has_char "#" (urljoin base href) = true ->
  follow_link urljoin sp base depth st ls href = (st, ls, None)
  /\ count_link urljoin sp base acc href = acc.
Proof.
  intros H.
  assert (Hf : followable (urljoin base href) = false).
  { apply followable_false_iff.
    destruct H as [H|[H|H]]; [now left | now right | right].
    apply has_char_split in H as (a & b & H).
    exists "#"%string, a, b. split; [now left | exact H]. }
  unfold follow_link, count_link. rewrite Hf.
  destruct acc as [p f]. now destruct (Py.truthy href).
Qed.

Lemma unfollowable_link_is_dropped_witness :
  let urljoin := fun (_ href : string) => href in
  let sp := init_spider None None None None in
  Py.has_char "#" "https://maxroll.gg/d4/getting-started#builds" = true
  /\ follow_link urljoin sp "https://maxroll.gg/d4" 0 (init_state sp)
       (mkLinkStats 0 0 0 0) "https://maxroll.gg/d4/getting-started#builds"
     = (init_state sp, mkLinkStats 0 0 0 0, None).
Proof.
  split; [reflexivity|].
  apply (unfollowable_link_is_dropped (fun _ href => href)
           (init_spider None None None None) "https://maxroll.gg/d4" 0
           (init_state (init_spider None None None None))
           (mkLinkStats 0 0 0 0)
           "https://maxroll.gg/d4/getting-started#builds" (0, 0)).
  right. right. reflexivity.
Defined.

(** What [follow_link] does with a link that passes the test of line 315,
    case by case. *)
Lemma follow_link_followable
  (urljoin : string -> string -> string) (sp : Spider) (base : string)
  (depth : Z) (st : State) (ls : LinkStats) (href : string) :
  Py.truthy href = true ->
  followable (urljoin base href) = true ->
  follow_link urljoin sp base depth st ls href =
    let full_url := urljoin base href in
    let n := _normalize_url full_url in
    let found :=
      if bool_decide (n ∈ urls_found st) then urls_found st
      else urls_found st ∪ {[n]} in
    let new_found :=
      if bool_decide (n ∈ urls_found st) then links_new_found ls
      else links_new_found ls + 1 in
    if _matches_filter sp full_url then
      if bool_decide (n ∈ urls_scraped st) then
        (mkState (pages_processed st) (pages_filtered st) (depth_exceeded st)
           (estimated_total_pages st) (current_page_url st) found
           (urls_scraped st) (duplicate_urls_skipped st + 1)
           (collected_data st),
         mkLinkStats (links_followed ls) (links_filtered ls)
           (links_duplicate ls + 1) new_found, None)
      else
        (mkState (pages_processed st) (pages_filtered st) (depth_exceeded st)
           (estimated_total_pages st) (current_page_url st) found
           (urls_scraped st ∪ {[n]}) (duplicate_urls_skipped st)
           (collected_data st),
         mkLinkStats (links_followed ls + 1) (links_filtered ls)
           (links_duplicate ls) new_found,
         Some (mkRequest full_url (depth + 1)))
    else
      (mkState (pages_processed st) (pages_filtered st + 1) (depth_exceeded st)
         (estimated_total_pages st) (current_page_url st) found
         (urls_scraped st) (duplicate_urls_skipped st) (collected_data st),
       mkLinkStats (links_followed ls) (links_filtered ls + 1)
         (links_duplicate ls) new_found, None).
Proof.
  intros Hh Hf. unfold follow_link. rewrite Hh, Hf. cbv zeta.
  now destruct (bool_decide _).
Qed.

(** C7, as the code has it.  The link loop hands a raw link to the
    frontier only when its [href] is not empty and its resolved URL passes
    the test of line 315 (it starts with [https://maxroll.gg] and holds
    none of the nine skip substrings).  Every other raw link is dropped
    before the first step: the state and the counters stay as they are, so
    it is not added to the discovered set, and nothing is yielded.  For a
    link that reaches the frontier, one round of the link loop does, in this
    order: normalize; make the normalized URL a member of the discovered
    set, counting it as newly found exactly when it was not one; then, if
    the link fails the scope filter, count it as filtered and stop with
    nothing yielded and an unchanged scraped set, whether or not the URL is
    in the scraped set; otherwise, if the normalized URL is in the scraped
    set, count a duplicate and stop; otherwise add it to the scraped set
    and yield the call of [response.follow] for depth + 1, the state at the
    yield already holding the URL as scraped. *)
Theorem frontier_step_order
  (urljoin : string -> string -> string) (sp : Spider) (base : string)
  (depth : Z) (st : State) (ls : LinkStats) (href : string) :
  forall st' ls' req,
  follow_link urljoin sp base depth st ls href = (st', ls', req) ->
  let full_url := urljoin base href in
  let n := _normalize_url full_url in
  (Py.truthy href = false \/ followable full_url = false ->
   st' = st /\ ls' = ls /\ req = None)
  /\ (Py.truthy href = true -> followable full_url = true ->
      (urls_found st' = urls_found st ∪ {[n]}
       /\ links_new_found ls' =
            links_new_found ls
            + (if bool_decide (n ∈ urls_found st) then 0 else 1))
      /\ (_matches_filter sp full_url = false ->
            pages_filtered st' = pages_filtered st + 1
            /\ links_filtered ls' = links_filtered ls + 1
            /\ duplicate_urls_skipped st' = duplicate_urls_skipped st
            /\ links_duplicate ls' = links_duplicate ls
            /\ links_followed ls' = links_followed ls
            /\ urls_scraped st' = urls_scraped st
            /\ req = None)
      /\ (_matches_filter sp full_url = true -> n ∈ urls_scraped st ->
            duplicate_urls_skipped st' = duplicate_urls_skipped st + 1
            /\ links_duplicate ls' = links_duplicate ls + 1
            /\ pages_filtered st' = pages_filtered st
            /\ links_filtered ls' = links_filtered ls
            /\ links_followed ls' = links_followed ls
            /\ urls_scraped st' = urls_scraped st
            /\ req = None)
      /\ (_matches_filter sp full_url = true -> n ∉ urls_scraped st ->
            urls_scraped st' = urls_scraped st ∪ {[n]}
            /\ n ∈ urls_scraped st'
            /\ req = Some (mkRequest full_url (depth + 1))
            /\ links_followed ls' = links_followed ls + 1
            /\ duplicate_urls_skipped st' = duplicate_urls_skipped st
            /\ links_duplicate ls' = links_duplicate ls
            /\ pages_filtered st' = pages_filtered st
            /\ links_filtered ls' = links_filtered ls)).
Proof.
  intros st' ls' req Hstep full_url n. split.
  - intros H. unfold follow_link in Hstep. fold full_url in Hstep.
    destruct (Py.truthy href);
      [destruct H as [H|H]; [discriminate H|]; rewrite H in Hstep|];
      injection Hstep as <- <- <-; now repeat split.
  - intros Hh Hf.
    rewrite (follow_link_followable _ _ _ _ _ _ _ Hh Hf) in Hstep.
    cbv zeta in Hstep. fold full_url in Hstep. fold n in Hstep.
    destruct (_matches_filter sp full_url) eqn:Hm;
      destruct (bool_decide (n ∈ urls_found st)) eqn:Hfd;
      try destruct (bool_decide (n ∈ urls_scraped st)) eqn:Hsc;
      injection Hstep as Hst Hls Hreq; subst st' ls' req; simpl;
      try apply bool_decide_eq_true in Hfd;
      try apply bool_decide_eq_false in Hfd;
      try apply bool_decide_eq_true in Hsc;
      try apply bool_decide_eq_false in Hsc;
      (split; [split; [apply leibniz_equiv; set_solver | lia] |]);
      repeat split; try reflexivity; try discriminate; try tauto;
      intros; try lia; set_solver.
Qed.

(** A raw link the frontier never sees.  The anchor points below the
    seed's section, to a page not yet discovered, at an anchor inside the
    page: its URL carries a [#], so it fails the test of line 315.  The
    link is in scope and its normalized URL is new, yet the round leaves
    the discovered set and every counter as they were and yields nothing:
    nothing is newly found and nothing is fetched. *)
Lemma fragment_link_skips_frontier :
  let urljoin := fun (_ href : string) => href in
  let sp := init_spider None None None None in
  let href := "https://maxroll.gg/d4/build-guides/barbarian#skills" in
  let n := "https://maxroll.gg/d4/build-guides/barbarian" in
  let out := follow_link urljoin sp
               "https://maxroll.gg/d4/getting-started/first-steps-in-diablo-4"
               0 (init_state sp) (mkLinkStats 0 0 0 0) href in
  Py.truthy href = true
  /\ _matches_filter sp href = true
  /\ _normalize_url href = n
  /\ bool_decide (n ∈ urls_found (init_state sp)) = false
  /\ bool_decide (n ∈ urls_scraped (init_state sp)) = false
  /\ out = (init_state sp, mkLinkStats 0 0 0 0, None)
  /\ bool_decide (n ∈ urls_found (fst (fst out))) = false
  /\ links_new_found (snd (fst out)) = 0.
Proof.
  cbv zeta. split; [reflexivity|]. split; [vm_compute; reflexivity|].
  split; [vm_compute; reflexivity|]. split; [vm_compute; reflexivity|].
  split; [vm_compute; reflexivity|]. split; [reflexivity|].
  split; vm_compute; reflexivity.
Qed.

Lemma frontier_step_order_witness :
  let urljoin := fun (_ href : string) => href in
  let sp := init_spider None None None None in
  let full_url := "https://maxroll.gg/d4/build-guides" in
  Py.truthy full_url = true
  /\ followable full_url = true
  /\ urls_found
       (fst (fst (follow_link urljoin sp "https://maxroll.gg/d4" 0
                    (init_state sp) (mkLinkStats 0 0 0 0) full_url)))
     = urls_found (init_state sp) ∪ {[_normalize_url full_url]}.
Proof.
  split; [reflexivity|]. split; [reflexivity|].
  destruct (follow_link (fun _ href => href)
              (init_spider None None None None) "https://maxroll.gg/d4" 0
              (init_state (init_spider None None None None))
              (mkLinkStats 0 0 0 0) "https://maxroll.gg/d4/build-guides")
    as [[st' ls'] req] eqn:E.
  exact (proj1 (proj1 (proj2 (frontier_step_order (fun _ href => href)
                         (init_spider None None None None)
                         "https://maxroll.gg/d4" 0
                         (init_state (init_spider None None None None))
                         (mkLinkStats 0 0 0 0)
                         "https://maxroll.gg/d4/build-guides"
                         st' ls' req E) eq_refl eq_refl))).
Defined.

(** The normalized start URLs, as [__init__] puts them in both sets. *)
Lemma elem_of_seed_fold (x : string) (l : list string) (acc : gset string) :
  x ∈ fold_left
        (fun (acc : gset string) start_url =>
           acc ∪ {[_normalize_url start_url]}) l acc
  <-> x ∈ acc \/ exists s, s ∈ l /\ x = _normalize_url s.
Proof.
  revert acc. induction l as [|s l IH]; intros acc; simpl.
  - split; [now left | intros [H|(s & Hs & _)]; [exact H|]].
    now apply elem_of_nil in Hs.
  - rewrite IH, elem_of_union, elem_of_singleton. split.
    + intros [[H|H]|(s' & Hs' & H)].
      * now left.
      * right. exists s. split; [apply list_elem_of_here | exact H].
      * right. exists s'. split; [now apply list_elem_of_further | exact H].
    + intros [H|(s' & Hs' & H)]; [now left; left|].
      apply elem_of_cons in Hs' as [->|Hs']; [now left; right|].
      right. now exists s'.
Qed.

Lemma init_state_seeds (sp : Spider) (x : string) :
  x ∈ urls_scraped (init_state sp)
  <-> exists s, s ∈ start_urls sp /\ x = _normalize_url s.
Proof.
  unfold init_state. simpl. rewrite elem_of_seed_fold. split.
  - intros [H|H]; [now apply not_elem_of_empty in H | exact H].
  - intros H. now right.
Qed.

Lemma estimate_keeps_sets urljoin sp r st :
  urls_found (_estimate_total_pages urljoin sp r st) = urls_found st
  /\ urls_scraped (_estimate_total_pages urljoin sp r st) = urls_scraped st
  /\ pages_processed (_estimate_total_pages urljoin sp r st)
     = pages_processed st
  /\ collected_data (_estimate_total_pages urljoin sp r st)
     = collected_data st
  /\ depth_exceeded (_estimate_total_pages urljoin sp r st)
     = depth_exceeded st.
Proof.
  unfold _estimate_total_pages.
  destruct (pages_processed st =? 1); [|easy].
  destruct (fold_left _ _ _) as [p f].
  destruct (0 <? p); easy.
Qed.

Lemma parse_head_sets urljoin sp r st :
  urls_found (fst (parse_head urljoin sp r st)) = urls_found st
  /\ urls_scraped (fst (parse_head urljoin sp r st)) = urls_scraped st.
Proof.
  unfold parse_head.
  destruct (max_pages sp <=? pages_processed st); [easy|].
  destruct (depth_exceeds sp r); [easy|].
  destruct (estimate_keeps_sets urljoin sp r
    (mkState (pages_processed st + 1) (pages_filtered st) (depth_exceeded st)
       (estimated_total_pages st) (resp_url r) (urls_found st)
       (urls_scraped st) (duplicate_urls_skipped st) (collected_data st)))
    as (Hf & Hs & _).
  destruct (raised r) as [[|]|]; simpl; [easy | now split | now split].
Qed.

(** The effect of one round of the link loop on the two sets and on the
    requests: either nothing, or the normalized URL joins the discovered
    set and, when a request is yielded, joins the scraped set having been
    outside it. *)
Lemma follow_link_sets urljoin sp base depth st ls href :
  let out := follow_link urljoin sp base depth st ls href in
  let st' := fst (fst out) in
  (urls_found st' = urls_found st /\ urls_scraped st' = urls_scraped st
   /\ snd out = None)
  \/ (exists n, urls_found st' = urls_found st ∪ {[n]}
      /\ ((urls_scraped st' = urls_scraped st /\ snd out = None)
          \/ (exists q, snd out = Some q /\ _normalize_url (req_url q) = n
              /\ (n ∉ urls_scraped st)
              /\ urls_scraped st' = urls_scraped st ∪ {[n]}))).
Proof.
  cbv zeta.
  destruct (Py.truthy href) eqn:Hh;
    [|left; unfold follow_link; now rewrite Hh].
  destruct (followable (urljoin base href)) eqn:Hf;
    [|left; unfold follow_link; now rewrite Hh, Hf].
  rewrite (follow_link_followable _ _ _ _ _ _ _ Hh Hf). cbv zeta.
  right. exists (_normalize_url (urljoin base href)).
  set (n := _normalize_url (urljoin base href)).
  assert (Hfound :
    (if bool_decide (n ∈ urls_found st) then urls_found st
     else urls_found st ∪ {[n]}) = urls_found st ∪ {[n]}).
  { destruct (bool_decide (n ∈ urls_found st)) eqn:Hfd; [|reflexivity].
    apply bool_decide_eq_true in Hfd. apply leibniz_equiv. set_solver. }
  destruct (_matches_filter sp (urljoin base href)).
  - destruct (bool_decide (n ∈ urls_scraped st)) eqn:Hsc; simpl.
    + split; [exact Hfound | now left].
    + apply bool_decide_eq_false in Hsc. split; [exact Hfound | right].
      exists (mkRequest (urljoin base href) (depth + 1)). now repeat split.
  - simpl. split; [exact Hfound | now left].
Qed.

(** The invariant of a run: what the scraped set is made of. *)
Lemma run_invariant urljoin sp st reqs :
  run urljoin sp st reqs ->
  urls_scraped st ⊆ urls_found st
  /\ urls_scraped st
     = urls_scraped (init_state sp)
       ∪ list_to_set (map (fun q => _normalize_url (req_url q)) reqs)
  /\ NoDup (map (fun q => _normalize_url (req_url q)) reqs)
  /\ (forall q, q ∈ reqs ->
        _normalize_url (req_url q) ∉ urls_scraped (init_state sp)).
Proof.
  induction 1 as [|r st reqs Hrun IH|base depth ls href st reqs Hrun IH].
  - repeat split.
    + reflexivity.
    + simpl. apply leibniz_equiv. set_solver.
    + constructor.
    + intros q Hq. now apply elem_of_nil in Hq.
  - destruct (parse_head_sets urljoin sp r st) as [-> ->]. exact IH.
  - destruct IH as (Hsub & Heq & Hnd & Hseed).
    destruct (follow_link_sets urljoin sp base depth st ls href)
      as [(-> & -> & ->)|(n & -> & [(-> & ->)|(q & -> & Hq & Hn & ->)])].
    + rewrite app_nil_r. now repeat split.
    + rewrite app_nil_r. repeat split; try assumption. set_solver.
    + rewrite map_app. simpl. rewrite Hq. repeat split.
      * set_solver.
      * rewrite Heq, list_to_set_app_L. simpl.
        apply leibniz_equiv. set_solver.
      * apply NoDup_app. repeat split; [exact Hnd | | apply NoDup_singleton].
        intros x Hx Hx'. apply list_elem_of_singleton in Hx'. subst x.
        apply Hn. rewrite Heq. apply elem_of_union_r.
        now apply elem_of_list_to_set.
      * intros q' Hq'. apply elem_of_app in Hq' as [Hq'|Hq'].
        -- now apply Hseed.
        -- apply list_elem_of_singleton in Hq'. subst q'. rewrite Hq.
           intros Hs. apply Hn. rewrite Heq. now apply elem_of_union_l.
Qed.

(** C5.  In every state a run reaches, whatever responses arrive and
    however the link loops interleave: the scraped set is a subset of the
    discovered set, so it has no more elements; every start URL is in both
    sets from the start; and a normalized URL enters the scraped set at
    most once: the requests yielded so far have pairwise different
    normalized URLs, none of them a start URL, and the scraped set is
    exactly the start URLs together with them, one new element per
    request. *)
Theorem scraped_within_discovered
  (urljoin : string -> string -> string) (sp : Spider) (st : State)
  (reqs : list Request) :
  run urljoin sp st reqs ->
  let enqueued := map (fun q => _normalize_url (req_url q)) reqs in
  urls_scraped st ⊆ urls_found st
  /\ (size (urls_scraped st) <= size (urls_found st))%nat
  /\ (forall s, s ∈ start_urls sp ->
        _normalize_url s ∈ urls_scraped st
        /\ _normalize_url s ∈ urls_found st
        /\ _normalize_url s ∉ enqueued)
  /\ NoDup enqueued
  /\ urls_scraped st = urls_scraped (init_state sp) ∪ list_to_set enqueued
  /\ size (urls_scraped st)
     = (size (urls_scraped (init_state sp)) + length reqs)%nat.
Proof.
  intros Hrun enqueued.
  destruct (run_invariant urljoin sp st reqs Hrun)
    as (Hsub & Heq & Hnd & Hseed).
  fold enqueued in Heq, Hnd.
  assert (Hstart : forall s, s ∈ start_urls sp ->
            _normalize_url s ∈ urls_scraped (init_state sp)).
  { intros s Hs. apply init_state_seeds. now exists s. }
  split; [exact Hsub|]. split; [now apply subseteq_size|].
  split; [|split; [exact Hnd|split; [exact Heq|]]].
  - intros s Hs. specialize (Hstart s Hs). repeat split.
    + rewrite Heq. now apply elem_of_union_l.
    + apply Hsub. rewrite Heq. now apply elem_of_union_l.
    + intros Hin. unfold enqueued in Hin.
      apply list_elem_of_fmap in Hin as (q & Hq & Hqin).
      apply (Hseed q Hqin). now rewrite <- Hq.
  - rewrite Heq, size_union.
    + rewrite size_list_to_set by exact Hnd.
      unfold enqueued. now rewrite length_map.
    + intros x Hx Hx'. apply elem_of_list_to_set in Hx'.
      unfold enqueued in Hx'.
      apply list_elem_of_fmap in Hx' as (q & -> & Hqin).
      now apply (Hseed q Hqin).
Qed.

Lemma scraped_within_discovered_witness :
  let urljoin := fun (_ href : string) => href in
  let sp := init_spider None None None None in
  let out := follow_link urljoin sp "https://maxroll.gg/d4" 0 (init_state sp)
               (mkLinkStats 0 0 0 0) "https://maxroll.gg/d4/build-guides" in
  run urljoin sp (fst (fst out))
    ([] ++ match snd out with Some q => [q] | None => [] end)
  /\ urls_scraped (fst (fst out)) ⊆ urls_found (fst (fst out)).
Proof.
  split.
  - apply run_link, run_init.
  - exact (proj1 (scraped_within_discovered (fun _ href => href)
                    (init_spider None None None None) _ _
                    (run_link _ _ "https://maxroll.gg/d4" 0
                       (mkLinkStats 0 0 0 0)
                       "https://maxroll.gg/d4/build-guides" _ _
                       (run_init _ _)))).
Defined.

(** ** The two hard stops of [parse] *)

Lemma follow_link_keeps_pages urljoin sp base depth st ls href :
  let st' := fst (fst (follow_link urljoin sp base depth st ls href)) in
  pages_processed st' = pages_processed st
  /\ collected_data st' = collected_data st
  /\ depth_exceeded st' = depth_exceeded st.
Proof.
  cbv zeta. unfold follow_link.
  destruct (Py.truthy href); [|easy].
  destruct (followable (urljoin base href)); [|easy].
  destruct (bool_decide _); destruct (_matches_filter _ _);
    try destruct (bool_decide _); easy.
Qed.

Lemma follow_links_keeps_pages urljoin sp base depth hs :
  forall st ls,
  let st' := fst (fst (follow_links urljoin sp base depth st ls hs)) in
  pages_processed st' = pages_processed st
  /\ collected_data st' = collected_data st
  /\ depth_exceeded st' = depth_exceeded st.
Proof.
  induction hs as [|href hs IH]; intros st ls; [easy|].
  cbv zeta. simpl.
  pose proof (follow_link_keeps_pages urljoin sp base depth st ls href) as H1.
  destruct (follow_link urljoin sp base depth st ls href) as [[st1 ls1] req].
  specialize (IH st1 ls1).
  destruct (follow_links urljoin sp base depth st1 ls1 hs) as [[st2 ls2] reqs].
  simpl in *. destruct H1 as (<- & <- & <-). exact IH.
Qed.

(** What a whole [parse] does to the page counter, the collection and the
    depth counter. *)
Lemma parse_pages urljoin sp r st :
  let st' := fst (parse urljoin sp r st) in
  if max_pages sp <=? pages_processed st then
    parse urljoin sp r st = (st, [])
  else if depth_exceeds sp r then
    parse urljoin sp r st =
      (mkState (pages_processed st) (pages_filtered st) (depth_exceeded st + 1)
         (estimated_total_pages st) (current_page_url st) (urls_found st)
         (urls_scraped st) (duplicate_urls_skipped st) (collected_data st), [])
  else
    pages_processed st' = pages_processed st + 1
    /\ collected_data st'
       = collected_data st ++ (if extracts r then [page_record r] else [])
    /\ depth_exceeded st' = depth_exceeded st
    /\ (extracts r = false -> snd (parse urljoin sp r st) = []).
Proof.
  cbv zeta. unfold parse, parse_head, extracts.
  destruct (max_pages sp <=? pages_processed st); [reflexivity|].
  destruct (depth_exceeds sp r); [reflexivity|].
  match goal with
  | |- context [_estimate_total_pages ?u ?s ?r0 ?st0] =>
      destruct (estimate_keeps_sets u s r0 st0) as (_ & _ & Hp & Hc & Hd)
  end.
  destruct (raised r) as [[|]|].
  - simpl. now rewrite app_nil_r.
  - simpl. rewrite Hp, Hc, Hd. simpl. now rewrite app_nil_r.
  - match goal with
    | |- context [follow_links ?u ?s ?b ?d ?st0 ?ls0 ?hs] =>
        pose proof (follow_links_keeps_pages u s b d hs st0 ls0) as H;
        destruct (follow_links u s b d st0 ls0 hs) as [[st2 ls2] reqs]
    end.
    simpl in *. destruct H as (-> & -> & ->).
    rewrite Hp, Hc, Hd. simpl. repeat split. discriminate.
Qed.

(** Over a run of [parse] on the responses [rs]: the pages counted are the
    first responses within depth, as many as the cap leaves room for; the
    records collected are those of the counted pages on which nothing
    raised. *)
Lemma crawl_collects urljoin sp rs :
  forall st,
  let st' := fst (crawl urljoin sp rs st) in
  let room := Z.to_nat (max_pages sp - pages_processed st) in
  let counted :=
    firstn room (List.filter (fun r => negb (depth_exceeds sp r)) rs) in
  collected_data st'
  = collected_data st ++ map page_record (List.filter extracts counted)
  /\ pages_processed st' = pages_processed st + Z.of_nat (length counted).
Proof.
  induction rs as [|r rs IH]; intros st; cbv zeta.
  - simpl. rewrite firstn_nil. simpl. rewrite app_nil_r.
    split; [reflexivity | lia].
  - simpl. pose proof (parse_pages urljoin sp r st) as Hp. cbv zeta in Hp.
    destruct (parse urljoin sp r st) as [st1 reqs1] eqn:E.
    specialize (IH st1). cbv zeta in IH.
    destruct (crawl urljoin sp rs st1) as [st2 reqs2]. simpl in *.
    destruct (max_pages sp <=? pages_processed st) eqn:Hcap.
    + injection Hp as Hst Hrq. subst st1 reqs1. apply Z.leb_le in Hcap.
      replace (Z.to_nat (max_pages sp - pages_processed st)) with O in * by lia.
      rewrite firstn_O in *. exact IH.
    + apply Z.leb_gt in Hcap. destruct (depth_exceeds sp r) eqn:Hd.
      * injection Hp as Hst Hrq. subst st1 reqs1. simpl in *. exact IH.
      * destruct Hp as (Hpp & Hcd & _). simpl. rewrite Hpp, Hcd in IH.
        replace (Z.to_nat (max_pages sp - pages_processed st))
          with (S (Z.to_nat (max_pages sp - (pages_processed st + 1)))) by lia.
        cbn [firstn List.filter length]. destruct IH as [-> ->].
        rewrite <- app_assoc.
        destruct (extracts r); simpl; split; try reflexivity; lia.
Qed.

Lemma filter_forallb {A} (P : A -> bool) (l : list A) :
  forallb P l = true -> List.filter P l = l.
Proof.
  induction l as [|a l IH]; simpl; [reflexivity|].
  intros H. apply andb_true_iff in H as [Ha Hl]. rewrite Ha. f_equal.
  now apply IH.
Qed.

(** C6, as the code has it.  [parse] enforces two hard stops before it
    extracts anything or looks at a link.  First: when [pages_processed]
    has reached [max_pages], the call changes nothing and yields nothing.
    Second: when the cap is not reached and the page's depth exceeds
    [max_depth], the call adds one to [depth_exceeded], changes nothing
    else and yields nothing, so the page is not extracted and its links are
    not visited.  A page that passes both stops is counted at once, before
    its extraction: it adds one to [pages_processed] whether or not the
    extraction then raises, and it adds its record, and has its links
    looked at, only when nothing raises.  Over a whole run from the initial
    state the pages counted are therefore the first [max_pages] responses
    within depth, and the collection holds the records of those among them
    on which nothing raised: at most [max_pages] records, and with
    [max_pages = 3] exactly 3 when at least three responses within depth
    arrive and nothing raises on the first three. *)
Theorem parse_hard_stops
  (urljoin : string -> string -> string) (sp : Spider) :
  (forall r st,
     max_pages sp <= pages_processed st ->
     parse urljoin sp r st = (st, []))
  /\ (forall r st d,
        pages_processed st < max_pages sp ->
        max_depth sp = Some d -> d < current_depth r ->
        parse urljoin sp r st =
          (mkState (pages_processed st) (pages_filtered st)
             (depth_exceeded st + 1) (estimated_total_pages st)
             (current_page_url st) (urls_found st) (urls_scraped st)
             (duplicate_urls_skipped st) (collected_data st), []))
  /\ (forall r st,
        pages_processed st < max_pages sp ->
        depth_exceeds sp r = false ->
        pages_processed (fst (parse urljoin sp r st)) = pages_processed st + 1
        /\ collected_data (fst (parse urljoin sp r st))
           = collected_data st
             ++ (if extracts r then [page_record r] else [])
        /\ (extracts r = false -> snd (parse urljoin sp r st) = []))
  /\ (forall rs,
        let counted :=
          firstn (Z.to_nat (max_pages sp))
            (List.filter (fun r => negb (depth_exceeds sp r)) rs) in
        let st' := fst (crawl urljoin sp rs (init_state sp)) in
        pages_processed st' = Z.of_nat (length counted)
        /\ collected_data st'
           = map page_record (List.filter extracts counted)
        /\ (length (collected_data st') <= Z.to_nat (max_pages sp))%nat)
  /\ (forall rs,
        max_pages sp = 3 ->
        (3 <= length (List.filter (fun r => negb (depth_exceeds sp r)) rs))%nat ->
        forallb extracts
          (firstn 3 (List.filter (fun r => negb (depth_exceeds sp r)) rs))
        = true ->
        length (collected_data (fst (crawl urljoin sp rs (init_state sp))))
        = 3%nat).
Proof.
  assert (Hall : forall rs,
    pages_processed (fst (crawl urljoin sp rs (init_state sp)))
    = Z.of_nat (length (firstn (Z.to_nat (max_pages sp))
        (List.filter (fun r => negb (depth_exceeds sp r)) rs)))
    /\ collected_data (fst (crawl urljoin sp rs (init_state sp)))
       = map page_record (List.filter extracts
           (firstn (Z.to_nat (max_pages sp))
              (List.filter (fun r => negb (depth_exceeds sp r)) rs)))).
  { intros rs.
    destruct (crawl_collects urljoin sp rs (init_state sp)) as [Hc Hp].
    cbn [init_state pages_processed collected_data] in Hc, Hp.
    rewrite Z.sub_0_r in Hc, Hp. rewrite Hc, Hp. now split. }
  split; [|split; [|split; [|split]]].
  - intros r st Hcap. pose proof (parse_pages urljoin sp r st) as Hp.
    cbv zeta in Hp. apply Z.leb_le in Hcap. now rewrite Hcap in Hp.
  - intros r st d Hcap Hmax Hd.
    pose proof (parse_pages urljoin sp r st) as Hp. cbv zeta in Hp.
    apply Z.leb_gt in Hcap. rewrite Hcap in Hp.
    unfold depth_exceeds in Hp. rewrite Hmax in Hp.
    apply Z.ltb_lt in Hd. now rewrite Hd in Hp.
  - intros r st Hcap Hd.
    pose proof (parse_pages urljoin sp r st) as Hp. cbv zeta in Hp.
    apply Z.leb_gt in Hcap. rewrite Hcap, Hd in Hp.
    destruct Hp as (Hp & Hc & _ & Hr). now split.
  - intros rs. cbv zeta. destruct (Hall rs) as [Hp Hc].
    split; [exact Hp|]. split; [exact Hc|].
    rewrite Hc, length_map.
    etransitivity; [apply List.filter_length_le|].
    rewrite length_firstn. apply Nat.le_min_l.
  - intros rs Hmax Hlen Hex. destruct (Hall rs) as [_ Hc].
    rewrite Hc, Hmax. change (Z.to_nat 3) with 3%nat.
    rewrite (filter_forallb _ _ Hex), length_map, length_firstn.
    apply Nat.min_l. exact Hlen.
Qed.

(** A page counted and never extracted.  The cap is 3.  The start page
    links to [.../banner.jpeg], which passes the test of line 315, and to
    two pages; all three are followed and their responses arrive.  The
    body of the first is an image, not text, so [response.css] raises at
    line 185, after line 172 has counted the page.  Three pages are
    counted, the fourth response meets the cap, and two pages are
    extracted, not three. *)
Lemma counted_page_never_extracted :
  let urljoin := fun (_ href : string) => href in
  let sp := init_spider (Some "https://maxroll.gg/d4/start") (Some 1)
              None (Some 3) in
  let page u d hs := mkResponse u d (Some "t") None empty_content [] hs in
  let start :=
    page "https://maxroll.gg/d4/start" None
      ["https://maxroll.gg/d4/banner.jpeg"; "https://maxroll.gg/d4/a";
       "https://maxroll.gg/d4/b"] in
  let image :=
    mkRawResponse "https://maxroll.gg/d4/banner.jpeg" (Some 1) None None
      empty_content [] [] (Some InExtraction) in
  let rs := [start; image;
             page "https://maxroll.gg/d4/a" (Some 1) [];
             page "https://maxroll.gg/d4/b" (Some 1) []] in
  let st' := fst (crawl urljoin sp rs (init_state sp)) in
  max_pages sp = 3
  /\ map req_url (snd (parse urljoin sp start (init_state sp)))
     = ["https://maxroll.gg/d4/banner.jpeg"; "https://maxroll.gg/d4/a";
        "https://maxroll.gg/d4/b"]
  /\ List.filter (fun r => negb (depth_exceeds sp r)) rs = rs
  /\ pages_processed st' = 3
  /\ collected_data st'
     = [page_record start;
        page_record (page "https://maxroll.gg/d4/a" (Some 1) [])]
  /\ length (collected_data st') = 2%nat.
Proof.
  cbv zeta. split; [reflexivity|]. split; [vm_compute; reflexivity|].
  split; [reflexivity|]. split; [vm_compute; reflexivity|].
  split; vm_compute; reflexivity.
Qed.

Lemma parse_hard_stops_witness :
  let urljoin := fun (_ href : string) => href in
  let sp := init_spider (Some "https://maxroll.gg/d4/start") (Some 1)
              (Some 1) (Some 3) in
  let page u d := mkResponse u (Some d) (Some "t") None empty_content [] [] in
  let rs := [page "https://maxroll.gg/d4/start" 0;
             page "https://maxroll.gg/d4/a" 1;
             page "https://maxroll.gg/d4/a/deep" 2;
             page "https://maxroll.gg/d4/b" 1;
             page "https://maxroll.gg/d4/c" 1] in
  (max_pages sp = 3
   /\ (3 <= length (List.filter (fun r => negb (depth_exceeds sp r)) rs))%nat
   /\ forallb extracts
        (firstn 3 (List.filter (fun r => negb (depth_exceeds sp r)) rs))
      = true
   /\ length (collected_data (fst (crawl urljoin sp rs (init_state sp))))
      = 3%nat)
  /\ (pages_processed (init_state sp) < max_pages sp
      /\ max_depth sp = Some 1
      /\ 1 < current_depth (page "https://maxroll.gg/d4/a/deep" 2)
      /\ collected_data
           (fst (parse urljoin sp (page "https://maxroll.gg/d4/a/deep" 2)
                   (init_state sp))) = []).
Proof.
  cbv zeta. split.
  - split; [reflexivity|]. split; [vm_compute; lia|].
    split; [reflexivity|].
    apply (proj2 (proj2 (proj2 (proj2 (parse_hard_stops (fun _ href => href)
             (init_spider (Some "https://maxroll.gg/d4/start") (Some 1)
                (Some 1) (Some 3))))))).
    + reflexivity.
    + vm_compute. lia.
    + reflexivity.
  - split; [reflexivity|]. split; [reflexivity|]. split; [reflexivity|].
    rewrite (proj1 (proj2 (parse_hard_stops (fun _ href => href)
               (init_spider (Some "https://maxroll.gg/d4/start") (Some 1)
                  (Some 1) (Some 3))))
               (mkResponse "https://maxroll.gg/d4/a/deep" (Some 2) (Some "t")
                  None empty_content [] [])
               (init_state
                  (init_spider (Some "https://maxroll.gg/d4/start") (Some 1)
                     (Some 1) (Some 3)))
               1 eq_refl eq_refl eq_refl).
    reflexivity.
Defined.

(** ** Content digest and richness score *)

Import Dedupe.

(** The digest reads the headings, the first 100 characters of each
    paragraph and a title stored inside the [content] object, nothing
    else: two [content] objects that agree on these have the same text to
    hash, hence the same digest. *)
Lemma digest_determined_by_fields (c1 c2 : Content) :
  headings c1 = headings c2 ->
  option_map (map (Py.take 100)) (paragraphs c1)
  = option_map (map (Py.take 100)) (paragraphs c2) ->
  content_title c1 = content_title c2 ->
  get_content_hash c1 = get_content_hash c2.
Proof.
  intros Hh Hp Ht. unfold get_content_hash. f_equal.
  unfold content_str. rewrite Hh, Ht.
  assert (Hfold : forall (ps : list string) (acc : string),
            fold_left (fun acc para => acc +:+ (Py.take 100 para +:+ newline))
              ps acc
            = fold_left (fun acc p => acc +:+ (p +:+ newline))
                (map (Py.take 100) ps) acc).
  { induction ps as [|p ps IH]; intros acc; simpl;
      [reflexivity | apply IH]. }
  destruct (paragraphs c1) as [ps1|], (paragraphs c2) as [ps2|];
    cbn [option_map] in Hp; try discriminate; [|reflexivity].
  apply (inj Some) in Hp. now rewrite !Hfold, Hp.
Qed.

Lemma digest_determined_by_fields_witness :
  let c1 := mkContent (Some [mkHeading 2 "Skills"]) (Some ["Short text."])
              (Some [["a"; "b"]]) (Some [mkLink "https://maxroll.gg/d4" "D4"])
              None None None (Some ["code"]) None in
  let c2 := mkContent (Some [mkHeading 2 "Skills"]) (Some ["Short text."])
              None None None None None None None in
  (headings c1 = headings c2
   /\ option_map (map (Py.take 100)) (paragraphs c1)
      = option_map (map (Py.take 100)) (paragraphs c2)
   /\ content_title c1 = content_title c2)
  /\ get_content_hash c1 = get_content_hash c2.
Proof.
  intros c1 c2. split; [now repeat split|].
  exact (digest_determined_by_fields c1 c2 eq_refl eq_refl eq_refl).
Defined.

(** A record as the spider builds it keeps its title beside [content], so
    the digest of its content does not depend on the title. *)
Lemma spider_record_digest (r : Response) :
  get_content_hash (item_content (page_record r))
  = get_content_hash (extracted r).
Proof. reflexivity. Qed.

(** C3, evaluated.  Two pages with the same headings and paragraphs and
    different titles, recorded by the spider: the records have different
    titles and equal digests, and [deduplicate_data] drops the second as
    duplicate content. *)
Theorem title_is_not_hashed :
  let body :=
    mkContent (Some [mkHeading 1 "Overview"])
      (Some ["A paragraph that is long enough to be kept."])
      (Some []) (Some []) (Some []) (Some []) (Some []) (Some []) None in
  let a := page_record (mkResponse "https://maxroll.gg/d4/barbarian" None
                          (Some "Barbarian Guide") None body [] []) in
  let b := page_record (mkResponse "https://maxroll.gg/d4/sorcerer" None
                          (Some "Sorcerer Guide") None body [] []) in
  title a <> title b
  /\ get_content_hash (item_content a) = get_content_hash (item_content b)
  /\ deduplicate_data [a; b] false = Some [a].
Proof.
  cbv zeta. split; [discriminate|]. split; [reflexivity|].
  vm_compute. reflexivity.
Qed.

Lemma content_score_formula (item : Item) :
  content_score item
  = 2 * len_or_empty (headings (item_content item))
    + 3 * len_or_empty (paragraphs (item_content item))
    + 2 * len_or_empty (lists (item_content item))
    + 1 * len_or_empty (links (item_content item))
    + 1 * len_or_empty (images (item_content item))
    + 5 * len_or_empty (tables (item_content item)).
Proof. unfold content_score. lia. Qed.

(** [max_from] returns the first element with the greatest key. *)
Lemma max_from_first_max {A} (key : A -> Z) (rest : list A) :
  forall best,
  exists pre post,
    best :: rest = pre ++ max_from key best rest :: post
    /\ (forall x, x ∈ pre -> key x < key (max_from key best rest))
    /\ (forall x, x ∈ post -> key x <= key (max_from key best rest)).
Proof.
  induction rest as [|x rest IH]; intros best; simpl.
  - exists [], []. split; [reflexivity|].
    split; intros y Hy; now apply elem_of_nil in Hy.
  - destruct (key best <? key x) eqn:Hlt.
    + apply Z.ltb_lt in Hlt.
      destruct (IH x) as (pre & post & Heq & Hpre & Hpost).
      exists (best :: pre), post. rewrite Heq. split; [reflexivity|split].
      * intros y Hy. apply elem_of_cons in Hy as [->|Hy]; [|now apply Hpre].
        assert (key x <= key (max_from key x rest)); [|lia].
        destruct pre as [|p pre]; simpl in Heq; injection Heq as Hx _.
        -- rewrite <- Hx. lia.
        -- subst p. assert (key x < key (max_from key x rest)); [|lia].
           apply Hpre, list_elem_of_here.
      * exact Hpost.
    + apply Z.ltb_ge in Hlt.
      destruct (IH best) as (pre & post & Heq & Hpre & Hpost).
      destruct pre as [|p pre]; simpl in Heq; injection Heq as Hb Hr.
      * exists [], (x :: post). rewrite <- Hb in *. rewrite Hr.
        split; [reflexivity|split].
        -- intros y Hy. now apply elem_of_nil in Hy.
        -- intros y Hy. apply elem_of_cons in Hy as [->|Hy];
             [lia | now apply Hpost].
      * subst p. exists (best :: x :: pre), post.
        split; [simpl; now rewrite <- Hr|split].
        -- intros y Hy.
           assert (Hbest : key best < key (max_from key best rest))
             by apply Hpre, list_elem_of_here.
           apply elem_of_cons in Hy as [->|Hy]; [exact Hbest|].
           apply elem_of_cons in Hy as [->|Hy]; [lia|].
           apply Hpre. now apply list_elem_of_further.
        -- exact Hpost.
Qed.

(** ** The running filter *)

Lemma first_by_elem (key : Item -> string) (items : list Item) :
  forall seen x,
  x ∈ first_by key seen items -> x ∈ items /\ key x ∉ seen.
Proof.
  induction items as [|item items IH]; intros seen x; simpl.
  - intros H. now apply elem_of_nil in H.
  - destruct (bool_decide (key item ∈ seen)) eqn:Hd.
    + intros H. destruct (IH _ _ H) as [Hin Hk].
      split; [now apply list_elem_of_further | exact Hk].
    + apply bool_decide_eq_false in Hd.
      intros H. apply elem_of_cons in H as [->|H].
      * split; [apply list_elem_of_here | exact Hd].
      * destruct (IH _ _ H) as [Hin Hk].
        split; [now apply list_elem_of_further | set_solver].
Qed.

(** The filter keeps at most one item per key. *)
Lemma first_by_NoDup (key : Item -> string) (items : list Item) :
  forall seen, NoDup (map key (first_by key seen items)).
Proof.
  induction items as [|item items IH]; intros seen; simpl.
  - constructor.
  - destruct (bool_decide (key item ∈ seen)); [apply IH|].
    simpl. apply NoDup_cons. split; [|apply IH].
    intros Hin. apply list_elem_of_fmap in Hin as (y & Hy & Hin).
    apply first_by_elem in Hin as [_ Hk]. rewrite <- Hy in Hk. set_solver.
Qed.

(** Whatever distinguishes the items of the input distinguishes the items
    kept. *)
Lemma first_by_NoDup_map {B} (f : Item -> B) (key : Item -> string)
  (items : list Item) :
  forall seen, NoDup (map f items) -> NoDup (map f (first_by key seen items)).
Proof.
  induction items as [|item items IH]; intros seen Hnd; simpl.
  - constructor.
  - simpl in Hnd. apply NoDup_cons in Hnd as [Hnin Hnd].
    destruct (bool_decide (key item ∈ seen)); [now apply IH|].
    simpl. apply NoDup_cons. split; [|now apply IH].
    intros Hin. apply Hnin.
    apply list_elem_of_fmap in Hin as (y & Hy & Hin).
    apply first_by_elem in Hin as [Hin _].
    apply list_elem_of_fmap. now exists y.
Qed.

(** Every key of the input is a key already seen or the key of an item
    kept. *)
Lemma first_by_covers (key : Item -> string) (items : list Item) :
  forall seen x,
  x ∈ items ->
  key x ∈ seen \/ key x ∈ map key (first_by key seen items).
Proof.
  induction items as [|item items IH]; intros seen x Hx; simpl.
  - now apply elem_of_nil in Hx.
  - destruct (bool_decide (key item ∈ seen)) eqn:Hd.
    + apply bool_decide_eq_true in Hd.
      apply elem_of_cons in Hx as [->|Hx]; [now left | now apply IH].
    + simpl. apply elem_of_cons in Hx as [->|Hx].
      * right. apply list_elem_of_here.
      * destruct (IH (seen ∪ {[key item]}) x Hx) as [H|H].
        -- apply elem_of_union in H as [H|H]; [now left|].
           apply elem_of_singleton in H. rewrite H.
           right. apply list_elem_of_here.
        -- right. now apply list_elem_of_further.
Qed.

(** An item kept is the first of the input with its key. *)
Lemma first_by_first (key : Item -> string) (items : list Item) :
  forall seen x,
  x ∈ first_by key seen items ->
  exists pre post,
    items = pre ++ x :: post /\ forall y, y ∈ pre -> key y <> key x.
Proof.
  induction items as [|item items IH]; intros seen x; simpl.
  - intros H. now apply elem_of_nil in H.
  - destruct (bool_decide (key item ∈ seen)) eqn:Hd.
    + apply bool_decide_eq_true in Hd. intros H.
      destruct (IH _ _ H) as (pre & post & -> & Hpre).
      exists (item :: pre), post. split; [reflexivity|].
      intros y Hy. apply elem_of_cons in Hy as [->|Hy]; [|now apply Hpre].
      apply first_by_elem in H as [_ Hk]. congruence.
    + intros H. apply elem_of_cons in H as [->|H].
      * exists [], items. split; [reflexivity|].
        intros y Hy. now apply elem_of_nil in Hy.
      * destruct (IH _ _ H) as (pre & post & -> & Hpre).
        exists (item :: pre), post. split; [reflexivity|].
        intros y Hy. apply elem_of_cons in Hy as [->|Hy]; [|now apply Hpre].
        apply first_by_elem in H as [_ Hk]. set_solver.
Qed.

(** A list with pairwise different keys, none of them seen, passes the
    filter unchanged. *)
Lemma first_by_fixed (key : Item -> string) (items : list Item) :
  forall seen,
  (forall x, x ∈ items -> key x ∉ seen) ->
  NoDup (map key items) ->
  first_by key seen items = items.
Proof.
  induction items as [|item items IH]; intros seen Hseen Hnd; simpl.
  - reflexivity.
  - simpl in Hnd. apply NoDup_cons in Hnd as [Hnin Hnd].
    rewrite bool_decide_eq_false_2 by apply Hseen, list_elem_of_here.
    f_equal. apply IH; [|exact Hnd].
    intros x Hx Hin. apply elem_of_union in Hin as [Hin|Hin].
    + apply (Hseen x); [now apply list_elem_of_further | exact Hin].
    + apply elem_of_singleton in Hin. apply Hnin. rewrite <- Hin.
      now apply list_elem_of_fmap_2.
Qed.

(** The filter over a list in two parts: the second part is filtered with
    the keys of the first part seen. *)
Lemma first_by_app (key : Item -> string) (l1 l2 : list Item) :
  forall seen,
  first_by key seen (l1 ++ l2)
  = first_by key seen l1
    ++ first_by key (seen ∪ list_to_set (map key l1)) l2.
Proof.
  induction l1 as [|item l1 IH]; intros seen.
  - simpl. f_equal. apply leibniz_equiv. set_solver.
  - cbn [app first_by map].
    destruct (bool_decide (key item ∈ seen)) eqn:Hd.
    + apply bool_decide_eq_true in Hd. rewrite IH. f_equal. f_equal.
      apply leibniz_equiv. rewrite list_to_set_cons. set_solver.
    + rewrite IH. cbn [app]. f_equal. f_equal. f_equal.
      apply leibniz_equiv. rewrite list_to_set_cons. set_solver.
Qed.

Lemma unique_data_first_by (items : list Item) :
  forall seen out,
  snd (fold_left keep_unseen items (seen, out))
  = out ++ first_by item_url seen items.
Proof.
  induction items as [|item items IH]; intros seen out; simpl.
  - now rewrite app_nil_r.
  - destruct (bool_decide (item_url item ∈ seen)); [apply IH|].
    rewrite IH, <- app_assoc. reflexivity.
Qed.

Lemma deduplicated_first_by (groups : list (string * list Item)) :
  forall seen out,
  snd (fold_left process_group groups (seen, out))
  = out ++ first_by item_digest seen (reduced groups).
Proof.
  induction groups as [|g groups IH]; intros seen out; simpl.
  - now rewrite app_nil_r.
  - unfold reduced. simpl. fold (reduced groups).
    destruct (best_item (snd g)) as [item|]; [|apply IH].
    simpl. fold (item_digest item).
    destruct (bool_decide (item_digest item ∈ seen)); [apply IH|].
    rewrite IH, <- app_assoc. reflexivity.
Qed.

(** The single loop of [deduplicate_data] is the two-phase pipeline:
    reduce each URL group to its best record, then filter by digest. *)
Lemma deduplicated_pipeline (data : list Item) :
  deduplicated data
  = first_by item_digest ∅ (reduced (url_groups data)).
Proof. unfold deduplicated. now rewrite deduplicated_first_by. Qed.

(** ** Grouping by normalized URL *)

Lemma group_append_new (k : string) (item : Item)
  (groups : list (string * list Item)) :
  k ∉ map fst groups -> group_append k item groups = groups ++ [(k, [item])].
Proof.
  induction groups as [|[k' items] groups IH]; simpl; intros Hk.
  - reflexivity.
  - apply not_elem_of_cons in Hk as [Hne Hk].
    destruct (String.eqb_spec k k') as [->|_]; [now elim Hne|].
    now rewrite IH.
Qed.

Lemma group_append_old (k : string) (item : Item)
  (groups : list (string * list Item)) :
  k ∈ map fst groups ->
  exists g1 items g2,
    groups = g1 ++ (k, items) :: g2
    /\ group_append k item groups = g1 ++ (k, items ++ [item]) :: g2.
Proof.
  induction groups as [|[k' items] groups IH]; simpl; intros Hk.
  - now apply elem_of_nil in Hk.
  - destruct (String.eqb_spec k k') as [->|Hne].
    + now exists [], items, groups.
    + apply elem_of_cons in Hk as [Hk|Hk]; [now elim Hne|].
      destruct (IH Hk) as (g1 & items' & g2 & -> & ->).
      now exists ((k', items) :: g1), items', g2.
Qed.

Lemma in_group_key (k k' : string) (item : Item) :
  group_key item = Some k -> in_group k' item = true <-> k' = k.
Proof.
  intros Hk. unfold in_group. rewrite Hk, String.eqb_eq.
  split; congruence.
Qed.

Lemma in_group_has_key (k : string) (item : Item) :
  in_group k item = true -> group_key item = Some k.
Proof.
  unfold in_group. destruct (group_key item) as [k'|]; [|discriminate].
  now intros ->%String.eqb_eq.
Qed.

Lemma filter_snoc {A} (p : A -> bool) (l : list A) (x : A) :
  List.filter p (l ++ [x])
  = List.filter p l ++ (if p x then [x] else []).
Proof. rewrite List.filter_app. reflexivity. Qed.

Lemma filter_none {A} (p : A -> bool) (l : list A) :
  (forall x, x ∈ l -> p x = false) -> List.filter p l = [].
Proof.
  induction l as [|x l IH]; intros H; simpl; [reflexivity|].
  rewrite (H x) by apply list_elem_of_here.
  apply IH. intros y Hy. now apply H, list_elem_of_further.
Qed.

(** Filing one more item keeps the groups the partition of what was read. *)
Lemma groups_of_append (groups : list (string * list Item))
  (pre : list Item) (item : Item) (k : string) :
  groups_of groups pre ->
  group_key item = Some k ->
  groups_of (group_append k item groups) (pre ++ [item]).
Proof.
  intros (Hnd & Hgr & Hkeys) Hk.
  assert (Hother : forall k', k' <> k ->
            List.filter (in_group k') (pre ++ [item])
            = List.filter (in_group k') pre).
  { intros k' Hne. rewrite filter_snoc.
    destruct (in_group k' item) eqn:E; [|apply app_nil_r].
    now apply (in_group_key _ _ _ Hk) in E. }
  assert (Hsame : List.filter (in_group k) (pre ++ [item])
                  = List.filter (in_group k) pre ++ [item]).
  { rewrite filter_snoc.
    now rewrite (proj2 (in_group_key k k item Hk) eq_refl). }
  destruct (decide (k ∈ map fst groups)) as [Hin|Hnin].
  - destruct (group_append_old k item groups Hin)
      as (g1 & items & g2 & Hg & ->).
    subst groups. rewrite map_app in Hnd, Hkeys. simpl in Hnd, Hkeys.
    split; [now rewrite map_app|]. split.
    + intros k' items' Hin'.
      assert (Hk' : (k' = k /\ items' = items ++ [item])
                    \/ (k' <> k /\ (k', items') ∈ g1 ++ (k, items) :: g2)).
      { apply elem_of_app in Hin' as [Hin'|Hin'].
        - right. split; [|apply elem_of_app; now left].
          intros ->. apply NoDup_app in Hnd as (_ & Hd & _).
          apply (Hd k); [|apply list_elem_of_here].
          now apply (list_elem_of_fmap_2 fst _ (k, items')).
        - apply elem_of_cons in Hin' as [Hin'|Hin'].
          + left. now injection Hin' as -> ->.
          + right. split;
              [|apply elem_of_app; right; now apply list_elem_of_further].
            intros ->. apply NoDup_app in Hnd as (_ & _ & Hd).
            apply NoDup_cons in Hd as [Hd _]. apply Hd.
            now apply (list_elem_of_fmap_2 fst _ (k, items')). }
      destruct Hk' as [[-> ->]|[Hne Hold]].
      * split; [now destruct items|].
        rewrite Hsame. f_equal. apply (Hgr k items).
        apply elem_of_app. right. apply list_elem_of_here.
      * rewrite (Hother k' Hne). now apply Hgr.
    + intros it k' Hit Hk'. rewrite map_app. simpl.
      apply elem_of_app in Hit as [Hit|Hit]; [now apply (Hkeys it)|].
      apply list_elem_of_singleton in Hit. subst it.
      assert (k' = k) by congruence. subst k'.
      apply elem_of_app. right. apply list_elem_of_here.
  - rewrite (group_append_new k item groups Hnin).
    split; [|split].
    + rewrite map_app. simpl. apply NoDup_app.
      split; [exact Hnd|]. split; [|apply NoDup_singleton].
      intros x Hx Hx'. apply list_elem_of_singleton in Hx'. now subst x.
    + intros k' items' Hin'. apply elem_of_app in Hin' as [Hin'|Hin'].
      * assert (Hne : k' <> k).
        { intros ->. apply Hnin.
          now apply (list_elem_of_fmap_2 fst _ (k, items')). }
        rewrite (Hother k' Hne). now apply Hgr.
      * apply list_elem_of_singleton in Hin'. injection Hin' as -> ->.
        split; [discriminate|]. rewrite Hsame.
        rewrite filter_none; [reflexivity|].
        intros x Hx. destruct (in_group k x) eqn:E; [|reflexivity].
        elim Hnin. apply (Hkeys x k Hx). now apply in_group_has_key.
    + intros it k' Hit Hk'. rewrite map_app. simpl.
      apply elem_of_app in Hit as [Hit|Hit].
      * apply elem_of_app. left. now apply (Hkeys it).
      * apply list_elem_of_singleton in Hit. subst it.
        assert (k' = k) by congruence. subst k'.
        apply elem_of_app. right. apply list_elem_of_here.
Qed.

Lemma groups_of_skip (groups : list (string * list Item))
  (pre : list Item) (item : Item) :
  groups_of groups pre ->
  group_key item = None ->
  groups_of groups (pre ++ [item]).
Proof.
  intros (Hnd & Hgr & Hkeys) Hk. split; [exact Hnd|]. split.
  - intros k items Hin. destruct (Hgr k items Hin) as [Hne ->].
    split; [exact Hne|]. rewrite filter_snoc.
    unfold in_group at 3. rewrite Hk. now rewrite app_nil_r.
  - intros it k Hit Hk'. apply elem_of_app in Hit as [Hit|Hit].
    + now apply (Hkeys it).
    + apply list_elem_of_singleton in Hit. subst it. congruence.
Qed.

(** [url_groups data] is the partition of [data] by normalized URL. *)
Lemma url_groups_partition (data : list Item) :
  groups_of (url_groups data) data.
Proof.
  unfold url_groups.
  assert (H : forall data groups pre,
            groups_of groups pre ->
            groups_of
              (fold_left
                 (fun groups item =>
                    match url item with
                    | Some u => group_append (normalize_url u) item groups
                    | None => groups
                    end) data groups)
              (pre ++ data)).
  { clear data. induction data as [|item data IH]; intros groups pre Hg.
    - now rewrite app_nil_r.
    - simpl. replace (pre ++ item :: data) with ((pre ++ [item]) ++ data)
        by now rewrite <- app_assoc.
      apply IH. destruct (url item) as [u|] eqn:Hu.
      + apply groups_of_append; [exact Hg|].
        unfold group_key. now rewrite Hu.
      + apply groups_of_skip; [exact Hg|].
        unfold group_key. now rewrite Hu. }
  apply (H data [] []). split; [constructor|].
  split; intros ? ? Hin; now apply elem_of_nil in Hin.
Qed.

(** ** Reducing a group to its best record *)

(** A group that is not empty is reduced to its first record of greatest
    score. *)
Lemma best_item_first_max (items : list Item) :
  items <> [] ->
  exists best pre post,
    best_item items = Some best
    /\ items = pre ++ best :: post
    /\ (forall x, x ∈ pre -> content_score x < content_score best)
    /\ (forall x, x ∈ post -> content_score x <= content_score best).
Proof.
  destruct items as [|first rest]; [congruence|]. intros _.
  destruct (max_from_first_max content_score rest first)
    as (pre & post & Heq & Hpre & Hpost).
  exists (max_from content_score first rest), pre, post.
  split; [|now split].
  destruct rest; reflexivity.
Qed.

Lemma omap_cons_eq {A B} (f : A -> option B) (x : A) (l : list A) :
  omap f (x :: l)
  = match f x with
    | Some y => y :: omap f l
    | None => omap f l
    end.
Proof. reflexivity. Qed.

Lemma reduced_keys (groups : list (string * list Item)) (data : list Item) :
  groups_of groups data ->
  map group_key (reduced groups) = map (fun g => Some (fst g)) groups.
Proof.
  intros (_ & Hgr & _). unfold reduced.
  induction groups as [|[k items] groups IH]; simpl; [reflexivity|].
  destruct (Hgr k items (list_elem_of_here _ _)) as [Hne Hitems].
  destruct (best_item_first_max items Hne)
    as (best & pre & post & -> & Heq & _).
  simpl. f_equal.
  - apply in_group_has_key.
    assert (Hin : In best (List.filter (in_group k) data)).
    { rewrite <- Hitems, Heq. apply in_or_app. right. now left. }
    now apply List.filter_In in Hin as [_ Hin].
  - apply IH. intros k' items' Hin'.
    now apply Hgr, list_elem_of_further.
Qed.

Lemma reduced_elem (groups : list (string * list Item)) (r : Item) :
  r ∈ reduced groups <->
  exists k items, (k, items) ∈ groups /\ best_item items = Some r.
Proof.
  unfold reduced. rewrite list_elem_of_omap. split.
  - intros ([k items] & Hin & Hb). now exists k, items.
  - intros (k & items & Hin & Hb). now exists (k, items).
Qed.

(** A record of the output is the best record of the group of its own
    normalized URL. *)
Lemma deduplicated_elem (data : list Item) (r : Item) :
  r ∈ deduplicated data ->
  exists k items,
    (k, items) ∈ url_groups data
    /\ best_item items = Some r
    /\ group_key r = Some k
    /\ r ∈ data.
Proof.
  rewrite deduplicated_pipeline. intros Hr.
  apply first_by_elem in Hr as [Hr _].
  apply reduced_elem in Hr as (k & items & Hin & Hb).
  exists k, items. split; [exact Hin|]. split; [exact Hb|].
  destruct (url_groups_partition data) as (_ & Hgr & _).
  destruct (Hgr k items Hin) as [Hne Hitems].
  destruct (best_item_first_max items Hne)
    as (best & pre & post & Hb' & Heq & _).
  assert (best = r) by congruence. subst best.
  assert (Hf : In r (List.filter (in_group k) data)).
  { rewrite <- Hitems, Heq. apply in_or_app. right. now left. }
  apply List.filter_In in Hf as [Hd Hk].
  split; [now apply in_group_has_key | now apply list_elem_of_In].
Qed.

(** The output of [deduplicate_data] holds at most one record per
    normalized URL and at most one per content digest, and every record
    has a URL. *)
Lemma deduplicated_clean (data : list Item) :
  NoDup (map group_key (deduplicated data))
  /\ NoDup (map item_digest (deduplicated data))
  /\ (forall r, r ∈ deduplicated data -> exists k, group_key r = Some k).
Proof.
  split; [|split].
  - rewrite deduplicated_pipeline. apply first_by_NoDup_map.
    rewrite (reduced_keys _ data (url_groups_partition data)).
    destruct (url_groups_partition data) as (Hnd & _ & _).
    rewrite <- (List.map_map fst Some).
    now apply (NoDup_fmap_2 Some).
  - rewrite deduplicated_pipeline. apply first_by_NoDup.
  - intros r Hr. destruct (deduplicated_elem data r Hr)
      as (k & _ & _ & _ & Hk & _). now exists k.
Qed.

Lemma group_unique {B} (groups : list (string * B)) (k : string) (a b : B) :
  NoDup (map fst groups) -> (k, a) ∈ groups -> (k, b) ∈ groups -> a = b.
Proof.
  induction groups as [|[k' c] groups IH]; simpl; intros Hnd Ha Hb.
  - now apply elem_of_nil in Ha.
  - apply NoDup_cons in Hnd as [Hnin Hnd].
    apply elem_of_cons in Ha as [Ha|Ha]; apply elem_of_cons in Hb as [Hb|Hb].
    + congruence.
    + injection Ha as Hk _. subst k'. elim Hnin.
      now apply (list_elem_of_fmap_2 fst _ (k, b)).
    + injection Hb as Hk _. subst k'. elim Hnin.
      now apply (list_elem_of_fmap_2 fst _ (k, a)).
    + now apply IH.
Qed.

(** C8, as the code has it.  The score of a record is
    2|headings| + 3|paragraphs| + 2|lists| + |links| + |images| + 5|tables|
    over the lists of its [content].  The engine groups the records by the
    key of [dedupe.py], [normalize_url]: scheme, network location and path,
    the query string and the fragment dropped.  Every record with a URL is
    in the group of its key, and the group of a key holds the records of
    the collection with that key, in collection order.  The engine reduces
    each group to its record of maximal score, the first such record on a
    tie; no other record of the group is in the output.  The selected
    record is in the output if and only if no record selected for an
    earlier group has the same content digest; when it is not, the output
    holds no record with the group's key at all, and holds a record
    selected for an earlier group that has that digest. *)
Theorem group_reduced_to_first_best (data : list Item) :
  (forall item,
     content_score item
     = 2 * len_or_empty (headings (item_content item))
       + 3 * len_or_empty (paragraphs (item_content item))
       + 2 * len_or_empty (lists (item_content item))
       + 1 * len_or_empty (links (item_content item))
       + 1 * len_or_empty (images (item_content item))
       + 5 * len_or_empty (tables (item_content item)))
  /\ (forall item k,
        item ∈ data -> group_key item = Some k ->
        exists items, (k, items) ∈ url_groups data /\ item ∈ items)
  /\ forall k items,
       (k, items) ∈ url_groups data ->
       items = List.filter (in_group k) data
       /\ exists best pre post,
            best_item items = Some best
            /\ items = pre ++ best :: post
            /\ (forall x, x ∈ pre -> content_score x < content_score best)
            /\ (forall x, x ∈ post -> content_score x <= content_score best)
            /\ (forall r,
                  r ∈ deduplicated data -> group_key r = Some k -> r = best)
            /\ exists before after,
                 url_groups data = before ++ (k, items) :: after
                 /\ (best ∈ deduplicated data <->
                     forall b, b ∈ reduced before ->
                       item_digest b <> item_digest best)
                 /\ (best ∉ deduplicated data ->
                     (forall r, r ∈ deduplicated data ->
                        group_key r <> Some k)
                     /\ exists r,
                          r ∈ deduplicated data /\ r ∈ reduced before
                          /\ item_digest r = item_digest best).
Proof.
  split; [exact content_score_formula|].
  destruct (url_groups_partition data) as (Hnd & Hgr & Hcov).
  split.
  { intros item k Hitem Hk.
    specialize (Hcov item k Hitem Hk).
    apply list_elem_of_fmap in Hcov as ([k' items] & Hfst & Hin).
    simpl in Hfst. subst k'. exists items. split; [exact Hin|].
    destruct (Hgr k items Hin) as [_ ->].
    apply list_elem_of_In, List.filter_In.
    split; [now apply list_elem_of_In|].
    now apply (in_group_key k k item Hk). }
  intros k items Hin.
  destruct (Hgr k items Hin) as [Hne Hitems].
  split; [exact Hitems|].
  destruct (best_item_first_max items Hne)
    as (best & pre & post & Hb & Heq & Hpre & Hpost).
  exists best, pre, post.
  assert (Honly : forall r,
            r ∈ deduplicated data -> group_key r = Some k -> r = best).
  { intros r Hr Hk.
    destruct (deduplicated_elem data r Hr)
      as (k' & items' & Hin' & Hb' & Hk' & _).
    assert (k' = k) by congruence. subst k'.
    assert (items' = items); [|congruence].
    apply (group_unique (url_groups data) k); assumption. }
  repeat (split; [assumption|]).
  assert (Hkbest : group_key best = Some k).
  { apply in_group_has_key.
    assert (Hf : In best (List.filter (in_group k) data))
      by (rewrite <- Hitems, Heq; apply in_or_app; right; now left).
    now apply List.filter_In in Hf. }
  destruct (list_elem_of_split _ _ Hin) as (before & after & Hsplit).
  exists before, after. split; [exact Hsplit|].
  assert (Hred : reduced (url_groups data)
                 = reduced before ++ best :: reduced after).
  { unfold reduced. rewrite Hsplit, omap_app, omap_cons_eq.
    cbn [snd]. now rewrite Hb. }
  assert (Hkeys : NoDup (map group_key (reduced (url_groups data)))).
  { rewrite (reduced_keys _ data (url_groups_partition data)).
    rewrite <- (List.map_map fst Some). now apply (NoDup_fmap_2 Some). }
  rewrite Hred, map_app in Hkeys. cbn [map] in Hkeys.
  apply NoDup_app in Hkeys as (_ & Hbefore & Hkeys).
  apply NoDup_cons in Hkeys as [Hafter _]. rewrite Hkbest in Hbefore, Hafter.
  assert (Hnb : best ∉ reduced before).
  { intros H. apply (Hbefore (Some k)); [|apply list_elem_of_here].
    rewrite <- Hkbest. now apply list_elem_of_fmap_2. }
  assert (Hna : best ∉ reduced after).
  { intros H. apply Hafter. rewrite <- Hkbest.
    now apply list_elem_of_fmap_2. }
  assert (Hout : deduplicated data
                 = first_by item_digest ∅ (reduced before)
                   ++ first_by item_digest
                        (∅ ∪ list_to_set (map item_digest (reduced before)))
                        (best :: reduced after)).
  { now rewrite deduplicated_pipeline, Hred, first_by_app. }
  set (seen := (∅ ∪ list_to_set (map item_digest (reduced before)))
               : gset string) in Hout.
  assert (Hseen : item_digest best ∈ seen <->
                  exists b, b ∈ reduced before
                            /\ item_digest b = item_digest best).
  { unfold seen. rewrite elem_of_union, elem_of_list_to_set,
      list_elem_of_fmap. split.
    - intros [H|(b & Hd & Hbin)]; [now apply not_elem_of_empty in H|].
      now exists b.
    - intros (b & Hbin & Hd). right. now exists b. }
  assert (Hiff : best ∈ deduplicated data <-> item_digest best ∉ seen).
  { rewrite Hout. cbn [first_by]. split.
    - intros H Hs. rewrite bool_decide_eq_true_2 in H by exact Hs.
      apply elem_of_app in H as [H|H];
        apply first_by_elem in H as [H _]; [now apply Hnb | now apply Hna].
    - intros Hs. rewrite bool_decide_eq_false_2 by exact Hs.
      apply elem_of_app. right. apply list_elem_of_here. }
  split.
  - rewrite Hiff, Hseen. split.
    + intros H b Hbin Hd. apply H. now exists b.
    + intros H (b & Hbin & Hd). now apply (H b).
  - intros Hdrop. split.
    + intros r Hr Hk. apply Hdrop. now rewrite <- (Honly r Hr Hk).
    + assert (Hs : item_digest best ∈ seen).
      { destruct (decide (item_digest best ∈ seen)) as [H|H]; [exact H|].
        elim Hdrop. now apply Hiff. }
      apply Hseen in Hs as (b & Hbin & Hd).
      destruct (first_by_covers item_digest _ ∅ b Hbin) as [H|H];
        [now apply not_elem_of_empty in H|].
      apply list_elem_of_fmap in H as (r & Hdr & Hr).
      exists r. split; [|split].
      * rewrite Hout. apply elem_of_app. now left.
      * now apply first_by_elem in Hr as [Hr _].
      * congruence.
Qed.

(** A group whose best record is not kept.  The same guide is collected
    under two URLs, with the same title, headings and paragraphs; [b2] is
    the richer of the two records of its URL, but its digest is the digest
    of [a], kept from the group before, so the engine keeps no record of
    that URL at all. *)
Lemma best_of_group_dropped :
  let x := mkContent (Some [mkHeading 1 "Barbarian"])
             (Some ["Leveling tips for the first act."])
             (Some []) (Some []) (Some []) (Some []) (Some []) (Some [])
             None in
  let x_rich := mkContent (Some [mkHeading 1 "Barbarian"])
             (Some ["Leveling tips for the first act."])
             (Some []) (Some [mkLink "https://maxroll.gg/d4" "Home"])
             (Some []) (Some []) (Some [[["Skill"; "Rank"]]]) (Some [])
             None in
  let y := mkContent (Some [mkHeading 1 "Loading"]) (Some [])
             (Some []) (Some []) (Some []) (Some []) (Some []) (Some [])
             None in
  let a := mkItem (Some "https://maxroll.gg/d4/builds/barbarian")
             (Some "Barbarian") (Some x) [] in
  let b1 := mkItem (Some "https://maxroll.gg/d4/barbarian") (Some "Loading")
              (Some y) [] in
  let b2 := mkItem (Some "https://maxroll.gg/d4/barbarian") (Some "Barbarian")
              (Some x_rich) [] in
  url_groups [a; b1; b2]
  = [("https://maxroll.gg/d4/builds/barbarian", [a]);
     ("https://maxroll.gg/d4/barbarian", [b1; b2])]
  /\ best_item [b1; b2] = Some b2
  /\ content_score b1 < content_score b2
  /\ title b2 = title a
  /\ deduplicate_data [a; b1; b2] false = Some [a]
  /\ b2 <> a /\ b1 <> a.
Proof.
  cbv zeta. split; [vm_compute; reflexivity|].
  split; [vm_compute; reflexivity|]. split; [reflexivity|].
  split; [reflexivity|].
  split; [vm_compute; reflexivity|]. split; discriminate.
Qed.

Lemma group_reduced_to_first_best_witness :
  let y := mkContent (Some [mkHeading 1 "Loading"]) (Some [])
             (Some []) (Some []) (Some []) (Some []) (Some []) (Some [])
             None in
  let z := mkContent (Some [mkHeading 1 "Barbarian"])
             (Some ["Leveling tips for the first act."])
             (Some []) (Some []) (Some []) (Some []) (Some []) (Some [])
             None in
  let b1 := mkItem (Some "https://maxroll.gg/d4/barbarian") (Some "Loading")
              (Some y) [] in
  let b2 := mkItem (Some "https://maxroll.gg/d4/barbarian#skills")
              (Some "Barbarian") (Some z) [] in
  ("https://maxroll.gg/d4/barbarian", [b1; b2]) ∈ url_groups [b1; b2]
  /\ [b1; b2]
     = List.filter (in_group "https://maxroll.gg/d4/barbarian") [b1; b2].
Proof.
  intros y z b1 b2.
  assert (Hin : ("https://maxroll.gg/d4/barbarian", [b1; b2])
                ∈ url_groups [b1; b2]).
  { vm_compute. apply list_elem_of_here. }
  split; [exact Hin|].
  exact (proj1 (proj2 (proj2 (group_reduced_to_first_best [b1; b2])) _ _
                  Hin)).
Defined.

(** ** Running the engine on its own output *)

(** On a collection with pairwise different normalized URLs every group is
    a singleton, in collection order. *)
Lemma url_groups_singletons (data : list Item) :
  (forall r, r ∈ data -> exists k, group_key r = Some k) ->
  NoDup (map group_key data) ->
  reduced (url_groups data) = data.
Proof.
  intros Hkeys Hnd. unfold url_groups.
  assert (H : forall data groups,
            (forall r, r ∈ data -> exists k, group_key r = Some k) ->
            NoDup (map group_key data) ->
            (forall r, r ∈ data ->
               forall k, group_key r = Some k -> k ∉ map fst groups) ->
            reduced
              (fold_left
                 (fun groups item =>
                    match url item with
                    | Some u => group_append (normalize_url u) item groups
                    | None => groups
                    end) data groups)
            = reduced groups ++ data).
  { clear. induction data as [|item data IH]; intros groups Hkeys Hnd Hfresh.
    - simpl. now rewrite app_nil_r.
    - cbn [map] in Hnd. apply NoDup_cons in Hnd as [Hnin Hnd].
      destruct (Hkeys item (list_elem_of_here _ _)) as [k Hk].
      cbn [fold_left].
      assert (Hstep :
        match url item with
        | Some u => group_append (normalize_url u) item groups
        | None => groups
        end = group_append k item groups).
      { unfold group_key in Hk.
        destruct (url item) as [u|]; simpl in Hk; [|discriminate].
        congruence. }
      rewrite Hstep.
      rewrite group_append_new
        by now apply (Hfresh item (list_elem_of_here _ _)).
      rewrite IH.
      + unfold reduced. rewrite omap_app. simpl.
        now rewrite <- app_assoc.
      + intros r Hr. now apply Hkeys, list_elem_of_further.
      + exact Hnd.
      + intros r Hr k' Hk' Hin. rewrite map_app in Hin. simpl in Hin.
        apply elem_of_app in Hin as [Hin|Hin].
        * now apply (Hfresh r (list_elem_of_further _ _ _ Hr) k').
        * apply list_elem_of_singleton in Hin. subst k'.
          apply Hnin. rewrite Hk, <- Hk'.
          now apply list_elem_of_fmap_2. }
  rewrite (H data []); [reflexivity | exact Hkeys | exact Hnd |].
  intros r _ k _ Hin. now apply elem_of_nil in Hin.
Qed.

(** The loop of [deduplicate_data] returns its own output unchanged: same
    records, same order. *)
Lemma deduplicated_idempotent (data : list Item) :
  deduplicated (deduplicated data) = deduplicated data.
Proof.
  destruct (deduplicated_clean data) as (Hk & Hd & Hu).
  rewrite (deduplicated_pipeline (deduplicated data)).
  rewrite (url_groups_singletons _ Hu Hk).
  apply first_by_fixed; [|exact Hd].
  intros x _. apply not_elem_of_empty.
Qed.

(** [deduplicate_data] is idempotent in quiet mode, and in verbose mode
    whenever its output is not empty. *)
Lemma deduplicate_data_idempotent (data out : list Item) (verbose : bool) :
  deduplicate_data data verbose = Some out ->
  verbose = false \/ out <> [] ->
  deduplicate_data out verbose = Some out.
Proof.
  unfold deduplicate_data.
  destruct (verbose && (length data =? 0)%nat); [discriminate|].
  intros H Hv. injection H as <-.
  rewrite deduplicated_idempotent.
  destruct verbose; [|reflexivity].
  destruct Hv as [Hv|Hv]; [discriminate|].
  destruct (deduplicated data); [congruence | reflexivity].
Qed.

Lemma deduplicate_data_idempotent_witness :
  let a := mkItem (Some "https://maxroll.gg/d4/news?page=1") (Some "News")
             (Some empty_content) [] in
  let b := mkItem (Some "https://maxroll.gg/d4/news?page=2") (Some "News")
             (Some empty_content) [] in
  (deduplicate_data [a; b] true = Some [a] /\ (true = false \/ [a] <> []))
  /\ deduplicate_data [a] true = Some [a].
Proof.
  intros a b.
  assert (H : deduplicate_data [a; b] true = Some [a])
    by (vm_compute; reflexivity).
  split; [split; [exact H | now right]|].
  apply (deduplicate_data_idempotent [a; b] [a] true H). now right.
Defined.

(** In quiet mode [deduplicate_data] always returns. *)
Lemma deduplicate_data_quiet (data : list Item) :
  deduplicate_data data false = Some (deduplicated data).
Proof. reflexivity. Qed.

(** C9, evaluated.  A collection whose only record has no URL: the engine
    returns the empty list, and the engine run on that output, in the
    default verbose mode, raises instead of returning it. *)
Theorem verbose_rerun_raises :
  let item := mkItem None (Some "Untitled") (Some empty_content) [] in
  deduplicate_data [item] true = Some []
  /\ deduplicate_data [] true = None.
Proof. cbv zeta. split; reflexivity. Qed.

(** ** The final write of the spider *)

Lemma string_leb_trans (s1 s2 s3 : string) :
  String.leb s1 s2 = true -> String.leb s2 s3 = true ->
  String.leb s1 s3 = true.
Proof.
  unfold String.leb. revert s2 s3.
  induction s1 as [|c1 s1 IH]; intros [|c2 s2] [|c3 s3]; simpl;
    try easy.
  unfold Ascii.compare.
  destruct (N.compare_spec (N_of_ascii c1) (N_of_ascii c2)) as [E12|L12|G12];
    destruct (N.compare_spec (N_of_ascii c2) (N_of_ascii c3)) as [E23|L23|G23];
    destruct (N.compare_spec (N_of_ascii c1) (N_of_ascii c3)) as [E13|L13|G13];
    try easy; try lia.
  apply IH.
Qed.

Lemma url_le_total (x y : Item) : url_le x y \/ url_le y x.
Proof. apply String.leb_total. Qed.

Lemma url_le_trans (x y z : Item) : url_le x y -> url_le y z -> url_le x z.
Proof. apply string_leb_trans. Qed.

Lemma insert_by_url_perm (item : Item) (sorted : list Item) :
  Permutation (item :: sorted) (insert_by_url item sorted).
Proof.
  induction sorted as [|x sorted IH]; simpl; [reflexivity|].
  destruct (String.leb (item_url item) (item_url x)); [reflexivity|].
  rewrite perm_swap. now apply perm_skip.
Qed.

Lemma sort_by_url_perm (items : list Item) :
  Permutation items (sort_by_url items).
Proof.
  induction items as [|item items IH]; simpl; [reflexivity|].
  rewrite <- insert_by_url_perm. now apply perm_skip.
Qed.

Lemma insert_by_url_sorted (item : Item) (sorted : list Item) :
  sorted_by_url sorted -> sorted_by_url (insert_by_url item sorted).
Proof.
  unfold sorted_by_url. induction 1 as [|x sorted Hs IH Hx]; simpl.
  - repeat constructor.
  - destruct (String.leb (item_url item) (item_url x)) eqn:Hle.
    + constructor; [now constructor|].
      constructor; [exact Hle|].
      apply Forall_forall. intros y Hy.
      apply (url_le_trans _ x); [exact Hle|].
      now apply (proj1 (Forall_forall _ _) Hx).
    + constructor; [exact IH|].
      apply Forall_forall. intros y Hy.
      rewrite <- insert_by_url_perm in Hy.
      apply elem_of_cons in Hy as [->|Hy].
      * destruct (url_le_total item x) as [H|H]; [|exact H].
        unfold url_le in H. congruence.
      * now apply (proj1 (Forall_forall _ _) Hx).
Qed.

Lemma sort_by_url_sorted (items : list Item) :
  sorted_by_url (sort_by_url items).
Proof.
  induction items as [|item items IH]; simpl.
  - constructor.
  - now apply insert_by_url_sorted.
Qed.

Lemma unique_data_eq (collected : list Item) :
  unique_data collected = first_by item_url ∅ collected.
Proof. unfold unique_data. now rewrite unique_data_first_by. Qed.

(** C1, as the code has it.  [closed] runs the final write once, over the
    whole collection.  Nothing is written for an empty collection.
    Otherwise the output is the records that are the first of their raw URL
    in the collection, sorted by raw URL: at most one record per raw URL
    string, every collected URL present.  The write normalizes nothing,
    scores nothing and compares no digests.  Grouping, scoring and the
    digest filter are in the offline [deduplicate_data] of [dedupe.py]
    only, and under that file's own key [normalize_url] (scheme, network
    location and path; the query string goes with the fragment), which is
    not the spider's normalized URL: it groups the records that have a URL
    by that key, reduces each group to its best record and then filters by
    content digest, so its output holds at most one record per key of
    [dedupe.py] and at most one per content digest. *)
Theorem final_write_first_per_raw_url (st : State) :
  closed st = _write_sorted_deduplicated_output st
  /\ (collected_data st = [] -> closed st = None)
  /\ (collected_data st <> [] ->
      exists out,
        closed st = Some out
        /\ Permutation out (first_by item_url ∅ (collected_data st))
        /\ sorted_by_url out
        /\ NoDup (map item_url out)
        /\ (forall r, r ∈ out ->
              exists pre post,
                collected_data st = pre ++ r :: post
                /\ forall y, y ∈ pre -> item_url y <> item_url r)
        /\ (forall x, x ∈ collected_data st ->
              item_url x ∈ map item_url out))
  /\ (forall data,
        deduplicated data
        = first_by item_digest ∅ (reduced (url_groups data))
        /\ NoDup (map group_key (deduplicated data))
        /\ NoDup (map item_digest (deduplicated data))).
Proof.
  split; [reflexivity|]. split; [|split].
  - intros H. unfold closed, _write_sorted_deduplicated_output.
    now rewrite H.
  - intros Hne.
    exists (sort_by_url (unique_data (collected_data st))).
    assert (Hperm : Permutation
              (sort_by_url (unique_data (collected_data st)))
              (first_by item_url ∅ (collected_data st))).
    { rewrite <- sort_by_url_perm. now rewrite unique_data_eq. }
    split; [|split; [exact Hperm|split; [apply sort_by_url_sorted|]]].
    { unfold closed, _write_sorted_deduplicated_output.
      destruct (collected_data st); [congruence | reflexivity]. }
    split; [|split].
    + rewrite Hperm. apply first_by_NoDup.
    + intros r Hr. rewrite Hperm in Hr.
      now apply first_by_first in Hr.
    + intros x Hx. rewrite Hperm.
      destruct (first_by_covers item_url _ ∅ x Hx) as [H|H];
        [now apply not_elem_of_empty in H | exact H].
  - intros data. split; [apply deduplicated_pipeline|].
    destruct (deduplicated_clean data) as (Hk & Hd & _). now split.
Qed.

(** Three pages reach [parse]: the same URL twice (the second response
    richer), and another URL whose page has the headings and paragraphs of
    the first.  The final write keeps the poorer record of the repeated
    URL, not the richer one, and writes two records with one content
    digest. *)
Lemma final_write_is_not_the_engine :
  let urljoin := fun (_ href : string) => href in
  let sp := init_spider (Some "https://maxroll.gg/d4/builds") (Some 1)
              None None in
  let x := mkContent (Some [mkHeading 1 "Builds"])
             (Some ["All the builds of the season."])
             (Some []) (Some []) (Some []) (Some []) (Some []) (Some [])
             None in
  let x_rich := mkContent (Some [mkHeading 1 "Builds"; mkHeading 2 "Tier list"])
             (Some ["All the builds of the season."])
             (Some []) (Some []) (Some []) (Some [])
             (Some [[["Build"; "Tier"]]]) (Some []) None in
  let r1 := mkResponse "https://maxroll.gg/d4/builds" None (Some "Builds")
              None x [] [] in
  let r2 := mkResponse "https://maxroll.gg/d4/builds" None (Some "Builds")
              None x_rich [] [] in
  let r3 := mkResponse "https://maxroll.gg/d4/tierlists" (Some 1)
              (Some "Tier lists") None x [] [] in
  let st := fst (crawl urljoin sp [r1; r2; r3] (init_state sp)) in
  collected_data st = [page_record r1; page_record r2; page_record r3]
  /\ closed st = Some [page_record r1; page_record r3]
  /\ group_key (page_record r1) = group_key (page_record r2)
  /\ content_score (page_record r1) < content_score (page_record r2)
  /\ page_record r1 <> page_record r3
  /\ item_digest (page_record r1) = item_digest (page_record r3).
Proof.
  cbv zeta. split; [vm_compute; reflexivity|].
  split; [vm_compute; reflexivity|]. split; [reflexivity|].
  split; [reflexivity|].
  split; [intros H; discriminate H | vm_compute; reflexivity].
Qed.

Lemma final_write_first_per_raw_url_witness :
  let st := mkState 2 0 0 0 "https://maxroll.gg/d4/b"
              ∅ ∅ 0
              [mkItem (Some "https://maxroll.gg/d4/b") (Some "B")
                 (Some empty_content) [];
               mkItem (Some "https://maxroll.gg/d4/a") (Some "A")
                 (Some empty_content) []] in
  collected_data st <> []
  /\ exists out, closed st = Some out /\ NoDup (map item_url out).
Proof.
  cbv zeta. split; [discriminate|].
  destruct (proj1 (proj2 (proj2 (final_write_first_per_raw_url
    (mkState 2 0 0 0 "https://maxroll.gg/d4/b" ∅ ∅ 0
       [mkItem (Some "https://maxroll.gg/d4/b") (Some "B")
          (Some empty_content) [];
        mkItem (Some "https://maxroll.gg/d4/a") (Some "A")
          (Some empty_content) []])))))
    as (out & Hc & _ & _ & Hnd & _); [discriminate|].
  exists out. now split.
Defined.

(** ** Path segments *)

Lemma split_nonempty (c : ascii) (s : string) : Py.split c s <> [].
Proof.
  destruct s as [|a s]; simpl; [discriminate|].
  destruct (Ascii.eqb a c); [discriminate|].
  destruct (Py.split c s); discriminate.
Qed.

(** A string without the separator is its own only piece. *)
Lemma split_no_sep (c : ascii) (s : string) :
  Py.has_char c s = false -> Py.split c s = [s].
Proof.
  induction s as [|a s IH]; simpl; [reflexivity|].
  destruct (Ascii.eqb a c); [discriminate|].
  intros H. now rewrite (IH H).
Qed.

Lemma split_app_sep (c : ascii) (a b : string) :
  Py.split c (a +:+ String c b) = Py.split c a ++ Py.split c b.
Proof.
  induction a as [|x a IH]; simpl.
  - now rewrite Ascii.eqb_refl.
  - destruct (Ascii.eqb x c); [now rewrite IH|].
    rewrite IH. destruct (Py.split c a) as [|p ps] eqn:E; [|reflexivity].
    now apply split_nonempty in E.
Qed.

(** No piece of a split holds the separator. *)
Lemma split_pieces (c : ascii) (s : string) :
  Forall (fun p => Py.has_char c p = false) (Py.split c s).
Proof.
  induction s as [|a s IH]; simpl.
  - now repeat constructor.
  - destruct (Ascii.eqb a c) eqn:E; [now constructor|].
    destruct (Py.split c s) as [|p ps].
    { constructor; [simpl; now rewrite E | constructor]. }
    apply Forall_cons in IH as [Hp Hps].
    constructor; [|exact Hps]. simpl. now rewrite E.
Qed.

Lemma join_cons2 (sep x y : string) (l : list string) :
  Py.join sep (x :: y :: l) = x +:+ sep +:+ Py.join sep (y :: l).
Proof. reflexivity. Qed.

(** Splitting what was joined gives the segments back, for segments free
    of the separator. *)
Lemma split_join (segs : list string) :
  segs <> [] ->
  Forall (fun p => Py.has_char "/" p = false) segs ->
  Py.split "/" (Py.join "/" segs) = segs.
Proof.
  induction segs as [|x segs IH]; [congruence|]. intros _ Hall.
  apply Forall_cons in Hall as [Hx Hall].
  destruct segs as [|y segs].
  - simpl. now apply split_no_sep.
  - rewrite join_cons2. change ("/" +:+ Py.join "/" (y :: segs))
      with (String "/" (Py.join "/" (y :: segs))).
    rewrite split_app_sep, (split_no_sep _ _ Hx), IH; easy.
Qed.

Lemma join_app (a b : list string) :
  a <> [] -> b <> [] ->
  Py.join "/" (a ++ b) = Py.join "/" a +:+ "/" +:+ Py.join "/" b.
Proof.
  induction a as [|x a IH]; [congruence|]. intros _ Hb.
  destruct a as [|y a].
  - destruct b; [congruence | reflexivity].
  - change ((x :: y :: a) ++ b) with (x :: y :: (a ++ b)).
    rewrite !join_cons2.
    change (y :: a ++ b) with ((y :: a) ++ b). rewrite IH by easy.
    now rewrite !string_app_assoc.
Qed.

(** The test of the short branch of [_matches_filter], on segments: the
    rule starts with the URL's path followed by a slash, or is that path,
    exactly when the URL's segments are the first segments of the rule. *)
Lemma prefix_by_segments (parts rule : list string) :
  parts <> [] -> rule <> [] ->
  Forall (fun p => Py.has_char "/" p = false) parts ->
  Forall (fun p => Py.has_char "/" p = false) rule ->
  Py.startswith (Py.join "/" rule) (Py.join "/" parts +:+ "/")
  || String.eqb (Py.join "/" parts) (Py.join "/" rule) = true
  <-> exists rest, rule = parts ++ rest.
Proof.
  intros Hp Hr Hparts Hrule.
  rewrite orb_true_iff, startswith_iff, String.eqb_eq. split.
  - intros [[b Hb]|Heq].
    + exists (Py.split "/" b).
      rewrite <- (split_join rule Hr Hrule), Hb.
      rewrite string_app_assoc.
      change ("/" +:+ b) with (String "/" b).
      now rewrite split_app_sep, (split_join parts Hp Hparts).
    + exists []. rewrite app_nil_r.
      now rewrite <- (split_join rule Hr Hrule), <- Heq,
        (split_join parts Hp Hparts).
  - intros [rest ->]. destruct rest as [|r rest].
    + right. now rewrite app_nil_r.
    + left. exists (Py.join "/" (r :: rest)).
      rewrite join_app by easy. now rewrite string_app_assoc.
Qed.

Lemma path_parts_slash_free (u : string) :
  Forall (fun p => Py.has_char "/" p = false) (path_parts u).
Proof.
  unfold path_parts. apply Forall_forall. intros p Hp.
  apply list_elem_of_In, List.filter_In in Hp as [Hp _].
  apply list_elem_of_In in Hp.
  exact (proj1 (Forall_forall _ _) (split_pieces "/" _) p Hp).
Qed.

Lemma join_truthy (segs : list string) :
  segs <> [] -> Forall (fun p => Py.truthy p = true) segs ->
  Py.truthy (Py.join "/" segs) = true.
Proof.
  destruct segs as [|x segs]; [congruence|]. intros _ H.
  apply Forall_cons in H as [Hx _].
  destruct x as [|a x]; [discriminate|]. now destruct segs.
Qed.

Lemma path_parts_truthy (u : string) :
  Forall (fun p => Py.truthy p = true) (path_parts u).
Proof.
  unfold path_parts. apply Forall_forall. intros p Hp.
  now apply list_elem_of_In, List.filter_In in Hp as [_ Hp].
Qed.

(** For a depth of 2 or more, the rule [_get_path_filter] returns is the
    first [depth] segments of the seed (all of them when the seed has
    fewer), joined by slashes. *)
Lemma path_filter_rule (d : Z) (seed pf : string) :
  2 <= d ->
  _get_path_filter d seed = Some pf ->
  firstn (Z.to_nat d) (path_parts seed) <> []
  /\ pf = Py.join "/" (firstn (Z.to_nat d) (path_parts seed)).
Proof.
  intros Hd. unfold _get_path_filter.
  destruct (Z.eqb_spec d 0) as [E0|_]; [lia|].
  destruct (Z.eqb_spec d 1) as [E1|_]; [lia|].
  unfold slice_to. rewrite (proj2 (Z.leb_le 0 d)) by lia.
  destruct (d <=? Z.of_nat (length (path_parts seed))) eqn:El.
  - intros H. injection H as <-. split; [|reflexivity].
    apply Z.leb_le in El.
    destruct (path_parts seed) as [|p ps]; [simpl in El; lia|].
    destruct (Z.to_nat d) eqn:En; [lia | discriminate].
  - apply Z.leb_gt in El.
    destruct (path_parts seed) as [|p ps] eqn:Ep; [discriminate|].
    intros H. injection H as <-.
    rewrite firstn_all2 by lia. split; [discriminate | reflexivity].
Qed.

(** C4, as the code has it.  For a filter depth of 2 or more and a rule
    that is not null, a URL is in scope exactly when (a) it has at least
    [depth] non-empty path segments and the first [depth] of them, joined
    by slashes, are the rule, or (b) it has at least one segment, fewer
    than [depth], and its segments are the first segments of the rule.  A
    URL with no path segment (the site root) is out of scope, and so is
    every URL that satisfies neither (a) nor (b). *)
Theorem scope_filter_depth_ge_2 (sp : Spider) (seed u pf : string) :
  2 <= filter_depth sp ->
  _get_path_filter (filter_depth sp) seed = Some pf ->
  path_filter sp = Some pf ->
  let d := Z.to_nat (filter_depth sp) in
  let rule := firstn d (path_parts seed) in
  let parts := path_parts u in
  pf = Py.join "/" rule
  /\ (_matches_filter sp u = true <->
        ((d <= length parts)%nat /\ Py.join "/" (firstn d parts) = pf)
        \/ ((length parts < d)%nat /\ parts <> []
            /\ exists rest, rule = parts ++ rest))
  /\ (parts = [] -> _matches_filter sp u = false)
  /\ (~ ((d <= length parts)%nat /\ Py.join "/" (firstn d parts) = pf) ->
      ~ (parts <> [] /\ exists rest, rule = parts ++ rest) ->
      _matches_filter sp u = false).
Proof.
  intros Hd Hget Hpf d rule parts.
  destruct (path_filter_rule _ _ _ Hd Hget) as [Hrule Hjoin].
  fold d in Hrule, Hjoin. fold rule in Hrule, Hjoin.
  assert (Hrule_sf : Forall (fun p => Py.has_char "/" p = false) rule).
  { apply Forall_take, path_parts_slash_free. }
  assert (Hrule_tr : Forall (fun p => Py.truthy p = true) rule).
  { apply Forall_take, path_parts_truthy. }
  assert (Htruthy : Py.truthy pf = true).
  { rewrite Hjoin. now apply join_truthy. }
  assert (Hiff : _matches_filter sp u = true <->
            ((d <= length parts)%nat /\ Py.join "/" (firstn d parts) = pf)
            \/ ((length parts < d)%nat /\ parts <> []
                /\ exists rest, rule = parts ++ rest)).
  { unfold _matches_filter. rewrite Hpf, Htruthy. simpl.
    destruct (Z.eqb_spec (filter_depth sp) 0) as [E0|_]; [lia|].
    destruct (Z.eqb_spec (filter_depth sp) 1) as [E1|_]; [lia|].
    fold parts. unfold slice_to.
    rewrite (proj2 (Z.leb_le 0 (filter_depth sp))) by lia. fold d.
    destruct (filter_depth sp <=? Z.of_nat (length parts)) eqn:El.
    - apply Z.leb_le in El. rewrite String.eqb_eq. split.
      + intros H. left. split; [lia | exact H].
      + intros [[_ H]|[H _]]; [exact H | lia].
    - apply Z.leb_gt in El. split.
      + intros H. right. split; [lia|].
        destruct parts as [|p ps] eqn:Ep.
        * apply orb_true_iff in H. rewrite String.eqb_eq in H.
          change (Py.join "/" []) with EmptyString in H.
          destruct H as [H|H]; [|rewrite <- H in Htruthy; discriminate].
          apply startswith_iff in H as [b Hb]. rewrite Hjoin in Hb.
          destruct rule as [|r rs]; [congruence|].
          apply Forall_cons in Hrule_sf as [Hr0 _].
          apply Forall_cons in Hrule_tr as [Hr1 _].
          destruct r as [|a r]; [discriminate|].
          assert (Ha : a = "/"%char).
          { destruct rs; simpl in Hb; now injection Hb as -> _. }
          subst a. simpl in Hr0. discriminate.
        * split; [discriminate|].
          rewrite Hjoin in H. apply prefix_by_segments in H;
            [exact H | discriminate | exact Hrule | | exact Hrule_sf].
          rewrite <- Ep. apply path_parts_slash_free.
      + intros [[H _]|(_ & Hne & Hrest)]; [lia|].
        rewrite Hjoin. apply prefix_by_segments;
          [exact Hne | exact Hrule | apply path_parts_slash_free
          | exact Hrule_sf | exact Hrest]. }
  split; [exact Hjoin|]. split; [exact Hiff|]. split.
  - intros Hnil. destruct (_matches_filter sp u); [|reflexivity].
    destruct (proj1 Hiff eq_refl) as [[Hlen _]|(_ & Hne & _)].
    + rewrite Hnil in Hlen. simpl in Hlen. lia.
    + congruence.
  - intros Ha Hb. destruct (_matches_filter sp u); [|reflexivity].
    destruct (proj1 Hiff eq_refl) as [H|(_ & Hne & Hrest)]; [now elim Ha|].
    elim Hb. now split.
Qed.

(** With the depth-2 rule [d4/getting-started]: the site root has fewer
    segments than the depth and its (empty) segment path is a prefix of
    the rule, yet it is out of scope; and a page below the rule is in
    scope although its joined segment path is neither the rule nor a
    prefix of it. *)
Lemma root_url_out_of_scope :
  let sp := init_spider
              (Some "https://maxroll.gg/d4/getting-started/first-steps")
              (Some 2) None None in
  let root := "https://maxroll.gg/" in
  let page := "https://maxroll.gg/d4/getting-started/first-steps" in
  filter_depth sp = 2
  /\ path_filter sp = Some "d4/getting-started"
  /\ path_parts root = []
  /\ (length (path_parts root) < 2)%nat
  /\ (exists rest, ["d4"; "getting-started"] = path_parts root ++ rest)
  /\ Py.startswith "d4/getting-started" (Py.join "/" (path_parts root)) = true
  /\ _matches_filter sp root = false
  /\ Py.join "/" (path_parts page) <> "d4/getting-started"
  /\ Py.startswith "d4/getting-started" (Py.join "/" (path_parts page)) = false
  /\ _matches_filter sp page = true.
Proof.
  cbv zeta. split; [reflexivity|]. split; [reflexivity|].
  split; [reflexivity|]. split; [vm_compute; lia|].
  split; [now exists ["d4"; "getting-started"]|].
  split; [reflexivity|]. split; [reflexivity|].
  split; [intros H; vm_compute in H; discriminate H|].
  split; reflexivity.
Qed.

Lemma scope_filter_depth_ge_2_witness :
  let sp := init_spider
              (Some "https://maxroll.gg/d4/getting-started/first-steps")
              (Some 2) None None in
  let seed := "https://maxroll.gg/d4/getting-started/first-steps" in
  (2 <= filter_depth sp
   /\ _get_path_filter (filter_depth sp) seed = Some "d4/getting-started"
   /\ path_filter sp = Some "d4/getting-started")
  /\ "d4/getting-started"
     = Py.join "/" (firstn (Z.to_nat (filter_depth sp)) (path_parts seed))
  /\ _matches_filter sp "https://maxroll.gg/" = false.
Proof.
  cbv zeta. split; [split; [discriminate | split; reflexivity]|].
  pose proof (scope_filter_depth_ge_2
    (init_spider (Some "https://maxroll.gg/d4/getting-started/first-steps")
       (Some 2) None None)
    "https://maxroll.gg/d4/getting-started/first-steps"
    "https://maxroll.gg/" "d4/getting-started"
    ltac:(discriminate) eq_refl eq_refl) as H.
  cbv zeta in H. destruct H as (Hj & _ & Hroot & _).
  split; [exact Hj | exact (Hroot eq_refl)].
Defined.

(** ** Parsing a URL: where the fragment goes *)

Lemma break_split (p : ascii -> bool) (s : string) :
  s = fst (Py.break p s) +:+ snd (Py.break p s)
  /\ Py.all_chars (fun a => negb (p a)) (fst (Py.break p s)) = true
  /\ match snd (Py.break p s) with
     | String c _ => p c = true
     | EmptyString => True
     end.
Proof.
  induction s as [|a s IH]; simpl; [easy|].
  destruct (p a) eqn:E; simpl; [easy|].
  destruct (Py.break p s) as [h t]. simpl in *.
  destruct IH as (Hs & Hh & Ht). rewrite E. simpl.
  split; [now rewrite <- Hs | now split].
Qed.

(** Breaking a string that is free of the characters looked for goes on
    into what follows it. *)
Lemma break_app_miss (p : ascii -> bool) (a b : string) :
  Py.all_chars (fun c => negb (p c)) a = true ->
  Py.break p (a +:+ b)
  = (a +:+ fst (Py.break p b), snd (Py.break p b)).
Proof.
  induction a as [|x a IH]; simpl; intros H.
  - now destruct (Py.break p b).
  - apply andb_true_iff in H as [Hx Ha].
    apply negb_true_iff in Hx. rewrite Hx, (IH Ha). reflexivity.
Qed.

(** Breaking a string at a character it holds ignores what follows it. *)
Lemma break_app_hit (p : ascii -> bool) (a b : string) (c : ascii)
  (t : string) :
  snd (Py.break p a) = String c t ->
  Py.break p (a +:+ b) = (fst (Py.break p a), String c t +:+ b).
Proof.
  induction a as [|x a IH]; simpl; [discriminate|].
  destruct (p x) eqn:E; simpl.
  - intros H. injection H as <- <-. reflexivity.
  - destruct (Py.break p a) as [h t'] eqn:Eb. simpl in *.
    intros H. rewrite (IH H). reflexivity.
Qed.

Lemma break_no_hit (p : ascii -> bool) (a : string) :
  Py.all_chars (fun c => negb (p c)) a = true ->
  Py.break p a = (a, EmptyString).
Proof.
  intros H. rewrite <- (string_app_nil_r a) at 1.
  rewrite (break_app_miss p a "" H). simpl. now rewrite string_app_nil_r.
Qed.

Lemma all_chars_app (p : ascii -> bool) (a b : string) :
  Py.all_chars p (a +:+ b) = Py.all_chars p a && Py.all_chars p b.
Proof.
  induction a as [|x a IH]; simpl; [reflexivity|].
  now rewrite IH, andb_assoc.
Qed.

Lemma has_char_app (c : ascii) (a b : string) :
  Py.has_char c (a +:+ b) = Py.has_char c a || Py.has_char c b.
Proof.
  induction a as [|x a IH]; simpl; [reflexivity|].
  now destruct (Ascii.eqb x c).
Qed.

(** Having no [c] and holding only characters other than [c]: the same. *)
Lemma has_char_all (c : ascii) (s : string) :
  Py.has_char c s = false
  <-> Py.all_chars (fun a => negb (Ascii.eqb c a)) s = true.
Proof.
  induction s as [|a s IH]; simpl; [easy|].
  rewrite (Ascii.eqb_sym c a).
  destruct (Ascii.eqb a c); simpl; [easy | exact IH].
Qed.

Lemma all_chars_weaken (p q : ascii -> bool) (s : string) :
  (forall a, p a = true -> q a = true) ->
  Py.all_chars p s = true -> Py.all_chars q s = true.
Proof.
  intros Hpq. induction s as [|a s IH]; simpl; [easy|].
  intros H. apply andb_true_iff in H as [Ha Hs].
  now rewrite (Hpq a Ha), (IH Hs).
Qed.

Lemma lstrip_app (p : ascii -> bool) (a b : string) (c : ascii) :
  p c = false ->
  Py.lstrip p (a +:+ String c b) = Py.lstrip p a +:+ String c b.
Proof.
  intros Hc. induction a as [|x a IH]; simpl.
  - now rewrite Hc.
  - now destruct (p x).
Qed.

Lemma lstrip_has_char (p : ascii -> bool) (c : ascii) (s : string) :
  Py.has_char c s = false -> Py.has_char c (Py.lstrip p s) = false.
Proof.
  induction s as [|x s IH]; simpl; [easy|].
  destruct (Ascii.eqb x c) eqn:E; [discriminate|].
  intros H. destruct (p x); [now apply IH|]. simpl. now rewrite E.
Qed.

Lemma remove_chars_app (p : ascii -> bool) (a b : string) :
  Py.remove_chars p (a +:+ b)
  = Py.remove_chars p a +:+ Py.remove_chars p b.
Proof.
  induction a as [|x a IH]; simpl; [reflexivity|].
  destruct (p x); [exact IH | simpl; now rewrite IH].
Qed.

Lemma remove_chars_has_char (p : ascii -> bool) (c : ascii) (s : string) :
  Py.has_char c s = false -> Py.has_char c (Py.remove_chars p s) = false.
Proof.
  induction s as [|x s IH]; simpl; [easy|].
  destruct (Ascii.eqb x c) eqn:E; [discriminate|].
  intros H. destruct (p x); [now apply IH|]. simpl. now rewrite E, IH.
Qed.

Lemma remove_chars_none (p : ascii -> bool) (s : string) :
  Py.all_chars (fun a => negb (p a)) s = true -> Py.remove_chars p s = s.
Proof.
  induction s as [|x s IH]; simpl; [easy|].
  intros H. apply andb_true_iff in H as [Hx Hs].
  apply negb_true_iff in Hx. now rewrite Hx, (IH Hs).
Qed.

Lemma scheme_chars_stop_at_hash (a h : string) :
  Py.all_chars UrlLib.scheme_char (a +:+ String "#" h) = false.
Proof.
  rewrite all_chars_app. simpl.
  change (UrlLib.scheme_char "#") with false. simpl. apply andb_false_r.
Qed.

(** The scheme step does not look past a [#]. *)
Lemma split_scheme_fragment (b f : string) :
  Py.has_char "#" b = false ->
  UrlLib.split_scheme (b +:+ String "#" f)
  = (fst (UrlLib.split_scheme b),
     snd (UrlLib.split_scheme b) +:+ String "#" f)
  /\ Py.has_char "#" (snd (UrlLib.split_scheme b)) = false.
Proof.
  intros Hb. unfold UrlLib.split_scheme.
  destruct (break_split (Ascii.eqb ":") b) as (Hsplit & Hh & _).
  destruct (Py.break (Ascii.eqb ":") b) as [h t] eqn:Eb.
  cbn [fst snd] in *.
  destruct t as [|c rest].
  - rewrite string_app_nil_r in Hsplit. subst h.
    rewrite (break_app_miss _ _ _ Hh). simpl.
    destruct (Py.break (Ascii.eqb ":") f) as [h2 t2]. simpl.
    assert (Hsame :
      match b +:+ String "#" h2 with
      | EmptyString => (EmptyString, b +:+ String "#" f)
      | String a0 h0 =>
          match t2 with
          | EmptyString => (EmptyString, b +:+ String "#" f)
          | String _ rest =>
              if Py.is_ascii_alpha a0
                 && Py.all_chars UrlLib.scheme_char (String a0 h0)
              then (Py.lower (String a0 h0), rest)
              else (EmptyString, b +:+ String "#" f)
          end
      end = (EmptyString, b +:+ String "#" f)).
    { pose proof (scheme_chars_stop_at_hash b h2) as Hstop.
      destruct (b +:+ String "#" h2) as [|a0 h0]; [reflexivity|].
      destruct t2; [reflexivity|]. rewrite Hstop.
      now rewrite andb_false_r. }
    split; [|destruct b; exact Hb].
    destruct b as [|x b']; [now destruct t2 | exact Hsame].
  - assert (Hrest : Py.has_char "#" rest = false).
    { rewrite Hsplit, has_char_app in Hb.
      apply orb_false_iff in Hb as [_ Hb]. simpl in Hb.
      now destruct (Ascii.eqb c "#"). }
    rewrite (break_app_hit _ b (String "#" f) c rest)
      by now rewrite Eb.
    rewrite Eb. simpl.
    destruct h as [|a0 h0]; simpl; [now split|].
    destruct (Py.is_ascii_alpha a0
              && (UrlLib.scheme_char a0
                  && Py.all_chars UrlLib.scheme_char h0)); simpl;
      now split.
Qed.

Lemma string_app_cons (a : ascii) (s t : string) :
  String a s +:+ t = String a (s +:+ t).
Proof. reflexivity. Qed.

Lemma split_netloc_other1 (a : ascii) (s : string) :
  a <> "/"%char ->
  UrlLib.split_netloc (String a s) = (EmptyString, String a s).
Proof.
  intros Ha. destruct a as [[] [] [] [] [] [] [] []];
    try reflexivity; now elim Ha.
Qed.

Lemma split_netloc_other2 (b : ascii) (s : string) :
  b <> "/"%char ->
  UrlLib.split_netloc (String "/" (String b s))
  = (EmptyString, String "/" (String b s)).
Proof.
  intros Hb. destruct b as [[] [] [] [] [] [] [] []];
    try reflexivity; now elim Hb.
Qed.

Lemma split_netloc_slashes (rest : string) :
  UrlLib.split_netloc (String "/" (String "/" rest))
  = Py.break UrlLib.netloc_delim rest.
Proof. reflexivity. Qed.

(** The network-location step stops at a [#]. *)
Lemma split_netloc_fragment (r f : string) :
  Py.has_char "#" r = false ->
  UrlLib.split_netloc (r +:+ String "#" f)
  = (fst (UrlLib.split_netloc r),
     snd (UrlLib.split_netloc r) +:+ String "#" f)
  /\ Py.has_char "#" (snd (UrlLib.split_netloc r)) = false.
Proof.
  intros Hr. destruct r as [|a r]; [now split|].
  destruct (ascii_dec a "/") as [->|Ha];
    [|rewrite string_app_cons, !split_netloc_other1 by exact Ha;
      now split].
  destruct r as [|b r]; [now split|].
  destruct (ascii_dec b "/") as [->|Hb];
    [|rewrite !string_app_cons, !split_netloc_other2 by exact Hb;
      now split].
  rewrite !string_app_cons, !split_netloc_slashes.
  assert (Hr' : Py.has_char "#" r = false) by exact Hr.
  destruct (break_split UrlLib.netloc_delim r) as (Hsplit & Hh & _).
  destruct (Py.break UrlLib.netloc_delim r) as [h t] eqn:Eb.
  cbn [fst snd] in *. destruct t as [|c t].
  - rewrite string_app_nil_r in Hsplit. subst h.
    rewrite (break_app_miss _ _ _ Hh). simpl.
    now rewrite string_app_nil_r.
  - rewrite (break_app_hit _ r (String "#" f) c t) by now rewrite Eb.
    rewrite Eb. split; [reflexivity|].
    rewrite Hsplit, has_char_app in Hr'.
    now apply orb_false_iff in Hr' as [_ Hr'].
Qed.

Lemma split1_miss (c : ascii) (t : string) :
  Py.has_char c t = false -> Py.split1 c t = (t, EmptyString).
Proof.
  intros H. unfold Py.split1.
  now rewrite (break_no_hit _ _ (proj1 (has_char_all c t) H)).
Qed.

Lemma split1_hit (c : ascii) (t f : string) :
  Py.has_char c t = false -> Py.split1 c (t +:+ String c f) = (t, f).
Proof.
  intros H. unfold Py.split1.
  rewrite (break_app_miss _ _ _ (proj1 (has_char_all c t) H)).
  simpl. rewrite Ascii.eqb_refl. simpl. now rewrite string_app_nil_r.
Qed.

(** [urlsplit] of a URL followed by [#] and a fragment: the parts of the
    URL, and the fragment (less its tabs and line breaks). *)
Lemma urlsplit_fragment (base f : string) :
  Py.has_char "#" base = false ->
  UrlLib.urlsplit (base +:+ String "#" f)
  = UrlLib.mkParseResult
      (UrlLib.scheme (UrlLib.urlsplit base))
      (UrlLib.netloc (UrlLib.urlsplit base))
      (UrlLib.path (UrlLib.urlsplit base))
      EmptyString
      (UrlLib.query (UrlLib.urlsplit base))
      (Py.remove_chars UrlLib.unsafe_url_byte f)
  /\ UrlLib.fragment (UrlLib.urlsplit base) = EmptyString.
Proof.
  intros Hb. unfold UrlLib.urlsplit.
  rewrite (lstrip_app _ _ _ _ (eq_refl : UrlLib.c0_control_or_space "#" = false)).
  rewrite remove_chars_app.
  change (Py.remove_chars UrlLib.unsafe_url_byte (String "#" f))
    with (String "#" (Py.remove_chars UrlLib.unsafe_url_byte f)).
  set (b := Py.remove_chars UrlLib.unsafe_url_byte
              (Py.lstrip UrlLib.c0_control_or_space base)).
  set (f' := Py.remove_chars UrlLib.unsafe_url_byte f).
  assert (Hb' : Py.has_char "#" b = false).
  { apply remove_chars_has_char, lstrip_has_char, Hb. }
  destruct (split_scheme_fragment b f' Hb') as [-> Hr].
  destruct (UrlLib.split_scheme b) as [s r]. cbn [fst snd] in *.
  destruct (split_netloc_fragment r f' Hr) as [-> Ht].
  destruct (UrlLib.split_netloc r) as [n t]. cbn [fst snd] in *.
  rewrite (split1_hit "#" t f' Ht), (split1_miss "#" t Ht).
  destruct (Py.split1 "?" t) as [p q]. now split.
Qed.

Lemma urlparse_fragment (base f : string) :
  Py.has_char "#" base = false ->
  UrlLib.scheme (UrlLib.urlparse (base +:+ String "#" f))
  = UrlLib.scheme (UrlLib.urlparse base)
  /\ UrlLib.netloc (UrlLib.urlparse (base +:+ String "#" f))
     = UrlLib.netloc (UrlLib.urlparse base)
  /\ UrlLib.path (UrlLib.urlparse (base +:+ String "#" f))
     = UrlLib.path (UrlLib.urlparse base)
  /\ UrlLib.params (UrlLib.urlparse (base +:+ String "#" f))
     = UrlLib.params (UrlLib.urlparse base)
  /\ UrlLib.query (UrlLib.urlparse (base +:+ String "#" f))
     = UrlLib.query (UrlLib.urlparse base).
Proof.
  intros Hb. unfold UrlLib.urlparse.
  rewrite (proj1 (urlsplit_fragment base f Hb)). cbn [UrlLib.scheme
    UrlLib.netloc UrlLib.path UrlLib.params UrlLib.query UrlLib.fragment].
  destruct (UrlLib.mem (UrlLib.scheme (UrlLib.urlsplit base))
              UrlLib.uses_params
            && Py.has_char ";" (UrlLib.path (UrlLib.urlsplit base)));
    [destruct (UrlLib._splitparams _)|]; now repeat split.
Qed.

(** Both normalizers ignore the fragment: a URL without [#], and the same
    URL followed by [#] and any fragment, normalize to the same string, in
    the spider and in [dedupe.py]. *)
Theorem normalize_ignores_fragment (base f : string) :
  Py.has_char "#" base = false ->
  _normalize_url (base +:+ "#" +:+ f) = _normalize_url base
  /\ normalize_url (base +:+ "#" +:+ f) = normalize_url base.
Proof.
  intros Hb. change ("#" +:+ f) with (String "#" f).
  destruct (urlparse_fragment base f Hb) as (Hs & Hn & Hp & Hpa & Hq).
  unfold _normalize_url, normalize_url.
  now rewrite Hs, Hn, Hp, Hpa, Hq.
Qed.

Lemma normalize_ignores_fragment_witness :
  Py.has_char "#" "https://maxroll.gg/d4/builds?page=2" = false
  /\ _normalize_url ("https://maxroll.gg/d4/builds?page=2" +:+ "#" +:+ "top")
     = _normalize_url "https://maxroll.gg/d4/builds?page=2".
Proof.
  split; [reflexivity|].
  exact (proj1 (normalize_ignores_fragment
                  "https://maxroll.gg/d4/builds?page=2" "top" eq_refl)).
Defined.

(** ** Parsing a URL written from well-formed parts *)

Lemma scheme_char_facts (a : ascii) :
  UrlLib.scheme_char a = true ->
  UrlLib.unsafe_url_byte a = false
  /\ Ascii.eqb ":" a = false
  /\ Ascii.eqb "#" a = false.
Proof.
  intros H. destruct a as [[] [] [] [] [] [] [] []];
    first [discriminate H | now repeat split].
Qed.

Lemma is_lower_facts (a : ascii) :
  Py.is_lower a = true ->
  UrlLib.c0_control_or_space a = false /\ Py.is_ascii_alpha a = true.
Proof.
  intros H. destruct a as [[] [] [] [] [] [] [] []];
    first [discriminate H | now split].
Qed.

Lemma lower_no_upper (s : string) :
  Py.all_chars (fun a => negb (Py.is_upper a)) s = true -> Py.lower s = s.
Proof.
  unfold Py.lower. induction s as [|a s IH]; simpl; [easy|].
  intros H. apply andb_true_iff in H as [Ha Hs].
  apply negb_true_iff in Ha. rewrite (IH Hs).
  unfold Py.lower_char. now rewrite Ha.
Qed.

(** What [wf_parts] says, part by part. *)
Lemma wf_parts_inv (s n p q : string) :
  wf_parts s n p q = true ->
  (exists a s', s = String a s' /\ Py.is_lower a = true)
  /\ Py.all_chars UrlLib.scheme_char s = true
  /\ Py.all_chars (fun a => negb (Py.is_upper a)) s = true
  /\ Py.truthy n = true
  /\ Py.all_chars (fun a => negb (UrlLib.netloc_delim a)) n = true
  /\ Py.all_chars (fun a => negb (UrlLib.unsafe_url_byte a)) n = true
  /\ (p = EmptyString \/ exists p', p = String "/" p')
  /\ Py.has_char "?" p = false /\ Py.has_char "#" p = false
  /\ Py.has_char ";" p = false
  /\ Py.all_chars (fun a => negb (UrlLib.unsafe_url_byte a)) p = true
  /\ Py.has_char "#" q = false
  /\ Py.all_chars (fun a => negb (UrlLib.unsafe_url_byte a)) q = true.
Proof.
  unfold wf_parts. rewrite !andb_true_iff.
  intros ((((((H1 & H2) & H3) & H4) & H5) & H6) & H7).
  split; [destruct s as [|a s']; [discriminate | now exists a, s']|].
  split; [revert H2; apply all_chars_weaken; intros a Ha;
          now apply andb_true_iff in Ha|].
  split; [revert H2; apply all_chars_weaken; intros a Ha;
          now apply andb_true_iff in Ha|].
  split; [exact H3|].
  split; [revert H4; apply all_chars_weaken; intros a Ha;
          rewrite !andb_true_iff in Ha; tauto|].
  split; [revert H4; apply all_chars_weaken; intros a Ha;
          rewrite !andb_true_iff in Ha; tauto|].
  split.
  { destruct p as [|a p']; [now left|right].
    apply Ascii.eqb_eq in H5. subst a. now exists p'. }
  split; [apply has_char_all; revert H6; apply all_chars_weaken;
          intros a Ha; rewrite !andb_true_iff in Ha;
          rewrite Ascii.eqb_sym; tauto|].
  split; [apply has_char_all; revert H6; apply all_chars_weaken;
          intros a Ha; rewrite !andb_true_iff in Ha;
          rewrite Ascii.eqb_sym; tauto|].
  split; [apply has_char_all; revert H6; apply all_chars_weaken;
          intros a Ha; rewrite !andb_true_iff in Ha;
          rewrite Ascii.eqb_sym; tauto|].
  split; [revert H6; apply all_chars_weaken; intros a Ha;
          rewrite !andb_true_iff in Ha; tauto|].
  split; [apply has_char_all; revert H7; apply all_chars_weaken;
          intros a Ha; rewrite !andb_true_iff in Ha;
          rewrite Ascii.eqb_sym; tauto|].
  revert H7; apply all_chars_weaken; intros a Ha;
    rewrite !andb_true_iff in Ha; tauto.
Qed.

(** [urlsplit] reads a URL written from well-formed parts back as those
    parts. *)
Lemma urlsplit_of_parts (s n p q : string) :
  wf_parts s n p q = true ->
  UrlLib.urlsplit
    (s +:+ "://" +:+ n +:+ p
       +:+ (if Py.truthy q then "?" +:+ q else EmptyString))
  = UrlLib.mkParseResult s n p EmptyString q EmptyString.
Proof.
  intros Hwf.
  destruct (wf_parts_inv s n p q Hwf)
    as ((a & s' & Hs & Ha) & Hsch & Hup & Hn & Hnd & Hnu & Hp & Hpq & Hph
        & Hps & Hpu & Hqh & Hqu).
  destruct (is_lower_facts a Ha) as [Hc0 Halpha].
  set (qs := if Py.truthy q then "?" +:+ q else EmptyString).
  assert (Hqs_unsafe :
    Py.all_chars (fun a => negb (UrlLib.unsafe_url_byte a)) qs = true).
  { unfold qs. destruct (Py.truthy q); [|reflexivity]. exact Hqu. }
  assert (Hqs_hash : Py.has_char "#" qs = false).
  { unfold qs. destruct (Py.truthy q); [|reflexivity]. exact Hqh. }
  assert (Hs_unsafe :
    Py.all_chars (fun a => negb (UrlLib.unsafe_url_byte a)) s = true).
  { revert Hsch. apply all_chars_weaken. intros c Hc.
    now rewrite (proj1 (scheme_char_facts c Hc)). }
  assert (Hs_colon :
    Py.all_chars (fun c => negb (Ascii.eqb ":" c)) s = true).
  { revert Hsch. apply all_chars_weaken. intros c Hc.
    now rewrite (proj1 (proj2 (scheme_char_facts c Hc))). }
  unfold UrlLib.urlsplit.
  (* leading blanks: none *)
  assert (Hstrip : forall rest,
            Py.lstrip UrlLib.c0_control_or_space (s +:+ rest) = s +:+ rest).
  { intros rest. rewrite Hs, string_app_cons. simpl. now rewrite Hc0. }
  rewrite Hstrip.
  (* tabs and line breaks: none *)
  rewrite remove_chars_none.
  2:{ rewrite !all_chars_app, Hs_unsafe, Hnu, Hpu, Hqs_unsafe.
      reflexivity. }
  (* the scheme *)
  assert (Hscheme : forall rest,
            UrlLib.split_scheme (s +:+ String ":" rest) = (s, rest)).
  { intros rest. unfold UrlLib.split_scheme.
    rewrite (break_app_miss _ _ _ Hs_colon).
    change (Py.break (Ascii.eqb ":") (String ":" rest))
      with (EmptyString, String ":" rest).
    cbn [fst snd]. rewrite string_app_nil_r.
    rewrite <- (lower_no_upper s Hup) at 2.
    clear Hstrip. subst s. now rewrite Halpha, Hsch. }
  change ("://" +:+ n +:+ p +:+ qs)
    with (String ":" (String "/" (String "/" (n +:+ p +:+ qs)))).
  rewrite Hscheme, split_netloc_slashes.
  (* the network location *)
  assert (Htail : Py.break UrlLib.netloc_delim (p +:+ qs)
                  = (EmptyString, p +:+ qs)).
  { destruct Hp as [->|[p' ->]]; [|reflexivity].
    unfold qs. now destruct (Py.truthy q). }
  rewrite (break_app_miss _ _ _ Hnd), Htail. cbn [fst snd].
  rewrite string_app_nil_r.
  (* no fragment; the query *)
  rewrite split1_miss by (rewrite has_char_app, Hph, Hqs_hash; reflexivity).
  unfold qs. destruct q as [|c q]; simpl Py.truthy; cbv iota.
  - rewrite string_app_nil_r, (split1_miss "?" p Hpq). reflexivity.
  - change ("?" +:+ String c q) with (String "?" (String c q)).
    rewrite (split1_hit "?" p (String c q) Hpq). reflexivity.
Qed.

Lemma url_of_parts_fragment (s n p q f : string) :
  url_of_parts s n p q f
  = url_of_parts s n p q EmptyString
    +:+ (if Py.truthy f then String "#" f else EmptyString).
Proof.
  unfold url_of_parts. simpl Py.truthy. cbv iota.
  rewrite !string_app_nil_r, !string_app_assoc.
  now destruct (Py.truthy f).
Qed.

Lemma url_of_parts_no_hash (s n p q : string) :
  wf_parts s n p q = true ->
  Py.has_char "#" (url_of_parts s n p q EmptyString) = false.
Proof.
  intros Hwf.
  destruct (wf_parts_inv s n p q Hwf)
    as (_ & Hsch & _ & _ & Hnd & _ & _ & _ & Hph & _ & _ & Hqh & _).
  unfold url_of_parts. simpl Py.truthy. cbv iota.
  rewrite !has_char_app, Hph.
  replace (Py.has_char "#" s) with false.
  2:{ symmetry. apply has_char_all. revert Hsch.
      apply all_chars_weaken. intros c Hc.
      now rewrite (proj2 (proj2 (scheme_char_facts c Hc))). }
  replace (Py.has_char "#" n) with false.
  2:{ symmetry. apply has_char_all. revert Hnd.
      apply all_chars_weaken. intros c Hc.
      apply negb_true_iff in Hc. unfold UrlLib.netloc_delim in Hc.
      rewrite !orb_false_iff in Hc. destruct Hc as [_ Hc].
      now rewrite Ascii.eqb_sym, Hc. }
  destruct (Py.truthy q); simpl; rewrite ?Hqh; reflexivity.
Qed.

Lemma urlparse_of_parts (s n p q : string) :
  wf_parts s n p q = true ->
  UrlLib.urlparse (url_of_parts s n p q EmptyString)
  = UrlLib.mkParseResult s n p EmptyString q EmptyString.
Proof.
  intros Hwf.
  destruct (wf_parts_inv s n p q Hwf)
    as (_ & _ & _ & _ & _ & _ & _ & _ & _ & Hps & _).
  unfold UrlLib.urlparse, url_of_parts. simpl Py.truthy. cbv iota.
  rewrite string_app_nil_r, (urlsplit_of_parts s n p q Hwf).
  cbn [UrlLib.scheme UrlLib.netloc UrlLib.path UrlLib.params UrlLib.query
       UrlLib.fragment].
  now rewrite Hps, andb_false_r.
Qed.

Lemma string_app_inv_head (a x y : string) : a +:+ x = a +:+ y -> x = y.
Proof.
  induction a as [|c a IH]; simpl; intros H; [exact H|].
  injection H as H. now apply IH.
Qed.

(** The spider's normalizer gives a URL written from well-formed parts
    back verbatim, less its fragment: scheme, network location, path and
    query are kept as they are.  So, to the spider, two such URLs that
    differ in the query string are two different pages. *)
Theorem normalize_keeps_well_formed_url (s n p q f : string) :
  wf_parts s n p q = true ->
  _normalize_url (url_of_parts s n p q f) = url_of_parts s n p q EmptyString
  /\ forall q' f',
       wf_parts s n p q' = true -> q' <> q ->
       _normalize_url (url_of_parts s n p q' f')
       <> _normalize_url (url_of_parts s n p q f).
Proof.
  assert (Hkey : forall q f, wf_parts s n p q = true ->
            _normalize_url (url_of_parts s n p q f)
            = url_of_parts s n p q EmptyString).
  { clear. intros q f Hwf.
    assert (Hbase : _normalize_url (url_of_parts s n p q EmptyString)
                    = url_of_parts s n p q EmptyString).
    { destruct (wf_parts_inv s n p q Hwf)
        as ((a & s' & Hs & _) & _ & _ & Hn & _ & _ & Hp & _).
      unfold _normalize_url. rewrite (urlparse_of_parts s n p q Hwf).
      cbn [UrlLib.scheme UrlLib.netloc UrlLib.path UrlLib.params
           UrlLib.query].
      unfold UrlLib.urlunparse, UrlLib.urlunsplit, url_of_parts.
      simpl (Py.truthy EmptyString). cbv iota. rewrite Hn. simpl orb.
      cbv iota.
      replace (Py.truthy p && negb (String.eqb (Py.take 1 p) "/"))
        with false by (destruct Hp as [->|[p' ->]]; reflexivity).
      replace (Py.truthy s) with true by now rewrite Hs.
      destruct (Py.truthy q); rewrite ?string_app_nil_r, ?string_app_assoc;
        reflexivity. }
    rewrite url_of_parts_fragment. destruct (Py.truthy f).
    - destruct (urlparse_fragment _ f (url_of_parts_no_hash s n p q Hwf))
        as (Hs & Hn & Hp & Hpa & Hq).
      rewrite <- Hbase at 2. unfold _normalize_url.
      now rewrite Hs, Hn, Hp, Hpa, Hq.
    - now rewrite string_app_nil_r. }
  intros Hwf. split; [now apply Hkey|].
  intros q' f' Hwf' Hne E. apply Hne.
  rewrite (Hkey q' f' Hwf'), (Hkey q f Hwf) in E.
  unfold url_of_parts in E.
  do 4 apply string_app_inv_head in E.
  change (Py.truthy EmptyString) with false in E. cbv iota in E.
  rewrite !string_app_nil_r in E.
  destruct q' as [|c' q'], q as [|c q]; cbn in E;
    [reflexivity | discriminate E | discriminate E | congruence].
Qed.

Lemma normalize_keeps_well_formed_url_witness :
  wf_parts "https" "maxroll.gg" "/d4/build-guides" "page=2" = true
  /\ _normalize_url "https://maxroll.gg/d4/build-guides?page=2#comments"
     = "https://maxroll.gg/d4/build-guides?page=2".
Proof.
  split; [reflexivity|].
  exact (proj1 (normalize_keeps_well_formed_url "https" "maxroll.gg"
                  "/d4/build-guides" "page=2" "comments" eq_refl)).
Defined.

(** The dedup key of [dedupe.py] is scheme, network location and path
    only: for well-formed parts it does not depend on the query string or
    on the fragment, so two URLs that differ there fall into one group. *)
Theorem dedupe_key_drops_query (s n p q f q' f' : string) :
  wf_parts s n p q = true ->
  wf_parts s n p q' = true ->
  normalize_url (url_of_parts s n p q f) = s +:+ "://" +:+ n +:+ p
  /\ normalize_url (url_of_parts s n p q f)
     = normalize_url (url_of_parts s n p q' f').
Proof.
  assert (Hkey : forall q f, wf_parts s n p q = true ->
            normalize_url (url_of_parts s n p q f) = s +:+ "://" +:+ n +:+ p).
  { clear. intros q f Hwf.
    assert (Hbase : normalize_url (url_of_parts s n p q EmptyString)
                    = s +:+ "://" +:+ n +:+ p).
    { unfold normalize_url. now rewrite (urlparse_of_parts s n p q Hwf). }
    rewrite url_of_parts_fragment. destruct (Py.truthy f).
    - destruct (urlparse_fragment _ f (url_of_parts_no_hash s n p q Hwf))
        as (Hs & Hn & Hp & _).
      rewrite <- Hbase. unfold normalize_url. now rewrite Hs, Hn, Hp.
    - now rewrite string_app_nil_r. }
  intros Hwf Hwf'. split; [now apply Hkey|].
  now rewrite !Hkey.
Qed.

Lemma dedupe_key_drops_query_witness :
  wf_parts "https" "maxroll.gg" "/d4/news" "page=1" = true
  /\ wf_parts "https" "maxroll.gg" "/d4/news" "page=2" = true
  /\ normalize_url "https://maxroll.gg/d4/news?page=1"
     = normalize_url "https://maxroll.gg/d4/news?page=2#latest".
Proof.
  split; [reflexivity|]. split; [reflexivity|].
  exact (proj2 (dedupe_key_drops_query "https" "maxroll.gg" "/d4/news"
                  "page=1" "" "page=2" "latest" eq_refl eq_refl)).
Defined.

(** ** The scope filter at the other depths *)

(** With a filter depth of 1 the rule is the first non-empty path segment
    of the seed, and a URL is in scope exactly when its first non-empty
    path segment is the rule. *)
Theorem scope_filter_depth_1 (sp : Spider) (seed u pf : string) :
  filter_depth sp = 1 ->
  _get_path_filter 1 seed = Some pf ->
  path_filter sp = Some pf ->
  (exists rest, path_parts seed = pf :: rest)
  /\ (_matches_filter sp u = true <-> exists rest, path_parts u = pf :: rest).
Proof.
  intros Hd Hget Hpf. unfold _get_path_filter in Hget. simpl in Hget.
  destruct (path_parts seed) as [|p ps] eqn:Ep; [discriminate|].
  injection Hget as ->. split; [now exists ps|].
  assert (Htruthy : Py.truthy pf = true).
  { pose proof (path_parts_truthy seed) as H. rewrite Ep in H.
    now apply Forall_cons in H as [H _]. }
  unfold _matches_filter. rewrite Hpf, Htruthy, Hd. simpl.
  destruct (path_parts u) as [|x xs].
  - split; [discriminate | intros [rest H]; discriminate].
  - rewrite String.eqb_eq. split.
    + intros ->. now exists xs.
    + intros [rest H]. now injection H.
Qed.

Lemma scope_filter_depth_1_witness :
  let sp := init_spider (Some "https://maxroll.gg/d4/getting-started/page")
              (Some 1) None None in
  (filter_depth sp = 1
   /\ _get_path_filter 1 "https://maxroll.gg/d4/getting-started/page"
      = Some "d4"
   /\ path_filter sp = Some "d4")
  /\ _matches_filter sp "https://maxroll.gg/d4/other" = true.
Proof.
  cbv zeta. split; [now repeat split|].
  apply (proj2 (scope_filter_depth_1
    (init_spider (Some "https://maxroll.gg/d4/getting-started/page")
       (Some 1) None None)
    "https://maxroll.gg/d4/getting-started/page"
    "https://maxroll.gg/d4/other" "d4" eq_refl eq_refl eq_refl)).
  now exists ["other"].
Defined.

(** The first start URL always passes the filter [__init__] derives from
    it, whatever the filter depth. *)
Theorem seed_is_in_scope (start : option string)
  (fd md mp : option Z) (first : string) (rest : list string) :
  start_urls (init_spider start fd md mp) = first :: rest ->
  _matches_filter (init_spider start fd md mp) first = true.
Proof.
  unfold init_spider.
  set (urls := match start with
               | Some s => if Py.truthy s then Py.split "," s
                           else default_start_urls
               | None => default_start_urls
               end).
  cbn [start_urls]. intros Hurls. rewrite Hurls.
  unfold _matches_filter. cbn [path_filter filter_depth].
  set (d := default 1 fd).
  destruct (0 <? d) eqn:Hpos; [|reflexivity].
  apply Z.ltb_lt in Hpos.
  destruct (_get_path_filter d first) as [pf|] eqn:Hget; [|reflexivity].
  destruct (Py.truthy pf) eqn:Ht; [|reflexivity]. simpl.
  destruct (Z.eqb_spec d 0) as [E0|_]; [lia|].
  unfold _get_path_filter in Hget.
  destruct (Z.eqb_spec d 0) as [E0|_]; [lia|].
  destruct (Z.eqb_spec d 1) as [E1|_].
  - destruct (path_parts first) as [|p ps]; [discriminate|].
    injection Hget as ->. apply String.eqb_refl.
  - destruct (d <=? Z.of_nat (length (path_parts first))).
    + injection Hget as <-. apply String.eqb_refl.
    + destruct (path_parts first) as [|p ps]; [discriminate|].
      injection Hget as <-. rewrite String.eqb_refl. apply orb_true_r.
Qed.

Lemma seed_is_in_scope_witness :
  start_urls (init_spider
                (Some "https://maxroll.gg/d4/build-guides,https://maxroll.gg/d4/news")
                (Some 3) None None)
  = ["https://maxroll.gg/d4/build-guides"; "https://maxroll.gg/d4/news"]
  /\ _matches_filter
       (init_spider
          (Some "https://maxroll.gg/d4/build-guides,https://maxroll.gg/d4/news")
          (Some 3) None None)
       "https://maxroll.gg/d4/build-guides" = true.
Proof.
  split; [reflexivity|].
  exact (seed_is_in_scope
           (Some "https://maxroll.gg/d4/build-guides,https://maxroll.gg/d4/news")
           (Some 3) None None "https://maxroll.gg/d4/build-guides"
           ["https://maxroll.gg/d4/news"] eq_refl).
Defined.

(** Filtering is off - every URL is in scope - when the filter depth is
    zero or negative, and when the first start URL has no path segment. *)
Theorem no_rule_no_filter (start : option string)
  (fd md mp : option Z) (u : string) :
  default 1 fd <= 0
  \/ (exists first rest,
        start_urls (init_spider start fd md mp) = first :: rest
        /\ path_parts first = []) ->
  path_filter (init_spider start fd md mp) = None
  /\ _matches_filter (init_spider start fd md mp) u = true.
Proof.
  intros H.
  assert (Hnone : path_filter (init_spider start fd md mp) = None).
  { unfold init_spider in *. cbn [path_filter start_urls] in *.
    destruct H as [H|(first & rest & Hurls & Hparts)].
    - destruct (match start with
                | Some s => if Py.truthy s then Py.split "," s
                            else default_start_urls
                | None => default_start_urls
                end); [reflexivity|].
      now rewrite (proj2 (Z.ltb_ge 0 (default 1 fd))).
    - rewrite Hurls. destruct (0 <? default 1 fd) eqn:Hpos; [|reflexivity].
      apply Z.ltb_lt in Hpos.
      unfold _get_path_filter. rewrite Hparts.
      destruct (default 1 fd =? 0); [reflexivity|].
      destruct (default 1 fd =? 1); [reflexivity|].
      destruct (Z.leb_spec (default 1 fd)
                  (Z.of_nat (length ([] : list string)))) as [Hle|_];
        [simpl in Hle; lia | reflexivity]. }
  split; [exact Hnone|]. unfold _matches_filter. now rewrite Hnone.
Qed.

Lemma no_rule_no_filter_witness :
  (exists first rest,
     start_urls (init_spider (Some "https://maxroll.gg/") (Some 2) None None)
     = first :: rest
     /\ path_parts first = [])
  /\ _matches_filter
       (init_spider (Some "https://maxroll.gg/") (Some 2) None None)
       "https://maxroll.gg/poe/anything" = true.
Proof.
  split; [now exists "https://maxroll.gg/", []|].
  apply (no_rule_no_filter (Some "https://maxroll.gg/") (Some 2) None None
           "https://maxroll.gg/poe/anything").
  right. now exists "https://maxroll.gg/", [].
Defined.

(** ** What the link loop yields and counts *)

(** One round of the link loop, read from its result. *)
Lemma follow_link_inv urljoin sp base depth st ls href st1 ls1 req :
  follow_link urljoin sp base depth st ls href = (st1, ls1, req) ->
  let full_url := urljoin base href in
  let n := _normalize_url full_url in
  let counted := Py.truthy href && followable full_url in
  (* the sets *)
  (urls_found st1
   = (if counted then urls_found st ∪ {[n]} else urls_found st)
   /\ urls_scraped st1
      = match req with
        | Some _ => urls_scraped st ∪ {[n]}
        | None => urls_scraped st
        end)
  (* the request *)
  /\ (forall q, req = Some q ->
        q = mkRequest full_url (depth + 1)
        /\ counted = true
        /\ _matches_filter sp full_url = true
        /\ n ∉ urls_scraped st)
  (* the counters *)
  /\ (links_followed ls1
      = links_followed ls + match req with Some _ => 1 | None => 0 end
      /\ pages_filtered st1 - pages_filtered st
         = links_filtered ls1 - links_filtered ls
      /\ duplicate_urls_skipped st1 - duplicate_urls_skipped st
         = links_duplicate ls1 - links_duplicate ls
      /\ (links_followed ls1 + links_filtered ls1 + links_duplicate ls1)
         - (links_followed ls + links_filtered ls + links_duplicate ls)
         = (if counted then 1 else 0)
      /\ 0 <= links_filtered ls1 - links_filtered ls
      /\ 0 <= links_duplicate ls1 - links_duplicate ls
      /\ links_new_found ls1 - links_new_found ls
         = Z.of_nat (size (urls_found st1)) - Z.of_nat (size (urls_found st))).
Proof.
  cbv zeta. destruct (Py.truthy href) eqn:Hh.
  2:{ unfold follow_link. rewrite Hh. intros H.
      injection H as <- <- <-. simpl.
      repeat split; try lia; discriminate. }
  destruct (followable (urljoin base href)) eqn:Hf.
  2:{ unfold follow_link. rewrite Hh, Hf. intros H.
      injection H as <- <- <-. simpl.
      repeat split; try lia; discriminate. }
  rewrite (follow_link_followable _ _ _ _ _ _ _ Hh Hf). cbv zeta.
  set (n := _normalize_url (urljoin base href)).
  assert (Hfound :
    (if bool_decide (n ∈ urls_found st) then urls_found st
     else urls_found st ∪ {[n]}) = urls_found st ∪ {[n]}).
  { destruct (bool_decide (n ∈ urls_found st)) eqn:Hfd; [|reflexivity].
    apply bool_decide_eq_true in Hfd. apply leibniz_equiv. set_solver. }
  assert (Hsize :
    (if bool_decide (n ∈ urls_found st) then links_new_found ls
     else links_new_found ls + 1) - links_new_found ls
    = Z.of_nat (size (urls_found st ∪ {[n]}))
      - Z.of_nat (size (urls_found st))).
  { destruct (bool_decide (n ∈ urls_found st)) eqn:Hfd.
    - apply bool_decide_eq_true in Hfd.
      replace (urls_found st ∪ {[n]}) with (urls_found st)
        by (apply leibniz_equiv; set_solver). lia.
    - apply bool_decide_eq_false in Hfd.
      rewrite size_union by set_solver. rewrite size_singleton. lia. }
  rewrite Hfound.
  destruct (_matches_filter sp (urljoin base href)) eqn:Hm.
  - destruct (bool_decide (n ∈ urls_scraped st)) eqn:Hsc; intros H;
      injection H as <- <- <-; simpl.
    + repeat split; try lia; try discriminate; try exact Hsize.
    + apply bool_decide_eq_false in Hsc.
      split; [now split|]. split.
      * intros q Hq. injection Hq as <-. now repeat split.
      * repeat split; try lia; try exact Hsize.
  - intros H. injection H as <- <- <-. simpl.
    repeat split; try lia; try discriminate; try exact Hsize.
Qed.

(** The whole link loop of a page, read from its result. *)
Lemma follow_links_inv urljoin sp base depth hs :
  forall st ls st' ls' reqs,
  follow_links urljoin sp base depth st ls hs = (st', ls', reqs) ->
  let counted := fun h => Py.truthy h && followable (urljoin base h) in
  let norm := fun q => _normalize_url (req_url q) in
  urls_found st'
  = urls_found st
    ∪ list_to_set (map (fun h => _normalize_url (urljoin base h))
                     (List.filter counted hs))
  /\ urls_scraped st' = urls_scraped st ∪ list_to_set (map norm reqs)
  /\ (forall q, q ∈ reqs ->
        req_depth q = depth + 1
        /\ (exists h, h ∈ hs /\ counted h = true
                      /\ req_url q = urljoin base h)
        /\ _matches_filter sp (req_url q) = true
        /\ norm q ∉ urls_scraped st)
  /\ NoDup (map norm reqs)
  /\ (links_followed ls' = links_followed ls + Z.of_nat (length reqs)
      /\ pages_filtered st' - pages_filtered st
         = links_filtered ls' - links_filtered ls
      /\ duplicate_urls_skipped st' - duplicate_urls_skipped st
         = links_duplicate ls' - links_duplicate ls
      /\ (links_followed ls' + links_filtered ls' + links_duplicate ls')
         - (links_followed ls + links_filtered ls + links_duplicate ls)
         = Z.of_nat (length (List.filter counted hs))
      /\ 0 <= links_filtered ls' - links_filtered ls
      /\ 0 <= links_duplicate ls' - links_duplicate ls
      /\ links_new_found ls' - links_new_found ls
         = Z.of_nat (size (urls_found st'))
           - Z.of_nat (size (urls_found st))).
Proof.
  induction hs as [|href hs IH]; intros st ls st' ls' reqs Hrun; cbv zeta.
  - simpl in Hrun. injection Hrun as <- <- <-. simpl.
    split; [apply leibniz_equiv; set_solver|].
    split; [apply leibniz_equiv; set_solver|].
    split; [intros q Hq; now apply elem_of_nil in Hq|].
    split; [constructor|]. repeat split; lia.
  - simpl in Hrun.
    destruct (follow_link urljoin sp base depth st ls href)
      as [[st1 ls1] req] eqn:E1.
    destruct (follow_links urljoin sp base depth st1 ls1 hs)
      as [[st2 ls2] reqs'] eqn:E2.
    injection Hrun as <- <- <-.
    pose proof (follow_link_inv _ _ _ _ _ _ _ _ _ _ E1) as H1.
    cbv zeta in H1. destruct H1 as ((Hf1 & Hs1) & Hreq & Hc1).
    specialize (IH _ _ _ _ _ E2). cbv zeta in IH.
    destruct IH as (Hf2 & Hs2 & Hq2 & Hnd2 & Hc2).
    assert (Hsub : urls_scraped st ⊆ urls_scraped st1).
    { rewrite Hs1. destruct req; set_solver. }
    split; [|split; [|split; [|split]]].
    + rewrite Hf2, Hf1. cbn [List.filter].
      destruct (Py.truthy href && followable (urljoin base href));
        simpl; apply leibniz_equiv; set_solver.
    + rewrite Hs2, Hs1. clear -Hreq.
      destruct req as [q0|]; [|reflexivity].
      destruct (Hreq q0 eq_refl) as (-> & _). clear Hreq.
      cbn [map]. rewrite list_to_set_cons. cbn [req_url].
      generalize (_normalize_url (urljoin base href)).
      generalize (list_to_set
                    (map (fun q => _normalize_url (req_url q)) reqs')
                  : gset string).
      intros X n. apply leibniz_equiv. set_solver.
    + intros q Hq.
      assert (Hcase : req = Some q \/ q ∈ reqs').
      { destruct req; [|now right].
        apply elem_of_cons in Hq as [->|Hq]; [now left | now right]. }
      destruct Hcase as [Hq0|Hq'].
      * destruct (Hreq q Hq0) as (-> & Hcnt & Hm & Hn). simpl.
        split; [reflexivity|]. split; [|now split].
        exists href. split; [apply list_elem_of_here | now split].
      * destruct (Hq2 q Hq') as (Hd & (h & Hh & Hcnt & Hu) & Hm & Hn).
        split; [exact Hd|]. split; [|split; [exact Hm|set_solver]].
        exists h. split; [now apply list_elem_of_further | now split].
    + destruct req as [q0|]; [|exact Hnd2]. simpl.
      apply NoDup_cons. split; [|exact Hnd2].
      intros Hin. apply list_elem_of_fmap in Hin as (q & Hq & Hqin).
      destruct (Hq2 q Hqin) as (_ & _ & _ & Hn). apply Hn.
      rewrite <- Hq, Hs1.
      destruct (Hreq q0 eq_refl) as (-> & _). simpl. set_solver.
    + destruct Hc1 as (A1 & A2 & A3 & A4 & A5 & A6 & A7).
      destruct Hc2 as (B1 & B2 & B3 & B4 & B5 & B6 & B7).
      cbn [List.filter].
      assert (Hlen :
        Z.of_nat (length
          (if Py.truthy href && followable (urljoin base href)
           then href :: List.filter
                  (fun h => Py.truthy h && followable (urljoin base h)) hs
           else List.filter
                  (fun h => Py.truthy h && followable (urljoin base h)) hs))
        = (if Py.truthy href && followable (urljoin base href)
           then 1 else 0)
          + Z.of_nat (length
              (List.filter
                 (fun h => Py.truthy h && followable (urljoin base h)) hs))).
      { destruct (Py.truthy href && followable (urljoin base href));
          simpl length; lia. }
      rewrite Hlen.
      assert (Hreqs :
        Z.of_nat (length match req with
                         | Some q => q :: reqs'
                         | None => reqs'
                         end)
        = match req with Some _ => 1 | None => 0 end
          + Z.of_nat (length reqs')).
      { destruct req; simpl length; lia. }
      rewrite Hreqs. repeat split; lia.
Qed.

(** What [parse] does to the two sets and which requests it yields, from
    the link loop. *)
Lemma parse_inv urljoin sp r st st' reqs :
  parse urljoin sp r st = (st', reqs) ->
  (reqs = [] /\ urls_found st' = urls_found st
   /\ urls_scraped st' = urls_scraped st)
  \/ exists st1 ls',
       urls_found st1 = urls_found st
       /\ urls_scraped st1 = urls_scraped st
       /\ follow_links urljoin sp (resp_url r) (current_depth r) st1
            (mkLinkStats 0 0 0 0) (hrefs r) = (st', ls', reqs).
Proof.
  unfold parse. intros H.
  destruct (parse_head_sets urljoin sp r st) as [Hf Hs].
  destruct (parse_head urljoin sp r st) as [st1 [|]]; simpl in Hf, Hs.
  - right.
    destruct (follow_links urljoin sp (resp_url r) (current_depth r) st1
                (mkLinkStats 0 0 0 0) (hrefs r)) as [[st2 ls2] reqs2] eqn:E.
    injection H as <- <-. exists st1, ls2.
    split; [exact Hf|]. split; [exact Hs | exact E].
  - left. injection H as <- <-.
    split; [reflexivity|]. split; [exact Hf | exact Hs].
Qed.

(** Every call of [response.follow] that [parse] yields passes, as
    [full_url], the resolved URL of a non-empty [href] of the page that
    passes the test of line 315 and the scope filter, and passes the page's
    depth plus one.  The normalized form of that argument was not in the
    scraped set before [parse] ran and is in it afterwards, and the
    arguments of the calls of one run of [parse] have pairwise different
    normalized forms.  (This is about the string the spider passes, the one
    it records; the URL of the request Scrapy builds from it is not
    covered.) *)
Theorem parse_requests_in_scope
  (urljoin : string -> string -> string) (sp : Spider) (r : Response)
  (st st' : State) (reqs : list Request) :
  parse urljoin sp r st = (st', reqs) ->
  NoDup (map (fun q => _normalize_url (req_url q)) reqs)
  /\ forall q, q ∈ reqs ->
       req_depth q = current_depth r + 1
       /\ (exists h, h ∈ hrefs r /\ Py.truthy h = true
                     /\ req_url q = urljoin (resp_url r) h)
       /\ followable (req_url q) = true
       /\ _matches_filter sp (req_url q) = true
       /\ (_normalize_url (req_url q) ∉ urls_scraped st)
       /\ _normalize_url (req_url q) ∈ urls_scraped st'.
Proof.
  intros H. destruct (parse_inv _ _ _ _ _ _ H)
    as [(-> & _)|(st1 & ls' & Hf & Hs & Hloop)].
  - split; [constructor|]. intros q Hq. now apply elem_of_nil in Hq.
  - pose proof (follow_links_inv _ _ _ _ _ _ _ _ _ _ Hloop) as Hinv.
    cbv zeta in Hinv. destruct Hinv as (_ & Hsc & Hq & Hnd & _).
    split; [exact Hnd|]. intros q Hin.
    destruct (Hq q Hin) as (Hd & (h & Hh & Hcnt & Hu) & Hm & Hn).
    apply andb_true_iff in Hcnt as [Ht Hfo].
    split; [exact Hd|]. split; [now exists h|].
    split; [now rewrite Hu|]. split; [exact Hm|].
    split; [now rewrite <- Hs|].
    rewrite Hsc. apply elem_of_union_r, elem_of_list_to_set.
    now apply (list_elem_of_fmap_2 (fun q => _normalize_url (req_url q))).
Qed.

Lemma parse_requests_in_scope_witness :
  let urljoin := fun (_ href : string) => href in
  let sp := init_spider (Some "https://maxroll.gg/d4/start") (Some 1)
              None None in
  let page := mkResponse "https://maxroll.gg/d4/start" None (Some "Start")
                None empty_content []
                ["https://maxroll.gg/d4/builds"; "https://maxroll.gg/poe/x";
                 "https://maxroll.gg/d4/builds#top"] in
  parse urljoin sp page (init_state sp)
  = (fst (parse urljoin sp page (init_state sp)),
     snd (parse urljoin sp page (init_state sp)))
  /\ NoDup (map (fun q => _normalize_url (req_url q))
              (snd (parse urljoin sp page (init_state sp)))).
Proof.
  cbv zeta. split; [apply surjective_pairing|].
  exact (proj1 (parse_requests_in_scope _ _ _ _ _ _
                  (surjective_pairing _))).
Defined.

(** [parse] never removes a URL from either set.  The scraped set grows by
    exactly the normalized forms of the [full_url] arguments [parse] passes
    to [response.follow] (the strings passed, not the URLs of the requests
    Scrapy builds from them); the discovered set grows only by normalized
    URLs of links of the page that pass the test of line 315. *)
Theorem parse_grows_sets
  (urljoin : string -> string -> string) (sp : Spider) (r : Response)
  (st st' : State) (reqs : list Request) :
  parse urljoin sp r st = (st', reqs) ->
  urls_found st ⊆ urls_found st'
  /\ urls_scraped st ⊆ urls_scraped st'
  /\ urls_scraped st'
     = urls_scraped st
       ∪ list_to_set (map (fun q => _normalize_url (req_url q)) reqs)
  /\ forall x, x ∈ urls_found st' ->
       x ∈ urls_found st
       \/ exists h, h ∈ hrefs r /\ Py.truthy h = true
                    /\ followable (urljoin (resp_url r) h) = true
                    /\ x = _normalize_url (urljoin (resp_url r) h).
Proof.
  intros H. destruct (parse_inv _ _ _ _ _ _ H)
    as [(-> & Hf & Hs)|(st1 & ls' & Hf & Hs & Hloop)].
  - rewrite Hf, Hs. split; [reflexivity|]. split; [reflexivity|].
    split; [apply leibniz_equiv; set_solver | now left].
  - pose proof (follow_links_inv _ _ _ _ _ _ _ _ _ _ Hloop) as Hinv.
    cbv zeta in Hinv. destruct Hinv as (Hfo & Hsc & _).
    rewrite Hf in Hfo. rewrite Hs in Hsc.
    split; [rewrite Hfo; set_solver|].
    split; [rewrite Hsc; set_solver|]. split; [exact Hsc|].
    intros x Hx. rewrite Hfo in Hx.
    apply elem_of_union in Hx as [Hx|Hx]; [now left | right].
    apply elem_of_list_to_set, list_elem_of_fmap in Hx as (h & -> & Hh).
    apply list_elem_of_In, List.filter_In in Hh as [Hh Hcnt].
    apply andb_true_iff in Hcnt as [Ht Hfol].
    exists h. split; [now apply list_elem_of_In | now repeat split].
Qed.

Lemma parse_grows_sets_witness :
  let urljoin := fun (_ href : string) => href in
  let sp := init_spider (Some "https://maxroll.gg/d4/start") (Some 1)
              None None in
  let page := mkResponse "https://maxroll.gg/d4/start" None (Some "Start")
                None empty_content []
                ["https://maxroll.gg/d4/builds"; "https://maxroll.gg/poe/x"] in
  parse urljoin sp page (init_state sp)
  = (fst (parse urljoin sp page (init_state sp)),
     snd (parse urljoin sp page (init_state sp)))
  /\ urls_found (init_state sp)
     ⊆ urls_found (fst (parse urljoin sp page (init_state sp))).
Proof.
  cbv zeta. split; [apply surjective_pairing|].
  exact (proj1 (parse_grows_sets _ _ _ _ _ _ (surjective_pairing _))).
Defined.

Lemma triple_eta {A B C : Type} (p : A * B * C) :
  p = (fst (fst p), snd (fst p), snd p).
Proof. now destruct p as [[? ?] ?]. Qed.

(** The counters of the link loop add up.  Starting from zero, the loop
    counts one request per followed link; the run-wide counters
    [pages_filtered] and [duplicate_urls_skipped] move by the page's
    filtered and duplicate counts; every link that passes the test of
    line 315 is counted exactly once as followed, filtered or duplicate;
    and the links newly found are exactly the growth of the discovered
    set. *)
Theorem link_loop_accounting
  (urljoin : string -> string -> string) (sp : Spider) (base : string)
  (depth : Z) (hs : list string) (st st' : State) (ls' : LinkStats)
  (reqs : list Request) :
  follow_links urljoin sp base depth st (mkLinkStats 0 0 0 0) hs
  = (st', ls', reqs) ->
  links_followed ls' = Z.of_nat (length reqs)
  /\ links_filtered ls' = pages_filtered st' - pages_filtered st
  /\ links_duplicate ls' = duplicate_urls_skipped st' - duplicate_urls_skipped st
  /\ 0 <= links_filtered ls' /\ 0 <= links_duplicate ls'
  /\ links_followed ls' + links_filtered ls' + links_duplicate ls'
     = Z.of_nat (length (List.filter
                           (fun h => Py.truthy h
                                     && followable (urljoin base h)) hs))
  /\ links_new_found ls'
     = Z.of_nat (size (urls_found st')) - Z.of_nat (size (urls_found st)).
Proof.
  intros H. pose proof (follow_links_inv _ _ _ _ _ _ _ _ _ _ H) as Hinv.
  cbv zeta in Hinv.
  destruct Hinv as (_ & _ & _ & _ & A1 & A2 & A3 & A4 & A5 & A6 & A7).
  simpl in *. repeat split; lia.
Qed.

Lemma link_loop_accounting_witness :
  let urljoin := fun (_ href : string) => href in
  let sp := init_spider (Some "https://maxroll.gg/d4/start") (Some 1)
              None None in
  let hs := ["https://maxroll.gg/d4/builds"; "https://maxroll.gg/poe/x";
             "https://maxroll.gg/d4/start"; "mailto:team@maxroll.gg"] in
  let out := follow_links urljoin sp "https://maxroll.gg/d4/start" 0
               (init_state sp) (mkLinkStats 0 0 0 0) hs in
  out = (fst (fst out), snd (fst out), snd out)
  /\ links_followed (snd (fst out)) = Z.of_nat (length (snd out)).
Proof.
  cbv zeta. split; [apply triple_eta|].
  exact (proj1 (link_loop_accounting _ _ _ _ _ _ _ _ _ (triple_eta _))).
Defined.

(** ** The URL-only tools *)

Lemma group_key_url_key (item : Item) :
  has_url item = true -> group_key item = Some (url_key item).
Proof.
  unfold has_url, group_key, url_key, item_url.
  now destruct (url item).
Qed.

Lemma group_key_no_url (item : Item) :
  has_url item = false <-> group_key item = None.
Proof.
  unfold has_url, group_key. destruct (url item); simpl; split; congruence.
Qed.

Lemma omap_group_key (items : list Item) :
  omap group_key items = map url_key (List.filter has_url items).
Proof.
  induction items as [|item items IH]; [reflexivity|].
  rewrite omap_cons_eq. cbn [List.filter].
  destruct (has_url item) eqn:Hu.
  - rewrite (group_key_url_key item Hu). simpl. now rewrite IH.
  - apply group_key_no_url in Hu. now rewrite Hu.
Qed.

(** The loop of [deduplicate_by_url] from any state: what it appends, what
    it remembers and what it counts. *)
Lemma simple_scan_inv (data : list Item) :
  forall seen out d,
  exists kept,
    fold_left DedupeSimple.keep_first data (seen, out, d)
    = (seen ∪ list_to_set (omap group_key kept), out ++ kept,
       d + Z.of_nat (length data) - Z.of_nat (length kept))
    /\ sublist kept data
    /\ List.filter has_url kept
       = first_by url_key seen (List.filter has_url data)
    /\ (forall r, r ∈ data -> has_url r = false -> r ∈ kept).
Proof.
  induction data as [|item data IH]; intros seen out d.
  - exists []. simpl. split; [|split; [constructor|split; [reflexivity|]]].
    + f_equal; [f_equal|lia].
      * apply leibniz_equiv. set_solver.
      * now rewrite app_nil_r.
    + intros r Hr. now apply elem_of_nil in Hr.
  - cbn [fold_left]. unfold DedupeSimple.keep_first at 2.
    destruct (url item) as [u|] eqn:Hu.
    + assert (Hhas : has_url item = true) by (unfold has_url; now rewrite Hu).
      assert (Hkey : url_key item = DedupeSimple.normalize_url u).
      { unfold url_key, item_url. now rewrite Hu. }
      cbv zeta. rewrite <- Hkey.
      destruct (bool_decide (url_key item ∉ seen)) eqn:Hd.
      * apply bool_decide_eq_true in Hd.
        destruct (IH (seen ∪ {[url_key item]}) (out ++ [item]) d)
          as (kept & Hfold & Hsub & Hfil & Hno).
        exists (item :: kept). rewrite Hfold.
        split; [|split; [now constructor|split]].
        -- rewrite omap_cons_eq.
           rewrite (group_key_url_key item Hhas). cbn [length].
           f_equal; [f_equal|lia].
           ++ rewrite list_to_set_cons. apply leibniz_equiv. set_solver.
           ++ now rewrite <- app_assoc.
        -- cbn [List.filter first_by]. rewrite Hhas. cbn [first_by].
           rewrite bool_decide_eq_false_2 by exact Hd. now rewrite Hfil.
        -- intros r Hr Hnu. apply elem_of_cons in Hr as [->|Hr];
             [congruence|]. apply list_elem_of_further. now apply Hno.
      * apply bool_decide_eq_false in Hd.
        assert (Hin : url_key item ∈ seen).
        { destruct (decide (url_key item ∈ seen)) as [H|H]; [exact H|].
          now elim Hd. }
        destruct (IH seen out (d + 1)) as (kept & Hfold & Hsub & Hfil & Hno).
        exists kept. rewrite Hfold.
        split; [|split; [now constructor|split]].
        -- cbn [length]. f_equal. lia.
        -- cbn [List.filter]. rewrite Hhas. cbn [first_by].
           rewrite bool_decide_eq_true_2 by exact Hin. exact Hfil.
        -- intros r Hr Hnu. apply elem_of_cons in Hr as [->|Hr];
             [congruence|]. now apply Hno.
    + assert (Hhas : has_url item = false)
        by (unfold has_url; now rewrite Hu).
      destruct (IH seen (out ++ [item]) d)
        as (kept & Hfold & Hsub & Hfil & Hno).
      exists (item :: kept). rewrite Hfold.
      split; [|split; [now constructor|split]].
      * rewrite omap_cons_eq.
        rewrite (proj1 (group_key_no_url item) Hhas). cbn [length].
        f_equal; [f_equal|lia]. now rewrite <- app_assoc.
      * cbn [List.filter]. rewrite Hhas. exact Hfil.
      * intros r Hr Hnu. apply elem_of_cons in Hr as [->|Hr].
        -- apply list_elem_of_here.
        -- apply list_elem_of_further. now apply Hno.
Qed.

Lemma gset_union_empty_r (X : gset string) : X ∪ ∅ = X.
Proof. apply leibniz_equiv. set_solver. Qed.

Lemma gset_union_empty_l (X : gset string) : ∅ ∪ X = X.
Proof. apply leibniz_equiv. set_solver. Qed.

Lemma gset_union_cons (X : gset string) (k : string) (l : list string) :
  X ∪ {[k]} ∪ list_to_set l = X ∪ list_to_set (k :: l).
Proof. rewrite list_to_set_cons. apply leibniz_equiv. set_solver. Qed.

(** A list the loop of [deduplicate_by_url] finds nothing to remove
    from. *)
Lemma simple_scan_fixed (items : list Item) :
  forall seen out d,
  NoDup (omap group_key items) ->
  (forall k, k ∈ omap group_key items -> k ∉ seen) ->
  fold_left DedupeSimple.keep_first items (seen, out, d)
  = (seen ∪ list_to_set (omap group_key items), out ++ items, d).
Proof.
  induction items as [|item items IH]; intros seen out d Hnd Hfresh.
  - simpl. now rewrite app_nil_r, gset_union_empty_r.
  - cbn [fold_left]. unfold DedupeSimple.keep_first at 2.
    rewrite omap_cons_eq in Hnd, Hfresh. rewrite omap_cons_eq.
    destruct (url item) as [u|] eqn:Hu.
    + assert (Hhas : has_url item = true) by (unfold has_url; now rewrite Hu).
      assert (Hkey : url_key item = DedupeSimple.normalize_url u).
      { unfold url_key, item_url. now rewrite Hu. }
      rewrite (group_key_url_key item Hhas) in Hnd, Hfresh.
      rewrite (group_key_url_key item Hhas).
      apply NoDup_cons in Hnd as [Hnin Hnd].
      cbv zeta. rewrite <- Hkey.
      rewrite bool_decide_eq_true_2 by apply Hfresh, list_elem_of_here.
      rewrite IH; [|exact Hnd|].
      * now rewrite gset_union_cons, <- app_assoc.
      * intros k Hk Hin. apply elem_of_union in Hin as [Hin|Hin].
        -- apply (Hfresh k); [now apply list_elem_of_further | exact Hin].
        -- apply elem_of_singleton in Hin. subst k. now apply Hnin.
    + assert (Hhas : has_url item = false)
        by (unfold has_url; now rewrite Hu).
      rewrite (proj1 (group_key_no_url item) Hhas) in Hnd, Hfresh.
      rewrite (proj1 (group_key_no_url item) Hhas).
      rewrite IH; [|exact Hnd|exact Hfresh].
      now rewrite <- app_assoc.
Qed.

Lemma filter_split {A} (P : A -> bool) (l : list A) :
  forall pre post x,
  List.filter P l = pre ++ x :: post ->
  exists pre' post', l = pre' ++ x :: post' /\ List.filter P pre' = pre.
Proof.
  induction l as [|a l IH]; intros pre post x H; simpl in H.
  - now destruct pre.
  - destruct (P a) eqn:Pa.
    + destruct pre as [|p pre]; simpl in H; injection H as -> H.
      * now exists [], l.
      * destruct (IH pre post x H) as (pre' & post' & -> & Hf).
        exists (p :: pre'), post'. split; [reflexivity|].
        simpl. now rewrite Pa, Hf.
    + destruct (IH pre post x H) as (pre' & post' & -> & Hf).
      exists (a :: pre'), post'. split; [reflexivity|].
      simpl. now rewrite Pa.
Qed.

Lemma elem_of_filter_bool {A} (P : A -> bool) (l : list A) (x : A) :
  x ∈ List.filter P l <-> x ∈ l /\ P x = true.
Proof. rewrite !list_elem_of_In. apply List.filter_In. Qed.

(** The result of [deduplicate_by_url], read from the loop. *)
Lemma simple_result (data : list Item) (verbose : bool) (out : list Item) :
  DedupeSimple.deduplicate_by_url data verbose = Some out ->
  (verbose = true -> data <> [])
  /\ DedupeSimple.scan data
     = (list_to_set (omap group_key out), out,
        Z.of_nat (length data) - Z.of_nat (length out))
  /\ sublist out data
  /\ List.filter has_url out = first_by url_key ∅ (List.filter has_url data)
  /\ (forall r, r ∈ data -> has_url r = false -> r ∈ out).
Proof.
  unfold DedupeSimple.deduplicate_by_url, DedupeSimple.scan.
  destruct (simple_scan_inv data ∅ [] 0)
    as (kept & Hfold & Hsub & Hfil & Hno).
  rewrite Hfold. cbn [app].
  destruct (verbose && (length data =? 0)%nat) eqn:Hv; [discriminate|].
  intros H. injection H as <-.
  split; [|split; [|now split]].
  - intros -> ->. discriminate Hv.
  - now rewrite gset_union_empty_l.
Qed.

(** [deduplicate_by_url] keeps the records of its input in their order,
    every record without URL among them, and for each normalized URL
    exactly one record, the first of the input that has it (not the
    richest).  The counter [duplicates_removed] is the number of records
    left out. *)
Theorem simple_keeps_first_per_url
  (data : list Item) (verbose : bool) (out : list Item) :
  DedupeSimple.deduplicate_by_url data verbose = Some out ->
  sublist out data
  /\ (forall r, r ∈ data -> url r = None -> r ∈ out)
  /\ NoDup (omap group_key out)
  /\ (forall r, r ∈ out -> has_url r = true ->
        exists pre post,
          data = pre ++ r :: post
          /\ forall y, y ∈ pre -> group_key y <> group_key r)
  /\ (forall x, x ∈ data ->
        exists r, r ∈ out /\ group_key r = group_key x)
  /\ exists seen_urls duplicates_removed,
       DedupeSimple.scan data = (seen_urls, out, duplicates_removed)
       /\ 0 <= duplicates_removed
       /\ Z.of_nat (length data)
          = Z.of_nat (length out) + duplicates_removed.
Proof.
  intros H. destruct (simple_result data verbose out H)
    as (_ & Hscan & Hsub & Hfil & Hno).
  split; [exact Hsub|]. split; [|split; [|split; [|split]]].
  - intros r Hr Hu. apply Hno; [exact Hr|].
    unfold has_url. now rewrite Hu.
  - rewrite omap_group_key, Hfil. apply first_by_NoDup.
  - intros r Hr Hhas.
    assert (Hin : r ∈ List.filter has_url out)
      by now apply elem_of_filter_bool.
    rewrite Hfil in Hin.
    destruct (first_by_first _ _ _ _ Hin) as (pre & post & Heq & Hpre).
    destruct (filter_split _ _ _ _ _ Heq) as (pre' & post' & Hd & Hf).
    exists pre', post'. split; [exact Hd|].
    intros y Hy. rewrite (group_key_url_key r Hhas).
    destruct (has_url y) eqn:Hy'.
    + rewrite (group_key_url_key y Hy'). intros E. injection E as E.
      apply (Hpre y); [|exact E].
      rewrite <- Hf. now apply elem_of_filter_bool.
    + rewrite (proj1 (group_key_no_url y) Hy'). discriminate.
  - intros x Hx. destruct (has_url x) eqn:Hhx.
    + assert (Hin : x ∈ List.filter has_url data)
        by now apply elem_of_filter_bool.
      destruct (first_by_covers url_key _ ∅ x Hin) as [Hc|Hc];
        [now apply not_elem_of_empty in Hc|].
      rewrite <- Hfil in Hc.
      apply list_elem_of_fmap in Hc as (r & Hk & Hr).
      apply elem_of_filter_bool in Hr as [Hr Hhr].
      exists r. split; [exact Hr|].
      now rewrite (group_key_url_key r Hhr), (group_key_url_key x Hhx), Hk.
    + exists x. split; [now apply Hno | reflexivity].
  - eexists _, _. split; [exact Hscan|].
    apply sublist_length in Hsub. lia.
Qed.

Lemma simple_keeps_first_per_url_witness :
  let a := mkItem (Some "https://maxroll.gg/d4/news?page=1") (Some "News")
             (Some empty_content) [] in
  let b := mkItem None (Some "Untitled") None [] in
  let c := mkItem (Some "https://maxroll.gg/d4/news?page=2") (Some "More")
             (Some empty_content) [] in
  DedupeSimple.deduplicate_by_url [a; b; c] true = Some [a; b]
  /\ sublist [a; b] [a; b; c].
Proof.
  intros a b c. split; [reflexivity|].
  exact (proj1 (simple_keeps_first_per_url [a; b; c] true [a; b] eq_refl)).
Defined.

(** [deduplicate_by_url] returns its own output unchanged, in verbose mode
    too: a non-empty input always leaves its first record, so the summary
    never divides by zero on a rerun. *)
Theorem simple_rerun_is_identity
  (data : list Item) (verbose : bool) (out : list Item) :
  DedupeSimple.deduplicate_by_url data verbose = Some out ->
  DedupeSimple.deduplicate_by_url out verbose = Some out.
Proof.
  intros H. destruct (simple_result data verbose out H)
    as (Hne & _ & _ & Hfil & Hno).
  assert (Hnd : NoDup (omap group_key out)).
  { rewrite omap_group_key, Hfil. apply first_by_NoDup. }
  unfold DedupeSimple.deduplicate_by_url, DedupeSimple.scan.
  rewrite simple_scan_fixed;
    [|exact Hnd | intros k _; apply not_elem_of_empty].
  cbn [app]. destruct verbose; [|reflexivity].
  destruct data as [|x data]; [now elim (Hne eq_refl)|].
  destruct out as [|r out]; [|reflexivity]. exfalso.
  destruct (has_url x) eqn:Hx.
  - cbn [List.filter first_by] in Hfil. rewrite Hx in Hfil.
    cbn [first_by] in Hfil.
    rewrite bool_decide_eq_false_2 in Hfil by apply not_elem_of_empty.
    discriminate Hfil.
  - apply (not_elem_of_nil x). apply Hno; [apply list_elem_of_here|exact Hx].
Qed.

Lemma simple_rerun_is_identity_witness :
  let a := mkItem (Some "https://maxroll.gg/d4/news?page=1") (Some "News")
             (Some empty_content) [] in
  let c := mkItem (Some "https://maxroll.gg/d4/news?page=2") (Some "More")
             (Some empty_content) [] in
  DedupeSimple.deduplicate_by_url [a; c; a] true = Some [a]
  /\ DedupeSimple.deduplicate_by_url [a] true = Some [a].
Proof.
  intros a c. split; [reflexivity|].
  exact (simple_rerun_is_identity [a; c; a] true [a] eq_refl).
Defined.

Lemma gset_list_snoc (l : list string) (k : string) :
  (list_to_set (l ++ [k]) : gset string) = list_to_set l ∪ {[k]}.
Proof. apply leibniz_equiv. rewrite list_to_set_app. set_solver. Qed.

Lemma group_append_heads (k : string) (item : Item)
  (groups : list (string * list Item)) :
  Forall (fun g => snd g <> []) groups ->
  Forall (fun g => snd g <> []) (group_append k item groups)
  /\ (k ∈ map fst groups ->
      group_heads (group_append k item groups) = group_heads groups
      /\ map fst (group_append k item groups) = map fst groups)
  /\ (k ∉ map fst groups ->
      group_heads (group_append k item groups) = group_heads groups ++ [item]
      /\ map fst (group_append k item groups) = map fst groups ++ [k]).
Proof.
  unfold group_heads.
  induction groups as [|[k' items] groups IH]; intros Hne; cbn [group_append].
  - split; [repeat constructor; discriminate|].
    split; [intros H; now apply elem_of_nil in H | now split].
  - apply Forall_cons in Hne as [Hitems Hne]. cbn [snd] in Hitems.
    destruct (IH Hne) as (IH1 & IH2 & IH3).
    destruct (String.eqb_spec k k') as [->|Hk].
    + split; [|split].
      * constructor; [|exact Hne]. cbn [snd]. now destruct items.
      * intros _. rewrite !omap_cons_eq. cbn [snd map fst].
        destruct items as [|i items]; [congruence|]. now split.
      * intros H. elim H. apply list_elem_of_here.
    + split; [|split].
      * now constructor.
      * intros H. cbn [map fst] in H.
        apply elem_of_cons in H as [H|H]; [congruence|].
        destruct (IH2 H) as [E1 E2]. rewrite !omap_cons_eq. cbn [snd map fst].
        rewrite E1, E2. now split.
      * intros H. cbn [map fst] in H. apply not_elem_of_cons in H as [_ H].
        destruct (IH3 H) as [E1 E2]. rewrite !omap_cons_eq. cbn [snd map fst].
        rewrite E1, E2. split; [|reflexivity].
        now destruct (head items).
Qed.

(** The first records of the groups [deduplicate_data] builds are the
    records a running filter on the normalized URL keeps. *)
Lemma group_heads_first_by (data : list Item) :
  forall groups,
  Forall (fun g => snd g <> []) groups ->
  group_heads
    (fold_left
       (fun groups item =>
          match url item with
          | Some u => group_append (normalize_url u) item groups
          | None => groups
          end) data groups)
  = group_heads groups
    ++ first_by url_key (list_to_set (map fst groups))
         (List.filter has_url data).
Proof.
  induction data as [|item data IH]; intros groups Hne.
  - simpl. now rewrite app_nil_r.
  - cbn [fold_left List.filter].
    destruct (url item) as [u|] eqn:Hu.
    + assert (Hhas : has_url item = true) by (unfold has_url; now rewrite Hu).
      assert (Hkey : url_key item = normalize_url u).
      { unfold url_key, item_url. now rewrite Hu. }
      rewrite Hhas. cbn [first_by]. rewrite Hkey.
      destruct (group_append_heads (normalize_url u) item groups Hne)
        as (Hne' & Hold & Hnew).
      rewrite (IH _ Hne').
      destruct (decide (normalize_url u ∈ map fst groups)) as [Hin|Hnin].
      * destruct (Hold Hin) as [-> ->].
        rewrite bool_decide_eq_true_2 by now apply elem_of_list_to_set.
        reflexivity.
      * destruct (Hnew Hnin) as [-> ->].
        rewrite bool_decide_eq_false_2
          by (intros H; now apply elem_of_list_to_set in H).
        now rewrite gset_list_snoc, <- app_assoc.
    + assert (Hhas : has_url item = false)
        by (unfold has_url; now rewrite Hu).
      rewrite Hhas. now apply IH.
Qed.

(** Where the engine of [dedupe.py] keeps the richest record of each
    normalized URL, [deduplicate_by_url] keeps the first: its records with
    a URL are the first records of the engine's groups, in group order.  So
    every record the engine returns has a record with the same normalized
    URL in the output of [deduplicate_by_url], of at most its score. *)
Theorem simple_keeps_group_heads
  (data : list Item) (verbose : bool) (out : list Item) :
  DedupeSimple.deduplicate_by_url data verbose = Some out ->
  List.filter has_url out = group_heads (url_groups data)
  /\ forall r, r ∈ deduplicated data ->
       exists r0, r0 ∈ out /\ group_key r0 = group_key r
                  /\ content_score r0 <= content_score r.
Proof.
  intros H. destruct (simple_result data verbose out H)
    as (_ & _ & _ & Hfil & _).
  assert (Hheads : List.filter has_url out = group_heads (url_groups data)).
  { rewrite Hfil. unfold url_groups.
    now rewrite (group_heads_first_by data [] (Forall_nil_2 _)). }
  split; [exact Hheads|]. intros r Hr.
  destruct (deduplicated_elem data r Hr) as (k & items & Hin & Hb & Hk & _).
  destruct (url_groups_partition data) as (_ & Hgr & _).
  destruct (Hgr k items Hin) as [Hne Hitems].
  destruct items as [|r0 rest] eqn:Ei; [congruence|]. exists r0.
  assert (Hr0 : r0 ∈ List.filter has_url out).
  { rewrite Hheads. unfold group_heads. apply list_elem_of_omap.
    now exists (k, r0 :: rest). }
  apply elem_of_filter_bool in Hr0 as [Hr0 _].
  split; [exact Hr0|]. split.
  - rewrite Hk. apply in_group_has_key.
    assert (Hf : r0 ∈ List.filter (in_group k) data)
      by (rewrite <- Hitems; apply list_elem_of_here).
    now apply elem_of_filter_bool in Hf.
  - destruct (best_item_first_max (r0 :: rest) Hne)
      as (best & pre & post & Hb' & Heq & Hpre & Hpost).
    assert (best = r) by congruence. subst best.
    assert (Hmem : r0 ∈ pre ++ r :: post)
      by (rewrite <- Heq; apply list_elem_of_here).
    apply elem_of_app in Hmem as [Hmem|Hmem].
    + specialize (Hpre r0 Hmem). lia.
    + apply elem_of_cons in Hmem as [->|Hmem]; [lia | now apply Hpost].
Qed.

Lemma simple_keeps_group_heads_witness :
  let thin := mkItem (Some "https://maxroll.gg/d4/news") (Some "News")
                (Some empty_content) [] in
  let rich := mkItem (Some "https://maxroll.gg/d4/news?page=2") (Some "News")
                (Some (mkContent (Some [mkHeading 1 "News"]) None None None
                         None None None None None)) [] in
  DedupeSimple.deduplicate_by_url [thin; rich] false = Some [thin]
  /\ List.filter has_url [thin] = group_heads (url_groups [thin; rich])
  /\ deduplicate_data [thin; rich] false = Some [rich].
Proof.
  intros thin rich. split; [reflexivity|].
  split; [|reflexivity].
  exact (proj1 (simple_keeps_group_heads [thin; rich] false [thin] eq_refl)).
Defined.

(** The loop of [deduplicate_by_url_compact] is the loop of
    [deduplicate_by_url] over the records that pass the filter. *)
Lemma compact_scan_simple (pf : option string) (data : list Item) :
  forall seen out d f,
  fold_left (DedupeCompact.keep_first pf) data (seen, out, d, f)
  = (fold_left DedupeSimple.keep_first
       (List.filter (passes_filter pf) data) (seen, out, d),
     f + Z.of_nat (length data)
       - Z.of_nat (length (List.filter (passes_filter pf) data))).
Proof.
  induction data as [|item data IH]; intros seen out d f.
  - simpl. f_equal. lia.
  - cbn [fold_left List.filter]. unfold DedupeCompact.keep_first at 2.
    destruct (passes_filter pf item) eqn:Hp; unfold passes_filter in Hp;
      destruct (url item) as [u|] eqn:Hu; try discriminate Hp;
      rewrite ?Hp; cbn [negb fold_left].
    + unfold DedupeSimple.keep_first at 2. rewrite Hu. cbv zeta.
      change (DedupeCompact.normalize_url u)
        with (DedupeSimple.normalize_url u).
      destruct (bool_decide (DedupeSimple.normalize_url u ∉ seen));
        rewrite IH; cbn [length]; f_equal; lia.
    + unfold DedupeSimple.keep_first at 2. rewrite Hu.
      rewrite IH. cbn [length]. f_equal. lia.
    + rewrite IH. cbn [length]. f_equal. lia.
Qed.

Lemma filter_all {A} (P : A -> bool) (l : list A) :
  (forall x, x ∈ l -> P x = true) -> List.filter P l = l.
Proof.
  induction l as [|a l IH]; intros H; simpl; [reflexivity|].
  rewrite (H a) by apply list_elem_of_here. f_equal.
  apply IH. intros x Hx. now apply H, list_elem_of_further.
Qed.

(** Sorting a sorted list changes nothing. *)
Lemma sort_by_url_fixed (items : list Item) :
  sorted_by_url items -> sort_by_url items = items.
Proof.
  unfold sorted_by_url. induction 1 as [|x items Hs IH Hx]; simpl.
  - reflexivity.
  - rewrite IH. destruct items as [|y items]; [reflexivity|]. simpl.
    apply Forall_cons in Hx as [Hxy _]. unfold url_le in Hxy.
    now rewrite Hxy.
Qed.

(** The result of [deduplicate_by_url_compact], read from the loop. *)
Lemma compact_result (data : list Item) (input : string) (verbose : bool)
  (out : list Item) :
  DedupeCompact.deduplicate_by_url_compact data input verbose = Some out ->
  (verbose = true -> data <> [])
  /\ exists kept,
       DedupeSimple.deduplicate_by_url
         (List.filter (passes_filter (DedupeCompact.get_path_filter input))
            data) false
       = Some kept
       /\ out = sort_by_url kept.
Proof.
  unfold DedupeCompact.deduplicate_by_url_compact, DedupeCompact.scan.
  rewrite compact_scan_simple.
  unfold DedupeSimple.deduplicate_by_url, DedupeSimple.scan.
  destruct (fold_left DedupeSimple.keep_first _ _) as [[seen kept] d].
  cbv zeta. destruct (verbose && (length data =? 0)%nat) eqn:Hv;
    [discriminate|].
  intros H. injection H as <-. split.
  - intros -> ->. discriminate Hv.
  - now exists kept.
Qed.

(** [deduplicate_by_url_compact] is [deduplicate_by_url] run on the records
    that pass the path filter (records without URL pass untested), followed
    by the sort: its output is sorted by raw URL, holds the same records as
    that run, and every one of them is a record of the input that passes
    the filter. *)
Theorem compact_is_simple_on_scope
  (data : list Item) (input : string) (verbose : bool) (out : list Item) :
  DedupeCompact.deduplicate_by_url_compact data input verbose = Some out ->
  let path_filter := DedupeCompact.get_path_filter input in
  exists kept,
    DedupeSimple.deduplicate_by_url
      (List.filter (passes_filter path_filter) data) false = Some kept
    /\ out = sort_by_url kept
    /\ Permutation kept out
    /\ sorted_by_url out
    /\ (forall r, r ∈ out ->
          r ∈ data /\ passes_filter path_filter r = true).
Proof.
  intros H pf. destruct (compact_result data input verbose out H)
    as (_ & kept & Hkept & ->).
  exists kept. split; [exact Hkept|]. split; [reflexivity|].
  split; [apply sort_by_url_perm|]. split; [apply sort_by_url_sorted|].
  intros r Hr. rewrite <- sort_by_url_perm in Hr.
  destruct (simple_result _ _ _ Hkept) as (_ & _ & Hsub & _).
  apply (elem_of_sublist _ _ _ Hr) in Hsub.
  now apply elem_of_filter_bool in Hsub.
Qed.

Lemma compact_is_simple_on_scope_witness :
  let b := mkItem (Some "https://maxroll.gg/d4/news") (Some "News")
             (Some empty_content) [] in
  let p := mkItem (Some "https://maxroll.gg/poe/news") (Some "PoE")
             (Some empty_content) [] in
  let a := mkItem (Some "https://maxroll.gg/d4/builds") (Some "Builds")
             (Some empty_content) [] in
  DedupeCompact.deduplicate_by_url_compact [b; p; a]
    "https://maxroll.gg/d4/start" true = Some [a; b]
  /\ exists kept,
       DedupeSimple.deduplicate_by_url
         (List.filter
            (passes_filter
               (DedupeCompact.get_path_filter "https://maxroll.gg/d4/start"))
            [b; p; a]) false = Some kept
       /\ [a; b] = sort_by_url kept.
Proof.
  intros b p a. split; [reflexivity|].
  destruct (compact_is_simple_on_scope [b; p; a]
              "https://maxroll.gg/d4/start" true [a; b] eq_refl)
    as (kept & Hk & Hs & _).
  now exists kept.
Defined.

(** The filter of [dedupe_compact.py] is the spider's scope filter at its
    default filter depth 1: for a single non-empty seed URL both derive the
    same rule and accept the same URLs. *)
Theorem compact_filter_is_spider_filter
  (seed u : string) (fd md mp : option Z) :
  Py.truthy seed = true ->
  Py.has_char "," seed = false ->
  default 1 fd = 1 ->
  DedupeCompact.get_path_filter seed
  = path_filter (init_spider (Some seed) fd md mp)
  /\ DedupeCompact.matches_filter u (DedupeCompact.get_path_filter seed)
     = _matches_filter (init_spider (Some seed) fd md mp) u.
Proof.
  intros Ht Hc Hd.
  assert (Hpf : path_filter (init_spider (Some seed) fd md mp)
                = DedupeCompact.get_path_filter seed).
  { unfold init_spider. rewrite Ht, (split_no_sep _ _ Hc), Hd.
    reflexivity. }
  assert (Hfd : filter_depth (init_spider (Some seed) fd md mp) = 1).
  { unfold init_spider. now rewrite Ht, (split_no_sep _ _ Hc), Hd. }
  split; [now rewrite Hpf|].
  unfold _matches_filter. rewrite Hpf, Hfd.
  unfold DedupeCompact.matches_filter.
  destruct (DedupeCompact.get_path_filter seed) as [pf|]; [|reflexivity].
  now destruct (Py.truthy pf).
Qed.

Lemma compact_filter_is_spider_filter_witness :
  (Py.truthy "https://maxroll.gg/d4/start" = true
   /\ Py.has_char "," "https://maxroll.gg/d4/start" = false
   /\ default 1 (None : option Z) = 1)
  /\ DedupeCompact.matches_filter "https://maxroll.gg/poe/x"
       (DedupeCompact.get_path_filter "https://maxroll.gg/d4/start")
     = _matches_filter
         (init_spider (Some "https://maxroll.gg/d4/start") None None None)
         "https://maxroll.gg/poe/x".
Proof.
  split; [now repeat split|].
  exact (proj2 (compact_filter_is_spider_filter
                  "https://maxroll.gg/d4/start" "https://maxroll.gg/poe/x"
                  None None None eq_refl eq_refl eq_refl)).
Defined.

(** [deduplicate_by_url_compact] returns its own output unchanged when run
    on it with the same input URL, in quiet mode, and in verbose mode
    unless that output is empty. *)
Theorem compact_rerun_is_identity
  (data : list Item) (input : string) (verbose : bool) (out : list Item) :
  DedupeCompact.deduplicate_by_url_compact data input verbose = Some out ->
  verbose = false \/ out <> [] ->
  DedupeCompact.deduplicate_by_url_compact out input verbose = Some out.
Proof.
  intros H Hv. destruct (compact_result data input verbose out H)
    as (_ & kept & Hkept & Hout).
  destruct (simple_result _ _ _ Hkept) as (_ & _ & Hsub & Hfil & _).
  assert (Hperm : Permutation kept out)
    by (rewrite Hout; apply sort_by_url_perm).
  assert (Hnd : NoDup (omap group_key out)).
  { rewrite <- Hperm, omap_group_key, Hfil. apply first_by_NoDup. }
  assert (Hpass : forall r, r ∈ out ->
            passes_filter (DedupeCompact.get_path_filter input) r = true).
  { intros r Hr. rewrite <- Hperm in Hr.
    apply (elem_of_sublist _ _ _ Hr) in Hsub.
    now apply elem_of_filter_bool in Hsub. }
  assert (Hsorted : sorted_by_url out)
    by (rewrite Hout; apply sort_by_url_sorted).
  unfold DedupeCompact.deduplicate_by_url_compact, DedupeCompact.scan.
  rewrite compact_scan_simple, (filter_all _ _ Hpass).
  rewrite simple_scan_fixed;
    [|exact Hnd | intros k _; apply not_elem_of_empty].
  cbn [app]. rewrite (sort_by_url_fixed _ Hsorted).
  destruct verbose; [|reflexivity].
  destruct Hv as [Hv|Hv]; [discriminate|].
  destruct out; [congruence | reflexivity].
Qed.

Lemma compact_rerun_is_identity_witness :
  let b := mkItem (Some "https://maxroll.gg/d4/news") (Some "News")
             (Some empty_content) [] in
  let a := mkItem (Some "https://maxroll.gg/d4/builds") (Some "Builds")
             (Some empty_content) [] in
  (DedupeCompact.deduplicate_by_url_compact [b; a; b]
     "https://maxroll.gg/d4/start" true = Some [a; b]
   /\ (true = false \/ [a; b] <> []))
  /\ DedupeCompact.deduplicate_by_url_compact [a; b]
       "https://maxroll.gg/d4/start" true = Some [a; b].
Proof.
  intros b a. split; [split; [reflexivity | now right]|].
  apply (compact_rerun_is_identity [b; a; b] "https://maxroll.gg/d4/start"
           true [a; b] eq_refl).
  now right.
Defined.

(** The final write of the spider is idempotent: written again from its
    own output, it writes that output. *)
Theorem final_write_rerun_is_identity (st st' : State) (out : list Item) :
  closed st = Some out ->
  collected_data st' = out ->
  closed st' = Some out.
Proof.
  unfold closed, _write_sorted_deduplicated_output.
  destruct (collected_data st) as [|x coll] eqn:Ec; [discriminate|].
  intros H Hst'. injection H as H. rewrite Hst'.
  assert (Hperm : Permutation (unique_data (x :: coll)) out)
    by (rewrite <- H; apply sort_by_url_perm).
  assert (Hsorted : sorted_by_url out)
    by (rewrite <- H; apply sort_by_url_sorted).
  assert (Hnd : NoDup (map item_url out)).
  { rewrite <- Hperm, unique_data_eq. apply first_by_NoDup. }
  assert (Hu : unique_data out = out).
  { rewrite unique_data_eq. apply first_by_fixed; [|exact Hnd].
    intros y _. apply not_elem_of_empty. }
  assert (Hne : out <> []).
  { intros ->. apply Permutation_nil_r in Hperm.
    rewrite unique_data_eq in Hperm. cbn [first_by] in Hperm.
    rewrite bool_decide_eq_false_2 in Hperm by apply not_elem_of_empty.
    discriminate Hperm. }
  destruct out as [|r out]; [congruence|].
  now rewrite Hu, (sort_by_url_fixed _ Hsorted).
Qed.

Lemma final_write_rerun_is_identity_witness :
  let page := fun u =>
    mkItem (Some u) (Some "Page") (Some empty_content) [] in
  let b := page "https://maxroll.gg/d4/news" in
  let a := page "https://maxroll.gg/d4/builds" in
  let st := fun coll =>
    mkState 3 0 0 0 EmptyString ∅ ∅ 0 coll in
  closed (st [b; a; b]) = Some [a; b]
  /\ closed (st [a; b]) = Some [a; b].
Proof.
  intros page b a st. split; [reflexivity|].
  exact (final_write_rerun_is_identity (st [b; a; b]) (st [a; b]) [a; b]
           eq_refl eq_refl).
Defined.

(** ** The page estimate *)

Lemma count_links_fold urljoin sp base (hs : list string) :
  forall p f,
  fold_left (count_link urljoin sp base) hs (p, f)
  = (p + Z.of_nat (length (List.filter
         (fun h => Py.truthy h && followable (urljoin base h)
                   && _matches_filter sp (urljoin base h)) hs)),
     f + Z.of_nat (length (List.filter
         (fun h => Py.truthy h && followable (urljoin base h)
                   && negb (_matches_filter sp (urljoin base h))) hs))).
Proof.
  induction hs as [|h hs IH]; intros p f.
  - simpl. f_equal; lia.
  - cbn [fold_left List.filter]. unfold count_link at 2.
    destruct (Py.truthy h); cbn [andb];
      [destruct (followable (urljoin base h)); cbn [andb];
       [destruct (_matches_filter sp (urljoin base h)); cbn [negb]|]|];
      rewrite IH; cbn [length]; f_equal; lia.
Qed.

(** [_estimate_total_pages] acts only on the first page and only when that
    page has a link that passes the test of line 129 and the scope filter;
    otherwise it leaves the state as it is.  When it acts it changes the
    estimate alone, to a value between 10 and 100 (at most 50 unless
    [max_depth] is greater than 1), computed from the number of such
    links. *)
Theorem estimate_bounds
  (urljoin : string -> string -> string) (sp : Spider) (r : Response)
  (st : State) :
  let st' := _estimate_total_pages urljoin sp r st in
  let potential_links :=
    Z.of_nat (length (List.filter
      (fun h => Py.truthy h && followable (urljoin (resp_url r) h)
                && _matches_filter sp (urljoin (resp_url r) h))
      (hrefs r))) in
  let deep := match max_depth sp with
              | Some d => 1 <? d
              | None => false
              end in
  (pages_processed st <> 1 \/ potential_links = 0 -> st' = st)
  /\ (pages_processed st = 1 -> 0 < potential_links ->
      st' = mkState (pages_processed st) (pages_filtered st)
              (depth_exceeded st) (estimated_total_pages st')
              (current_page_url st) (urls_found st) (urls_scraped st)
              (duplicate_urls_skipped st) (collected_data st)
      /\ 10 <= estimated_total_pages st' <= 100
      /\ (deep = false ->
          estimated_total_pages st'
          = Z.min (Z.max potential_links 5 * 2) 50)
      /\ (forall d, max_depth sp = Some d -> 1 < d ->
          estimated_total_pages st'
          = Z.min (Z.max potential_links 5 * d) 100)).
Proof.
  cbv zeta. unfold _estimate_total_pages.
  rewrite (count_links_fold urljoin sp (resp_url r) (hrefs r) 0 0).
  set (p := Z.of_nat (length (List.filter _ (hrefs r)))).
  rewrite (Z.add_0_l p). split.
  - intros [H|H].
    + destruct (Z.eqb_spec (pages_processed st) 1); [congruence|reflexivity].
    + rewrite H. destruct (pages_processed st =? 1); reflexivity.
  - intros H1 Hp. rewrite H1. cbn [Z.eqb Pos.eqb].
    rewrite (proj2 (Z.ltb_lt 0 p) Hp). cbn [estimated_total_pages].
    split; [reflexivity|].
    destruct (max_depth sp) as [d|].
    + destruct (Z.ltb_spec 1 d) as [Hd|Hd].
      * split; [nia|]. split; [discriminate|].
        intros d' Hd' _. now injection Hd' as <-.
      * split; [lia|]. split; [reflexivity|].
        intros d' Hd' Hlt. injection Hd' as <-. lia.
    + split; [lia|]. split; [reflexivity | discriminate].
Qed.

(** ** Requests over a whole crawl *)

Lemma parse_loop_depth urljoin sp r st st' reqs :
  parse urljoin sp r st = (st', reqs) ->
  reqs <> [] -> depth_exceeds sp r = false.
Proof.
  unfold parse, parse_head.
  destruct (max_pages sp <=? pages_processed st);
    [intros H; injection H as _ <-; congruence|].
  destruct (depth_exceeds sp r); [|reflexivity].
  intros H. injection H as _ <-. congruence.
Qed.

(** Over a whole crawl, whatever responses arrive: every request yielded
    is for a URL that passes the test of line 315 and the scope filter, and
    is one level below a page that was within [max_depth]; so no request is
    deeper than [max_depth + 1]. *)
Theorem crawl_requests_in_scope
  (urljoin : string -> string -> string) (sp : Spider)
  (rs : list Response) :
  forall (st st' : State) (reqs : list Request),
  crawl urljoin sp rs st = (st', reqs) ->
  forall q, q ∈ reqs ->
    followable (req_url q) = true
    /\ _matches_filter sp (req_url q) = true
    /\ (exists r, r ∈ rs /\ depth_exceeds sp r = false
                  /\ req_depth q = current_depth r + 1)
    /\ (forall d, max_depth sp = Some d -> req_depth q <= d + 1).
Proof.
  assert (Hone : forall r st st' reqs,
            parse urljoin sp r st = (st', reqs) ->
            forall q, q ∈ reqs ->
              followable (req_url q) = true
              /\ _matches_filter sp (req_url q) = true
              /\ depth_exceeds sp r = false
              /\ req_depth q = current_depth r + 1).
  { intros r st st' reqs H q Hq.
    assert (Hd : depth_exceeds sp r = false).
    { apply (parse_loop_depth _ _ _ _ _ _ H). intros ->.
      now apply elem_of_nil in Hq. }
    destruct (parse_inv _ _ _ _ _ _ H)
      as [(-> & _)|(st1 & ls' & _ & _ & Hloop)];
      [now apply elem_of_nil in Hq|].
    pose proof (follow_links_inv _ _ _ _ _ _ _ _ _ _ Hloop) as Hinv.
    cbv zeta in Hinv. destruct Hinv as (_ & _ & Hreqs & _).
    destruct (Hreqs q Hq) as (Hdq & (h & _ & Hcnt & Hu) & Hm & _).
    apply andb_true_iff in Hcnt as [_ Hfo].
    split; [now rewrite Hu|]. now split. }
  induction rs as [|r rs IH]; intros st st' reqs H q Hq.
  - simpl in H. injection H as _ <-. now apply elem_of_nil in Hq.
  - simpl in H.
    destruct (parse urljoin sp r st) as [st1 reqs1] eqn:E1.
    destruct (crawl urljoin sp rs st1) as [st2 reqs2] eqn:E2.
    injection H as _ <-. apply elem_of_app in Hq as [Hq|Hq].
    + destruct (Hone _ _ _ _ E1 q Hq) as (Hf & Hm & Hd & Hq').
      split; [exact Hf|]. split; [exact Hm|]. split.
      * exists r. split; [apply list_elem_of_here | now split].
      * intros d Hmax. unfold depth_exceeds in Hd. rewrite Hmax in Hd.
        apply Z.ltb_ge in Hd. lia.
    + destruct (IH _ _ _ E2 q Hq) as (Hf & Hm & (r' & Hr' & Hd & Hq') & Hb).
      split; [exact Hf|]. split; [exact Hm|]. split; [|exact Hb].
      exists r'. split; [now apply list_elem_of_further | now split].
Qed.

Lemma crawl_requests_in_scope_witness :
  let urljoin := fun (_ href : string) => href in
  let sp := init_spider (Some "https://maxroll.gg/d4/start") (Some 1)
              (Some 1) None in
  let page := mkResponse "https://maxroll.gg/d4/start" None (Some "Start")
                None empty_content []
                ["https://maxroll.gg/d4/builds"; "https://maxroll.gg/poe/x"] in
  let q := mkRequest "https://maxroll.gg/d4/builds" 1 in
  (crawl urljoin sp [page] (init_state sp)
   = (fst (crawl urljoin sp [page] (init_state sp)), [q])
   /\ q ∈ [q])
  /\ followable (req_url q) = true.
Proof.
  intros urljoin sp page q.
  assert (H : crawl urljoin sp [page] (init_state sp)
              = (fst (crawl urljoin sp [page] (init_state sp)), [q]))
    by (vm_compute; reflexivity).
  split; [split; [exact H | apply list_elem_of_here]|].
  exact (proj1 (crawl_requests_in_scope urljoin sp [page] _ _ _ H q
                  (list_elem_of_here _ _))).
Defined.

(** ** The key of the frontier and the key of the merge *)

Lemma spider_key_of_parts (s n p q f : string) :
  wf_parts s n p q = true ->
  _normalize_url (url_of_parts s n p q f) = url_of_parts s n p q EmptyString.
Proof.
  intros Hwf.
  assert (Hbase : _normalize_url (url_of_parts s n p q EmptyString)
                  = url_of_parts s n p q EmptyString).
  { destruct (wf_parts_inv s n p q Hwf)
      as ((a & s' & Hs & _) & _ & _ & Hn & _ & _ & Hp & _).
    unfold _normalize_url. rewrite (urlparse_of_parts s n p q Hwf).
    cbn [UrlLib.scheme UrlLib.netloc UrlLib.path UrlLib.params
         UrlLib.query].
    unfold UrlLib.urlunparse, UrlLib.urlunsplit, url_of_parts.
    simpl (Py.truthy EmptyString). cbv iota. rewrite Hn. simpl orb.
    cbv iota.
    replace (Py.truthy p && negb (String.eqb (Py.take 1 p) "/"))
      with false by (destruct Hp as [->|[p' ->]]; reflexivity).
    replace (Py.truthy s) with true by now rewrite Hs.
    destruct (Py.truthy q); rewrite ?string_app_nil_r, ?string_app_assoc;
      reflexivity. }
  rewrite url_of_parts_fragment. destruct (Py.truthy f).
  - destruct (urlparse_fragment _ f (url_of_parts_no_hash s n p q Hwf))
      as (Hs & Hn & Hp & Hpa & Hq).
    rewrite <- Hbase at 2. unfold _normalize_url.
    now rewrite Hs, Hn, Hp, Hpa, Hq.
  - now rewrite string_app_nil_r.
Qed.

Lemma dedupe_key_of_parts (s n p q f : string) :
  wf_parts s n p q = true ->
  normalize_url (url_of_parts s n p q f) = s +:+ "://" +:+ n +:+ p.
Proof.
  intros Hwf.
  assert (Hbase : normalize_url (url_of_parts s n p q EmptyString)
                  = s +:+ "://" +:+ n +:+ p).
  { unfold normalize_url. now rewrite (urlparse_of_parts s n p q Hwf). }
  rewrite url_of_parts_fragment. destruct (Py.truthy f).
  - destruct (urlparse_fragment _ f (url_of_parts_no_hash s n p q Hwf))
      as (Hs & Hn & Hp & _).
    rewrite <- Hbase. unfold normalize_url. now rewrite Hs, Hn, Hp.
  - now rewrite string_app_nil_r.
Qed.

Lemma url_of_parts_query_inj (s n p q q' : string) :
  url_of_parts s n p q' EmptyString = url_of_parts s n p q EmptyString ->
  q' = q.
Proof.
  unfold url_of_parts. intros E.
  do 4 apply string_app_inv_head in E.
  change (Py.truthy EmptyString) with false in E. cbv iota in E.
  rewrite !string_app_nil_r in E.
  destruct q' as [|c' q'], q as [|c q]; cbn in E;
    [reflexivity | discriminate E | discriminate E | congruence].
Qed.

(** C2, as the code has it.  There are two normalizers, and they are two
    keys.  Both ignore the fragment: a URL without [#] and the same text
    followed by [#] and any fragment normalize to the same string, so URLs
    that differ only by fragment have identical outputs.  For a URL written
    from well-formed parts the spider's [_normalize_url], the key of the
    discovered and scraped sets, keeps scheme, network location, path and
    query string verbatim and drops the fragment only; [normalize_url] of
    [dedupe.py], the key of the URL groups of the merge, keeps scheme,
    network location and path and drops the query string too.  So two URLs
    that differ in the query string are two keys to the frontier and one
    key to the merge, and records collected under them fall into one group
    although their raw URLs, which the spider's final write compares,
    differ.  Whatever a round of the link loop adds to the discovered or
    the scraped set is the [_normalize_url] of the resolved link. *)
Theorem normalize_two_keys (s n p q q' f f' : string) :
  wf_parts s n p q = true ->
  wf_parts s n p q' = true ->
  q' <> q ->
  (forall base g,
     Py.has_char "#" base = false ->
     _normalize_url (base +:+ "#" +:+ g) = _normalize_url base
     /\ normalize_url (base +:+ "#" +:+ g) = normalize_url base)
  /\ _normalize_url (url_of_parts s n p q f)
     = url_of_parts s n p q EmptyString
  /\ _normalize_url (url_of_parts s n p q f')
     = _normalize_url (url_of_parts s n p q f)
  /\ normalize_url (url_of_parts s n p q f) = s +:+ "://" +:+ n +:+ p
  /\ _normalize_url (url_of_parts s n p q' f')
     <> _normalize_url (url_of_parts s n p q f)
  /\ normalize_url (url_of_parts s n p q' f')
     = normalize_url (url_of_parts s n p q f)
  /\ (forall a b,
        url a = Some (url_of_parts s n p q f) ->
        url b = Some (url_of_parts s n p q' f') ->
        group_key a = group_key b /\ item_url a <> item_url b)
  /\ (forall urljoin sp base depth st ls href st' ls' req,
        follow_link urljoin sp base depth st ls href = (st', ls', req) ->
        let key := _normalize_url (urljoin base href) in
        (urls_found st' = urls_found st
         \/ urls_found st' = urls_found st ∪ {[key]})
        /\ (urls_scraped st' = urls_scraped st
            \/ urls_scraped st' = urls_scraped st ∪ {[key]})).
Proof.
  intros Hwf Hwf' Hne.
  assert (Hdiff : _normalize_url (url_of_parts s n p q' f')
                  <> _normalize_url (url_of_parts s n p q f)).
  { rewrite !spider_key_of_parts by assumption.
    intros E. now apply Hne, (url_of_parts_query_inj s n p). }
  split.
  { intros base g Hb. change ("#" +:+ g) with (String "#" g).
    destruct (urlparse_fragment base g Hb) as (Hs & Hn & Hp & Hpa & Hq).
    unfold _normalize_url, normalize_url.
    now rewrite Hs, Hn, Hp, Hpa, Hq. }
  split; [now apply spider_key_of_parts|].
  split; [now rewrite !spider_key_of_parts|].
  split; [now apply dedupe_key_of_parts|].
  split; [exact Hdiff|].
  split; [now rewrite !dedupe_key_of_parts|].
  split.
  { intros a b Ha Hb. unfold group_key, item_url. rewrite Ha, Hb. simpl.
    split; [now rewrite !dedupe_key_of_parts|].
    intros E. apply Hdiff. now rewrite E. }
  intros urljoin sp base depth st ls href st' ls' req Hstep.
  pose proof (follow_link_inv _ _ _ _ _ _ _ _ _ _ Hstep) as Hinv.
  cbv zeta in Hinv. destruct Hinv as ((Hfound & Hscraped) & _).
  cbv zeta. rewrite Hfound, Hscraped. split.
  - destruct (Py.truthy href && followable (urljoin base href));
      [now right | now left].
  - destruct req; [now right | now left].
Qed.

(** Two pages of one listing.  The frontier follows both links, as two
    pages; the merge of [dedupe.py] files both records under one key and
    returns the first, although their contents, and their digests,
    differ. *)
Lemma query_pages_share_merge_key :
  let urljoin := fun (_ href : string) => href in
  let sp := init_spider (Some "https://maxroll.gg/d4/start") None None None in
  let u1 := "https://maxroll.gg/d4/news?page=1" in
  let u2 := "https://maxroll.gg/d4/news?page=2" in
  let body h := mkContent (Some [mkHeading 1 h])
                  (Some ["The news of the week, in full."])
                  (Some []) (Some []) (Some []) (Some []) (Some [])
                  (Some []) None in
  let r1 := mkItem (Some u1) (Some "News") (Some (body "Page 1")) [] in
  let r2 := mkItem (Some u2) (Some "News") (Some (body "Page 2")) [] in
  _normalize_url u1 = u1 /\ _normalize_url u2 = u2
  /\ snd (follow_links urljoin sp "https://maxroll.gg/d4/start" 0
            (init_state sp) (mkLinkStats 0 0 0 0) [u1; u2])
     = [mkRequest u1 1; mkRequest u2 1]
  /\ normalize_url u1 = "https://maxroll.gg/d4/news"
  /\ normalize_url u2 = "https://maxroll.gg/d4/news"
  /\ item_digest r1 <> item_digest r2
  /\ content_score r1 = content_score r2
  /\ deduplicate_data [r1; r2] false = Some [r1].
Proof.
  cbv zeta. split; [vm_compute; reflexivity|].
  split; [vm_compute; reflexivity|]. split; [vm_compute; reflexivity|].
  split; [vm_compute; reflexivity|]. split; [vm_compute; reflexivity|].
  split; [intros H; vm_compute in H; discriminate H|].
  split; [reflexivity | vm_compute; reflexivity].
Qed.

Lemma normalize_two_keys_witness :
  (wf_parts "https" "maxroll.gg" "/d4/news" "page=1" = true
   /\ wf_parts "https" "maxroll.gg" "/d4/news" "page=2" = true
   /\ "page=2" <> "page=1")
  /\ _normalize_url "https://maxroll.gg/d4/news?page=1#latest"
     = "https://maxroll.gg/d4/news?page=1"
  /\ normalize_url "https://maxroll.gg/d4/news?page=1#latest"
     = "https://maxroll.gg/d4/news".
Proof.
  split; [split; [reflexivity|split; [reflexivity|discriminate]]|].
  pose proof (normalize_two_keys "https" "maxroll.gg" "/d4/news" "page=1"
                "page=2" "latest" "" eq_refl eq_refl
                ltac:(discriminate)) as (_ & H1 & _ & H2 & _).
  split; [exact H1 | exact H2].
Defined.
